(** * Security-aware content cache: a shallow embedding of the engine

    The development follows [claude_cache_security_enhanced.py] (the engine)
    and [claude_cache_security_daemon.py] (the command handlers).  Python
    dictionaries and SQLite tables keyed by a primary key are finite maps,
    append-only tables are lists, and methods that touch the engine are
    computations in a small monad that threads the engine state and records
    whether a call returns, raises, or blocks on the non-reentrant lock. *)

From Stdlib Require Import ZArith QArith List String Ascii Bool Lia.
From Stdlib Require Import DecimalString.
From Stdlib Require DecimalNat DecimalFacts.
From stdpp Require Import base option list gmap strings.

Local Close Scope Q_scope.
Local Open Scope string_scope.
Local Open Scope Z_scope.

(** ** Strings and paths *)

Module Str.

(** The double-quote character, which the pattern table uses in character
    classes. *)
Definition dq : string := String (ascii_of_nat 34) EmptyString.

Definition newline : ascii := ascii_of_nat 10.

(** [str.lower()] on ASCII text. *)
Definition lower_ascii (c : ascii) : ascii :=
  let n := nat_of_ascii c in
  if ((65 <=? n)%nat && (n <=? 90)%nat)%bool then ascii_of_nat (n + 32) else c.

Fixpoint lower (s : string) : string :=
  match s with
  | EmptyString => EmptyString
  | String c s' => String (lower_ascii c) (lower s')
  end.

(** [s[:n]] *)
Fixpoint take (n : nat) (s : string) : string :=
  match n, s with
  | S n', String c s' => String c (take n' s')
  | _, _ => EmptyString
  end.

(** [s[n:]] *)
Fixpoint drop (n : nat) (s : string) : string :=
  match n, s with
  | S n', String _ s' => drop n' s'
  | _, _ => s
  end.

(** [s.rfind(c)]: index of the last occurrence, if any. *)
Fixpoint rfind (c : ascii) (s : string) : option nat :=
  match s with
  | EmptyString => None
  | String d s' =>
      match rfind c s' with
      | Some i => Some (S i)
      | None => if Ascii.eqb c d then Some O else None
      end
  end.

(** [s.count(c)] for a single character. *)
Fixpoint count_char (c : ascii) (s : string) : Z :=
  match s with
  | EmptyString => 0
  | String d s' => (if Ascii.eqb c d then 1 else 0) + count_char c s'
  end.

Definition of_nat (n : nat) : string := NilZero.string_of_uint (Nat.to_uint n).

Fixpoint of_bytes (l : list ascii) : string :=
  match l with
  | nil => EmptyString
  | c :: l' => String c (of_bytes l')
  end.

Fixpoint to_bytes (s : string) : list ascii :=
  match s with
  | EmptyString => nil
  | String c s' => c :: to_bytes s'
  end.

End Str.

(** ** UTF-8

    Text is held in its UTF-8 encoding: a Python [str] is the sequence of
    the code points that [next] reads off, one after the other. *)

Module Utf8.

Definition byte (c : ascii) : Z := Z.of_nat (nat_of_ascii c).

Definition between (lo hi b : Z) : bool := ((lo <=? b) && (b <=? hi))%bool.

(** The second byte a lead byte of a three- or four-byte sequence admits:
    no overlong form, no surrogate, nothing above U+10FFFF. *)
Definition second_ok (b0 b1 : Z) : bool :=
  if b0 =? 224 then between 160 191 b1
  else if b0 =? 237 then between 128 159 b1
  else if b0 =? 240 then between 144 191 b1
  else if b0 =? 244 then between 128 143 b1
  else between 128 191 b1.

(** The code point at the head of the text and the text after it; [None]
    at the end of the text and where no well-formed sequence starts. *)
Definition next (s : string) : option (Z * string) :=
  match s with
  | EmptyString => None
  | String c0 s1 =>
      let b0 := byte c0 in
      if b0 <? 128 then Some (b0, s1)
      else if between 194 223 b0 then
        match s1 with
        | String c1 s2 =>
            if between 128 191 (byte c1)
            then Some ((b0 - 192) * 64 + (byte c1 - 128), s2)
            else None
        | _ => None
        end
      else if between 224 239 b0 then
        match s1 with
        | String c1 (String c2 s3) =>
            if (second_ok b0 (byte c1) && between 128 191 (byte c2))%bool
            then Some (((b0 - 224) * 64 + (byte c1 - 128)) * 64 + (byte c2 - 128), s3)
            else None
        | _ => None
        end
      else if between 240 244 b0 then
        match s1 with
        | String c1 (String c2 (String c3 s4)) =>
            if (second_ok b0 (byte c1) && between 128 191 (byte c2)
                && between 128 191 (byte c3))%bool
            then Some ((((b0 - 240) * 64 + (byte c1 - 128)) * 64 + (byte c2 - 128)) * 64
                       + (byte c3 - 128), s4)
            else None
        | _ => None
        end
      else None
  end.

(** The number of bytes of the code point at the head of the text; one
    where no well-formed sequence starts. *)
Definition width (s : string) : nat :=
  match next s with
  | Some (_, rest) => (String.length s - String.length rest)%nat
  | None => 1%nat
  end.

(** [bytes.decode('utf-8', errors='ignore')]: the well-formed sequences are
    kept and every other byte is dropped.  [keep] counts the bytes of the
    current sequence still to copy. *)
Fixpoint decode_ignore_from (s : string) (keep : nat) : string :=
  match s with
  | EmptyString => EmptyString
  | String c s' =>
      match keep with
      | S n => String c (decode_ignore_from s' n)
      | O =>
          match next s with
          | Some _ => String c (decode_ignore_from s' (width s - 1))
          | None => decode_ignore_from s' 0
          end
      end
  end.

Definition decode_ignore (s : string) : string := decode_ignore_from s 0.

End Utf8.

(** ** [pathlib]

    Pure paths of the POSIX flavour, as [PurePosixPath] parses them: the
    root is one slash, or two when the text starts with exactly two, and the
    empty and the [.] components are dropped. *)

Module PurePath.

Definition keep_component (cur : string) (l : list string) : list string :=
  match cur with
  | EmptyString => l
  | String c EmptyString => if Ascii.eqb c "."%char then l else cur :: l
  | _ => cur :: l
  end.

(** [PurePath.parts] without the root. *)
Fixpoint parts_from (cur : string) (s : string) : list string :=
  match s with
  | EmptyString => keep_component cur nil
  | String c s' =>
      if Ascii.eqb c "/"%char
      then keep_component cur (parts_from EmptyString s')
      else parts_from (cur ++ String c EmptyString) s'
  end.

Definition parts (p : string) : list string := parts_from EmptyString p.

(** [PurePath.root] *)
Definition root (p : string) : string :=
  match p with
  | String c1 (String c2 (String c3 _)) =>
      if Ascii.eqb c1 "/"%char
      then if (Ascii.eqb c2 "/"%char && negb (Ascii.eqb c3 "/"%char))%bool
           then "//" else "/"
      else EmptyString
  | String c1 (String c2 EmptyString) =>
      if Ascii.eqb c1 "/"%char
      then if Ascii.eqb c2 "/"%char then "//" else "/"
      else EmptyString
  | String c1 EmptyString => if Ascii.eqb c1 "/"%char then "/" else EmptyString
  | EmptyString => EmptyString
  end.

(** [PurePath.name]: the final component, empty when there is none. *)
Definition name (p : string) : string := List.last (parts p) EmptyString.

(** [PurePath.suffix]:
    [i = name.rfind('.'); name[i:] if 0 < i < len(name) - 1 else ''] *)
Definition suffix (p : string) : string :=
  let n := name p in
  match Str.rfind "."%char n with
  | Some i =>
      if ((0 <? i)%nat && (S i <? String.length n)%nat)%bool
      then Str.drop i n else EmptyString
  | None => EmptyString
  end.

Fixpoint join_parts (l : list string) : string :=
  match l with
  | nil => EmptyString
  | x :: nil => x
  | x :: l' => x ++ "/" ++ join_parts l'
  end.

(** [str(path)] for a path given by its root and its parts. *)
Definition to_str (r : string) (l : list string) : string :=
  match r, l with
  | EmptyString, nil => "."
  | _, _ => r ++ join_parts l
  end.

(** [str(PurePath(a) / b)] *)
Definition joinpath (a b : string) : string :=
  match root b with
  | EmptyString => to_str (root a) (parts a ++ parts b)%list
  | r => to_str r (parts b)
  end.

Fixpoint starts_with_parts (pre l : list string) : bool :=
  match pre, l with
  | nil, _ => true
  | a :: pre', b :: l' => (String.eqb a b && starts_with_parts pre' l')%bool
  | _ :: _, nil => false
  end.

(** [PurePath(p).relative_to(other)] succeeds ([ValueError] otherwise). *)
Definition relative_to (p other : string) : bool :=
  (String.eqb (root p) (root other) && starts_with_parts (parts other) (parts p))%bool.

End PurePath.

(** ** Regular expressions

    The fragment of Python's [re] syntax that the pattern table is written
    in: ASCII literals, escapes, [.], character classes, groups, alternation
    and the quantifiers [*], [+], [?] with their lazy forms.  Matching is the
    backtracking search of [re] on [str] (alternatives left to right, greedy
    quantifiers longest first, lazy ones shortest first), one code point at
    a time, under [re.IGNORECASE]; [re.MULTILINE] only changes anchors,
    which the table does not use. *)

Module Regex.

Inductive re : Type :=
| Eps
| Cls (p : Z -> bool)
| Seq (a b : re)
| Alt (a b : re)
| Star (greedy : bool) (a : re).

(** [\s] on [str]: the code points for which [str.isspace()] holds. *)
Definition is_space (x : Z) : bool :=
  (Utf8.between 9 13 x || Utf8.between 28 32 x || (x =? 133) || (x =? 160)
   || (x =? 5760) || Utf8.between 8192 8202 x || (x =? 8232) || (x =? 8233)
   || (x =? 8239) || (x =? 8287) || (x =? 12288))%bool.

(** An ASCII literal under [re.IGNORECASE]: the character in either case
    and the code points that lower to it or share its upper case, which are
    U+0130 and U+0131 for [i], U+212A for [k] and U+017F for [s]. *)
Definition chr_ci (c : ascii) : Z -> bool :=
  let lc := Utf8.byte (Str.lower_ascii c) in
  fun x =>
    ((x =? lc) || (Utf8.between 97 122 lc && (x =? lc - 32))
     || ((lc =? 105) && ((x =? 304) || (x =? 305)))
     || ((lc =? 107) && (x =? 8490))
     || ((lc =? 115) && (x =? 383)))%bool.

Definition any_but_newline : Z -> bool := fun x => negb (x =? 10).

(** An escape: [\s] is the whitespace class, any other escaped character
    used by the table stands for itself. *)
Definition escape (c : ascii) : Z -> bool :=
  if Ascii.eqb c "s"%char then is_space else chr_ci c.

(** The body of a character class, after the opening bracket and the
    optional [^]. *)
Fixpoint parse_class (s : string) : option ((Z -> bool) * string) :=
  match s with
  | EmptyString => None
  | String c rest =>
      if Ascii.eqb c "]"%char then Some (fun _ => false, rest)
      else if Ascii.eqb c "\"%char then
        match rest with
        | String d rest' =>
            match parse_class rest' with
            | Some (p, r) => Some (fun x => (escape d x || p x)%bool, r)
            | None => None
            end
        | EmptyString => None
        end
      else
        match parse_class rest with
        | Some (p, r) => Some (fun x => (chr_ci c x || p x)%bool, r)
        | None => None
        end
  end.

(** A quantifier following an atom, with its optional lazy mark. *)
Definition parse_quant (a : re) (s : string) : re * string :=
  let lazy_mark (rest : string) : bool * string :=
    match rest with
    | String c rest' => if Ascii.eqb c "?"%char then (false, rest') else (true, rest)
    | EmptyString => (true, rest)
    end in
  match s with
  | String c rest =>
      if Ascii.eqb c "*"%char then
        let '(g, r) := lazy_mark rest in (Star g a, r)
      else if Ascii.eqb c "+"%char then
        let '(g, r) := lazy_mark rest in (Seq a (Star g a), r)
      else if Ascii.eqb c "?"%char then
        let '(g, r) := lazy_mark rest in
        ((if g then Alt a Eps else Alt Eps a), r)
      else (a, s)
  | EmptyString => (a, s)
  end.

Definition strip_group_mark (s : string) : string :=
  match s with
  | String c1 (String c2 rest) =>
      if (Ascii.eqb c1 "?"%char && Ascii.eqb c2 ":"%char)%bool then rest else s
  | _ => s
  end.

Fixpoint parse_alt (n : nat) (s : string) : option (re * string) :=
  match n with
  | O => None
  | S n =>
      match parse_seq n s with
      | Some (a, String c rest) =>
          if Ascii.eqb c "|"%char then
            match parse_alt n rest with
            | Some (b, rest') => Some (Alt a b, rest')
            | None => None
            end
          else Some (a, String c rest)
      | other => other
      end
  end
with parse_seq (n : nat) (s : string) : option (re * string) :=
  match n with
  | O => None
  | S n =>
      match s with
      | EmptyString => Some (Eps, s)
      | String c _ =>
          if (Ascii.eqb c "|"%char || Ascii.eqb c ")"%char)%bool then Some (Eps, s)
          else
            match parse_atom n s with
            | Some (a, rest) =>
                let '(q, rest1) := parse_quant a rest in
                match parse_seq n rest1 with
                | Some (b, rest2) => Some (Seq q b, rest2)
                | None => None
                end
            | None => None
            end
      end
  end
with parse_atom (n : nat) (s : string) : option (re * string) :=
  match n with
  | O => None
  | S n =>
      match s with
      | EmptyString => None
      | String c rest =>
          if Ascii.eqb c "("%char then
            match parse_alt n (strip_group_mark rest) with
            | Some (r, String d rest') =>
                if Ascii.eqb d ")"%char then Some (r, rest') else None
            | _ => None
            end
          else if Ascii.eqb c "["%char then
            match rest with
            | String d rest' =>
                if Ascii.eqb d "^"%char then
                  match parse_class rest' with
                  | Some (p, r) => Some (Cls (fun x => negb (p x)), r)
                  | None => None
                  end
                else
                  match parse_class rest with
                  | Some (p, r) => Some (Cls p, r)
                  | None => None
                  end
            | EmptyString => None
            end
          else if Ascii.eqb c "\"%char then
            match rest with
            | String d rest' => Some (Cls (escape d), rest')
            | EmptyString => None
            end
          else if Ascii.eqb c "."%char then Some (Cls any_but_newline, rest)
          else if (Ascii.eqb c "*"%char || Ascii.eqb c "+"%char || Ascii.eqb c "?"%char)%bool
          then None
          else Some (Cls (chr_ci c), rest)
      end
  end.

(** [re.compile(pattern, re.IGNORECASE | re.MULTILINE)]; [None] stands for
    [re.error]. *)
Definition compile (pattern : string) : option re :=
  match parse_alt (3 * S (String.length pattern)) pattern with
  | Some (r, EmptyString) => Some r
  | _ => None
  end.

(** Backtracking match of [r] at the start of [s]; [k] receives the text
    left after the match. *)
Fixpoint run (r : re) (s : string) (k : string -> option string) {struct r}
  : option string :=
  match r with
  | Eps => k s
  | Cls p =>
      match Utf8.next s with
      | Some (x, s') => if p x then k s' else None
      | None => None
      end
  | Seq a b => run a s (fun s1 => run b s1 k)
  | Alt a b =>
      match run a s k with
      | Some x => Some x
      | None => run b s k
      end
  | Star g a =>
      (fix loop (n : nat) (s : string) {struct n} : option string :=
         match n with
         | O => k s
         | S n' =>
             let more (_ : unit) :=
               run a s (fun s1 =>
                 if (String.length s1 <? String.length s)%nat
                 then loop n' s1 else None) in
             if g then
               match more tt with Some x => Some x | None => k s end
             else
               match k s with Some x => Some x | None => more tt end
         end) (String.length s) s
  end.

(** [Pattern.findall] for a pattern that matches no empty text, as every
    pattern of the table: the texts of the leftmost non-overlapping matches,
    the search moving on by one code point where nothing matches.  [skip]
    counts the bytes still to pass. *)
Fixpoint findall_from (r : re) (s : string) (skip : nat) : list string :=
  match skip with
  | S n =>
      match s with
      | EmptyString => nil
      | String _ s' => findall_from r s' n
      end
  | O =>
      match run r s Some with
      | Some rest =>
          let consumed := (String.length s - String.length rest)%nat in
          Str.take consumed s ::
            match s with
            | EmptyString => nil
            | String _ s' =>
                findall_from r s' (Nat.max consumed (Utf8.width s) - 1)
            end
      | None =>
          match s with
          | EmptyString => nil
          | String _ s' => findall_from r s' (Utf8.width s - 1)
          end
      end
  end.

Definition findall (r : re) (s : string) : list string := findall_from r s 0.

End Regex.

(** ** [hashlib.md5]

    The MD5 digest (RFC 1321) on 32-bit words held in [Z], every addition
    reduced modulo [2^32]. *)

Module MD5.

Definition mask32 : Z := 0xffffffff.
Definition add32 (a b : Z) : Z := (a + b) mod 2 ^ 32.
Definition not32 (a : Z) : Z := Z.lxor a mask32.
Definition rotl32 (x : Z) (n : Z) : Z :=
  Z.lor (Z.land (Z.shiftl x n) mask32) (Z.shiftr x (32 - n)).

Definition K : list Z :=
  [ 0xd76aa478; 0xe8c7b756; 0x242070db; 0xc1bdceee;
    0xf57c0faf; 0x4787c62a; 0xa8304613; 0xfd469501;
    0x698098d8; 0x8b44f7af; 0xffff5bb1; 0x895cd7be;
    0x6b901122; 0xfd987193; 0xa679438e; 0x49b40821;
    0xf61e2562; 0xc040b340; 0x265e5a51; 0xe9b6c7aa;
    0xd62f105d; 0x02441453; 0xd8a1e681; 0xe7d3fbc8;
    0x21e1cde6; 0xc33707d6; 0xf4d50d87; 0x455a14ed;
    0xa9e3e905; 0xfcefa3f8; 0x676f02d9; 0x8d2a4c8a;
    0xfffa3942; 0x8771f681; 0x6d9d6122; 0xfde5380c;
    0xa4beea44; 0x4bdecfa9; 0xf6bb4b60; 0xbebfbc70;
    0x289b7ec6; 0xeaa127fa; 0xd4ef3085; 0x04881d05;
    0xd9d4d039; 0xe6db99e5; 0x1fa27cf8; 0xc4ac5665;
    0xf4292244; 0x432aff97; 0xab9423a7; 0xfc93a039;
    0x655b59c3; 0x8f0ccc92; 0xffeff47d; 0x85845dd1;
    0x6fa87e4f; 0xfe2ce6e0; 0xa3014314; 0x4e0811a1;
    0xf7537e82; 0xbd3af235; 0x2ad7d2bb; 0xeb86d391 ].

Definition shifts : list Z :=
  [ 7; 12; 17; 22; 7; 12; 17; 22; 7; 12; 17; 22; 7; 12; 17; 22;
    5; 9; 14; 20; 5; 9; 14; 20; 5; 9; 14; 20; 5; 9; 14; 20;
    4; 11; 16; 23; 4; 11; 16; 23; 4; 11; 16; 23; 4; 11; 16; 23;
    6; 10; 15; 21; 6; 10; 15; 21; 6; 10; 15; 21; 6; 10; 15; 21 ].

(** Little-endian decoding of a 32-bit word and its inverse. *)
Definition word_of_bytes (b0 b1 b2 b3 : Z) : Z :=
  b0 + 256 * b1 + 65536 * b2 + 16777216 * b3.

Definition bytes_of_word (w : Z) : list Z :=
  [ w mod 256; (w / 256) mod 256; (w / 65536) mod 256; (w / 16777216) mod 256 ].

Fixpoint words_of_bytes (l : list Z) : list Z :=
  match l with
  | b0 :: b1 :: b2 :: b3 :: l' => word_of_bytes b0 b1 b2 b3 :: words_of_bytes l'
  | _ => nil
  end.

(** The message followed by [0x80], zeros up to 56 modulo 64, and the bit
    length on eight little-endian bytes. *)
Definition pad (msg : list Z) : list Z :=
  let len := Z.of_nat (List.length msg) in
  let zeros := Z.to_nat ((55 - len) mod 64) in
  let bits := (8 * len) mod 2 ^ 64 in
  msg ++ 0x80 :: List.repeat 0 zeros
      ++ bytes_of_word (bits mod 2 ^ 32) ++ bytes_of_word (bits / 2 ^ 32).

Definition step (M : list Z) (st : Z * Z * Z * Z) (i : nat) : Z * Z * Z * Z :=
  let '(a, b, c, d) := st in
  let zi := Z.of_nat i in
  let '(f, g) :=
    if (i <? 16)%nat then (Z.lor (Z.land b c) (Z.land (not32 b) d), zi)
    else if (i <? 32)%nat then
      (Z.lor (Z.land d b) (Z.land (not32 d) c), (5 * zi + 1) mod 16)
    else if (i <? 48)%nat then (Z.lxor (Z.lxor b c) d, (3 * zi + 5) mod 16)
    else (Z.lxor c (Z.lor b (not32 d)), (7 * zi) mod 16) in
  let f' := add32 (add32 (add32 f a) (nth i K 0)) (nth (Z.to_nat g) M 0) in
  (d, add32 b (rotl32 f' (nth i shifts 0)), b, c).

Definition block (st : Z * Z * Z * Z) (M : list Z) : Z * Z * Z * Z :=
  let '(a0, b0, c0, d0) := st in
  let '(a, b, c, d) := fold_left (step M) (seq 0 64) st in
  (add32 a0 a, add32 b0 b, add32 c0 c, add32 d0 d).

Fixpoint blocks (n : nat) (ws : list Z) (st : Z * Z * Z * Z) : Z * Z * Z * Z :=
  match n with
  | O => st
  | S n' => blocks n' (List.skipn 16 ws) (block st (List.firstn 16 ws))
  end.

Definition init : Z * Z * Z * Z := (0x67452301, 0xefcdab89, 0x98badcfe, 0x10325476).

(** [md5(msg).digest()] as sixteen byte values. *)
Definition digest (msg : list Z) : list Z :=
  let ws := words_of_bytes (pad msg) in
  let '(a, b, c, d) := blocks (List.length ws / 16) ws init in
  bytes_of_word a ++ bytes_of_word b ++ bytes_of_word c ++ bytes_of_word d.

Definition hex_digit (n : Z) : ascii :=
  nth (Z.to_nat n) (Str.to_bytes "0123456789abcdef") "0"%char.

(** [md5(msg).hexdigest()]: two lowercase hexadecimal digits per byte. *)
Fixpoint hex (l : list Z) : string :=
  match l with
  | nil => EmptyString
  | b :: l' => String (hex_digit (b / 16)) (String (hex_digit (b mod 16)) (hex l'))
  end.

Definition hexdigest (msg : list Z) : string := hex (digest msg).

End MD5.

(** [str.encode()]: the text is held as its UTF-8 bytes already. *)
Definition encode (s : string) : list Z :=
  List.map (fun c => Z.of_nat (nat_of_ascii c)) (Str.to_bytes s).

(** [int(s, 16)]; [None] stands for [ValueError]. *)
Definition hex_value (c : ascii) : option Z :=
  let n := nat_of_ascii c in
  if ((48 <=? n)%nat && (n <=? 57)%nat)%bool then Some (Z.of_nat (n - 48))
  else if ((97 <=? n)%nat && (n <=? 102)%nat)%bool then Some (Z.of_nat (n - 87))
  else if ((65 <=? n)%nat && (n <=? 70)%nat)%bool then Some (Z.of_nat (n - 55))
  else None.

Fixpoint int16_acc (acc : Z) (s : string) : option Z :=
  match s with
  | EmptyString => Some acc
  | String c s' =>
      match hex_value c with
      | Some v => int16_acc (16 * acc + v) s'
      | None => None
      end
  end.

Definition int16 (s : string) : option Z :=
  match s with
  | EmptyString => None
  | _ => int16_acc 0 s
  end.

(** ** Data model *)

Inductive FileType : Type :=
| SOURCE_CODE | CONFIG | BINARY | DOCUMENTATION | DATA | SECURITY_SENSITIVE.

(** [FileType.value] *)
Definition FileType_value (t : FileType) : string :=
  match t with
  | SOURCE_CODE => "source"
  | CONFIG => "config"
  | BINARY => "binary"
  | DOCUMENTATION => "docs"
  | DATA => "data"
  | SECURITY_SENSITIVE => "security"
  end.

Record SecurityPattern : Type := {
  pattern : string;
  severity : string;
  description : string;
  file_types : list string;
  regex : option Regex.re
}.

(** The constructor with [__post_init__]: a non-empty pattern is compiled. *)
Definition mkSecurityPattern (p sev descr : string) (exts : list string)
  : SecurityPattern :=
  {| pattern := p; severity := sev; description := descr; file_types := exts;
     regex := match p with EmptyString => None | _ => Regex.compile p end |}.

(** One finding, the dictionary built by [analyze_content]. *)
Record Finding : Type := {
  f_type : string;
  f_severity : string;
  f_pattern : string;
  f_matches : Z;
  f_file : string
}.

Record Metadata : Type := {
  mime_type : option string;
  encoding : string;
  lines : Z
}.

Record CacheEntry : Type := {
  path : string;
  checksum : string;
  size : Z;
  modified_time : Z;
  cached_time : Z;
  compressed : bool;
  access_count : Z;
  last_accessed : Z;
  content_path : string;
  file_type : FileType;
  git_sha : option string;
  security_score : Z;
  vulnerabilities : list Finding;
  metadata : Metadata;
  partition_key : option string
}.

Record CachePartition : Type := {
  partition_id : string;
  path_prefix : string;
  db_file : string;
  size_mb : Z;
  file_count : Z;
  last_updated : Z
}.

Record GitChange : Type := {
  gc_file_path : string;
  change_type : string
}.

(** Rows of the partition table [partition_cache]. *)
Record BlobRow : Type := {
  b_content : list Z;
  b_compressed : bool;
  b_size : Z;
  b_checksum : string
}.

(** Rows of the index table [vulnerabilities]. *)
Record VulnRow : Type := {
  vr_file_path : string;
  vr_type : string;
  vr_severity : string;
  vr_line_number : Z;
  vr_detected_time : Z;
  vr_resolved : bool
}.

(** Rows of the index table [performance_metrics]. *)
Record MetricsRow : Type := {
  mr_timestamp : Z;
  mr_cache_hits : Z;
  mr_cache_misses : Z;
  mr_avg_response_time_ms : Z;
  mr_memory_usage_mb : Q;
  mr_partition_balance : gmap string Z
}.

Record GitCommitRow : Type := {
  commit_sha : string;
  commit_time : Z;
  files_changed : Z
}.

(** The configuration options the modelled methods read. *)
Record Config : Type := {
  max_file_size_mb : Z;
  compression_threshold_kb : Z;
  security_analysis : bool
}.

Definition default_config : Config :=
  {| max_file_size_mb := 50; compression_threshold_kb := 100;
     security_analysis := true |}.

Record File : Type := {
  st_mtime : Z;
  data : list Z
}.

Definition st_size (f : File) : Z := Z.of_nat (List.length (data f)).

(** ** [cachetools]: the two in-memory tiers *)

Module LRUCache.

(** Items from least to most recently used. *)
Record t : Type := { maxsize : nat; items : list (string * CacheEntry) }.

Definition remove (k : string) (l : list (string * CacheEntry)) :=
  List.filter (fun kv => negb (String.eqb (fst kv) k)) l.

Definition lookup (k : string) (c : t) : option CacheEntry :=
  snd <$> List.find (fun kv => String.eqb (fst kv) k) (items c).

Definition contains (k : string) (c : t) : bool :=
  match lookup k c with Some _ => true | None => false end.

Definition len (c : t) : nat := List.length (items c).

(** [c[k]]: a hit also makes [k] the most recently used key. *)
Definition getitem (k : string) (c : t) : option (CacheEntry * t) :=
  match lookup k c with
  | Some v => Some (v, {| maxsize := maxsize c; items := remove k (items c) ++ [(k, v)] |})
  | None => None
  end.

(** [popitem] repeated while the cache is full. *)
Fixpoint evict (n : nat) (cap : nat) (l : list (string * CacheEntry)) :=
  match n with
  | O => l
  | S n' =>
      if (cap <? S (List.length l))%nat
      then match l with _ :: l' => evict n' cap l' | nil => nil end
      else l
  end.

(** [c[k] = v]; [None] stands for [ValueError] (a cache of size zero). *)
Definition setitem (k : string) (v : CacheEntry) (c : t) : option t :=
  if (maxsize c <? 1)%nat then None
  else
    let l := if contains k c then items c
             else evict (List.length (items c)) (maxsize c) (items c) in
    Some {| maxsize := maxsize c; items := remove k l ++ [(k, v)] |}.

(** [c.pop(k, None)] *)
Definition pop (k : string) (c : t) : t :=
  {| maxsize := maxsize c; items := remove k (items c) |}.

Definition clear (c : t) : t := {| maxsize := maxsize c; items := nil |}.

End LRUCache.

Module TTLCache.

(** Items in insertion order with the time at which each expires. *)
Record t : Type := {
  maxsize : nat;
  ttl : Z;
  items : list (string * (CacheEntry * Z))
}.

Definition live (now : Z) (kv : string * (CacheEntry * Z)) : bool :=
  now <? snd (snd kv).

Definition remove (k : string) (l : list (string * (CacheEntry * Z))) :=
  List.filter (fun kv => negb (String.eqb (fst kv) k)) l.

Definition find (k : string) (c : t) : option (CacheEntry * Z) :=
  snd <$> List.find (fun kv => String.eqb (fst kv) k) (items c).

(** [k in c] and [c[k]]: an expired item counts as absent. *)
Definition lookup (now : Z) (k : string) (c : t) : option CacheEntry :=
  match find k c with
  | Some (v, e) => if now <? e then Some v else None
  | None => None
  end.

Definition contains (now : Z) (k : string) (c : t) : bool :=
  match lookup now k c with Some _ => true | None => false end.

Definition expire (now : Z) (c : t) : t :=
  {| maxsize := maxsize c; ttl := ttl c; items := List.filter (live now) (items c) |}.

Definition len (now : Z) (c : t) : nat := List.length (items (expire now c)).

Fixpoint evict (n : nat) (cap : nat) (l : list (string * (CacheEntry * Z))) :=
  match n with
  | O => l
  | S n' =>
      if (cap <? S (List.length l))%nat
      then match l with _ :: l' => evict n' cap l' | nil => nil end
      else l
  end.

(** [c[k] = v]: expired items go first, then the oldest while full. *)
Definition setitem (now : Z) (k : string) (v : CacheEntry) (c : t) : option t :=
  if (maxsize c <? 1)%nat then None
  else
    let l0 := List.filter (live now) (items c) in
    let present := match List.find (fun kv => String.eqb (fst kv) k) l0 with
                   | Some _ => true | None => false end in
    let l := if present then l0
             else evict (List.length l0) (maxsize c) l0 in
    Some {| maxsize := maxsize c; ttl := ttl c;
            items := remove k l ++ [(k, (v, now + ttl c))] |}.

(** [c.pop(k, None)]: [c[k]] is read first, so an expired item stays. *)
Definition pop (now : Z) (k : string) (c : t) : t :=
  match lookup now k c with
  | Some _ => {| maxsize := maxsize c; ttl := ttl c; items := remove k (items c) |}
  | None => c
  end.

Definition clear (c : t) : t :=
  {| maxsize := maxsize c; ttl := ttl c; items := nil |}.

End TTLCache.

(** ** The platform

    Library and operating-system services the engine calls but does not
    define. *)

Class Platform : Type := {
  (** [str(Path(p).resolve())] *)
  resolve : string -> string;
  (** [hashlib.sha256(b).hexdigest()] *)
  sha256_hexdigest : list Z -> string;
  (** [gzip.compress(b, compresslevel=6)] *)
  gzip_compress : list Z -> list Z;
  (** [gzip.decompress(b)]; [None] stands for [BadGzipFile] *)
  gzip_decompress : list Z -> option (list Z);
  (** [mimetypes.guess_type(p)[0]] *)
  guess_type : string -> option string;
  (** [repo.git.hash_object(p)] for the repository at the given path;
      [None] stands for a failing git command *)
  hash_object : string -> string -> option string;
  (** [repo.git.diff(base, target, name_status=True)] for the repository at
      the given path; [None] stands for a missing repository or a failing
      git command *)
  git_diff : string -> string -> string -> option string;
  (** [psutil.Process().memory_info().rss] *)
  memory_rss : Z
}.

(** [bytes.decode('utf-8', errors='ignore')] *)
Definition decode (b : list Z) : string :=
  Utf8.decode_ignore (Str.of_bytes (List.map (fun z => ascii_of_nat (Z.to_nat z)) b)).

(** ** Engine state *)

Record State : Type := {
  (** attributes of the engine object *)
  allowed_dirs : list string;
  config : Config;
  partitions : gmap string CachePartition;
  memory_cache : LRUCache.t;
  ttl_cache : TTLCache.t;
  stats : gmap string Z;
  git_integration : option string;
  db_lock : bool;
  (** the index database *)
  security_cache : gmap string CacheEntry;
  vulnerabilities_table : list VulnRow;
  git_commits : list GitCommitRow;
  performance_metrics : list MetricsRow;
  (** the partition databases, one [partition_cache] table each *)
  partition_cache : gmap string (gmap string BlobRow);
  (** the world: files on disk, [time.time()], [time.monotonic()] *)
  files : gmap string File;
  clock : Z;
  monotonic : Z
}.

Definition set_memory_cache (f : LRUCache.t -> LRUCache.t) (s : State) : State :=
  {| allowed_dirs := allowed_dirs s; config := config s; partitions := partitions s;
     memory_cache := f (memory_cache s); ttl_cache := ttl_cache s; stats := stats s;
     git_integration := git_integration s; db_lock := db_lock s;
     security_cache := security_cache s;
     vulnerabilities_table := vulnerabilities_table s; git_commits := git_commits s;
     performance_metrics := performance_metrics s;
     partition_cache := partition_cache s; files := files s; clock := clock s;
     monotonic := monotonic s |}.

Definition set_ttl_cache (f : TTLCache.t -> TTLCache.t) (s : State) : State :=
  {| allowed_dirs := allowed_dirs s; config := config s; partitions := partitions s;
     memory_cache := memory_cache s; ttl_cache := f (ttl_cache s); stats := stats s;
     git_integration := git_integration s; db_lock := db_lock s;
     security_cache := security_cache s;
     vulnerabilities_table := vulnerabilities_table s; git_commits := git_commits s;
     performance_metrics := performance_metrics s;
     partition_cache := partition_cache s; files := files s; clock := clock s;
     monotonic := monotonic s |}.

Definition set_stats (f : gmap string Z -> gmap string Z) (s : State) : State :=
  {| allowed_dirs := allowed_dirs s; config := config s; partitions := partitions s;
     memory_cache := memory_cache s; ttl_cache := ttl_cache s; stats := f (stats s);
     git_integration := git_integration s; db_lock := db_lock s;
     security_cache := security_cache s;
     vulnerabilities_table := vulnerabilities_table s; git_commits := git_commits s;
     performance_metrics := performance_metrics s;
     partition_cache := partition_cache s; files := files s; clock := clock s;
     monotonic := monotonic s |}.

Definition set_db_lock (b : bool) (s : State) : State :=
  {| allowed_dirs := allowed_dirs s; config := config s; partitions := partitions s;
     memory_cache := memory_cache s; ttl_cache := ttl_cache s; stats := stats s;
     git_integration := git_integration s; db_lock := b;
     security_cache := security_cache s;
     vulnerabilities_table := vulnerabilities_table s; git_commits := git_commits s;
     performance_metrics := performance_metrics s;
     partition_cache := partition_cache s; files := files s; clock := clock s;
     monotonic := monotonic s |}.

Definition set_security_cache
  (f : gmap string CacheEntry -> gmap string CacheEntry) (s : State) : State :=
  {| allowed_dirs := allowed_dirs s; config := config s; partitions := partitions s;
     memory_cache := memory_cache s; ttl_cache := ttl_cache s; stats := stats s;
     git_integration := git_integration s; db_lock := db_lock s;
     security_cache := f (security_cache s);
     vulnerabilities_table := vulnerabilities_table s; git_commits := git_commits s;
     performance_metrics := performance_metrics s;
     partition_cache := partition_cache s; files := files s; clock := clock s;
     monotonic := monotonic s |}.

Definition set_vulnerabilities_table
  (f : list VulnRow -> list VulnRow) (s : State) : State :=
  {| allowed_dirs := allowed_dirs s; config := config s; partitions := partitions s;
     memory_cache := memory_cache s; ttl_cache := ttl_cache s; stats := stats s;
     git_integration := git_integration s; db_lock := db_lock s;
     security_cache := security_cache s;
     vulnerabilities_table := f (vulnerabilities_table s); git_commits := git_commits s;
     performance_metrics := performance_metrics s;
     partition_cache := partition_cache s; files := files s; clock := clock s;
     monotonic := monotonic s |}.

Definition set_git_commits
  (f : list GitCommitRow -> list GitCommitRow) (s : State) : State :=
  {| allowed_dirs := allowed_dirs s; config := config s; partitions := partitions s;
     memory_cache := memory_cache s; ttl_cache := ttl_cache s; stats := stats s;
     git_integration := git_integration s; db_lock := db_lock s;
     security_cache := security_cache s;
     vulnerabilities_table := vulnerabilities_table s; git_commits := f (git_commits s);
     performance_metrics := performance_metrics s;
     partition_cache := partition_cache s; files := files s; clock := clock s;
     monotonic := monotonic s |}.

Definition set_performance_metrics
  (f : list MetricsRow -> list MetricsRow) (s : State) : State :=
  {| allowed_dirs := allowed_dirs s; config := config s; partitions := partitions s;
     memory_cache := memory_cache s; ttl_cache := ttl_cache s; stats := stats s;
     git_integration := git_integration s; db_lock := db_lock s;
     security_cache := security_cache s;
     vulnerabilities_table := vulnerabilities_table s; git_commits := git_commits s;
     performance_metrics := f (performance_metrics s);
     partition_cache := partition_cache s; files := files s; clock := clock s;
     monotonic := monotonic s |}.

Definition set_partition_cache
  (f : gmap string (gmap string BlobRow) -> gmap string (gmap string BlobRow))
  (s : State) : State :=
  {| allowed_dirs := allowed_dirs s; config := config s; partitions := partitions s;
     memory_cache := memory_cache s; ttl_cache := ttl_cache s; stats := stats s;
     git_integration := git_integration s; db_lock := db_lock s;
     security_cache := security_cache s;
     vulnerabilities_table := vulnerabilities_table s; git_commits := git_commits s;
     performance_metrics := performance_metrics s;
     partition_cache := f (partition_cache s); files := files s; clock := clock s;
     monotonic := monotonic s |}.

(** ** Computations on the engine

    A call either returns a value, raises an exception, or blocks for ever
    acquiring [_db_lock], a [threading.Lock], while it is held. *)

Inductive exn : Type :=
| KeyError | OSError | OperationalError | IntegrityError
| ZeroDivisionError | ValueError | BadGzipFile.

Inductive outcome (A : Type) : Type :=
| Ret (a : A) (s : State)
| Exc (e : exn) (s : State)
| Hang.

Arguments Ret {A} a s.
Arguments Exc {A} e s.
Arguments Hang {A}.

Definition M (A : Type) : Type := State -> outcome A.

Definition ret {A : Type} (a : A) : M A := fun s => Ret a s.

Definition bind {A B : Type} (m : M A) (f : A -> M B) : M B :=
  fun s =>
    match m s with
    | Ret a s' => f a s'
    | Exc e s' => Exc e s'
    | Hang => Hang
    end.

Definition raise {A : Type} (e : exn) : M A := fun s => Exc e s.

Definition gets {A : Type} (f : State -> A) : M A := fun s => Ret (f s) s.

Definition modify (f : State -> State) : M unit := fun s => Ret tt (f s).

(** [try: m  except Exception as e: h e] *)
Definition try_except {A : Type} (m : M A) (h : exn -> M A) : M A :=
  fun s =>
    match m s with
    | Exc e s' => h e s'
    | other => other
    end.

(** [with self._db_lock: m].  The lock is released on every way out of the
    block; acquiring it while held never completes. *)
Definition with_db_lock {A : Type} (m : M A) : M A :=
  fun s =>
    if db_lock s then Hang
    else
      match m (set_db_lock true s) with
      | Ret a s' => Ret a (set_db_lock false s')
      | Exc e s' => Exc e (set_db_lock false s')
      | Hang => Hang
      end.

Declare Scope engine_scope.
Delimit Scope engine_scope with engine.
Notation "'let*' x ':=' m 'in' k" := (bind m (fun x => k))
  (at level 10, x name, m at level 100, k at level 200) : engine_scope.
Local Open Scope engine_scope.

(** [time.time()] *)
Definition time_time : M Z := gets clock.

(** [self.stats[k] += 1] on a [defaultdict(int)] *)
Definition stats_incr (k : string) : M unit :=
  modify (set_stats (fun st => <[k := default 0 (st !! k) + 1]> st)).

(** [self.stats[k]]: reading a missing key stores the default. *)
Definition stats_getitem (k : string) : M Z :=
  fun s =>
    match stats s !! k with
    | Some v => Ret v s
    | None => Ret 0 (set_stats (fun st => <[k := 0]> st) s)
    end.

(** [self.stats.get(k, d)] *)
Definition stats_get (k : string) (d : Z) : M Z :=
  gets (fun s => default d (stats s !! k)).

(** ** Pattern engine *)

Definition _load_security_patterns : list SecurityPattern :=
  let q := Str.dq in
  [ mkSecurityPattern
      ("(?:password|passwd|pwd)\s*=\s*[" ++ q ++ "\']([^" ++ q ++ "\']+)[" ++ q ++ "\']")
      "HIGH" "Hardcoded password" [".py"; ".js"; ".java"; ".cs"; ".go"];
    mkSecurityPattern
      ("(?:api[_-]?key|apikey)\s*=\s*[" ++ q ++ "\']([^" ++ q ++ "\']+)[" ++ q ++ "\']")
      "HIGH" "Hardcoded API key"
      [".py"; ".js"; ".java"; ".cs"; ".go"; ".yml"; ".yaml"];
    mkSecurityPattern
      ("(?:secret|token)\s*=\s*[" ++ q ++ "\']([^" ++ q ++ "\']+)[" ++ q ++ "\']")
      "HIGH" "Hardcoded secret/token" [".py"; ".js"; ".java"; ".cs"; ".go"];
    mkSecurityPattern
      ("(?:execute|query)\s*\(\s*[" ++ q ++ "\'].*?\%s.*?[" ++ q ++ "\'].*?\%.*?\)")
      "HIGH" "Potential SQL injection" [".py"; ".php"; ".java"];
    mkSecurityPattern
      ("(?:execute|query)\s*\(\s*f[" ++ q ++ "\'].*?\{.*?\}.*?[" ++ q ++ "\']")
      "HIGH" "SQL injection via f-string" [".py"];
    mkSecurityPattern
      "os\.system\s*\([^)]*\+[^)]*\)"
      "CRITICAL" "Command injection risk" [".py"];
    mkSecurityPattern
      "subprocess\.(?:call|run|Popen)\s*\([^,\)]*\+[^,\)]*"
      "HIGH" "Command injection via subprocess" [".py"];
    mkSecurityPattern
      "eval\s*\([^)]*(?:request|input|argv)"
      "CRITICAL" "Code injection via eval" [".py"; ".js"; ".php"];
    mkSecurityPattern
      "(?:open|file)\s*\([^)]*\.\.[/\\]"
      "MEDIUM" "Path traversal vulnerability" [".py"; ".js"; ".java"];
    mkSecurityPattern
      "(?:MD5|SHA1)\s*\("
      "MEDIUM" "Weak cryptographic hash" [".py"; ".js"; ".java"; ".cs"];
    mkSecurityPattern
      "random\.random\s*\(\)"
      "LOW" "Insecure random for security" [".py"];
    mkSecurityPattern
      "Access-Control-Allow-Origin.*?\*"
      "MEDIUM" "Overly permissive CORS" [".py"; ".js"; ".java"];
    mkSecurityPattern
      "pickle\.loads?\s*\("
      "HIGH" "Unsafe deserialization" [".py"];
    mkSecurityPattern
      "yaml\.load\s*\([^,)]*\)"
      "HIGH" "Unsafe YAML loading" [".py"] ].

(** The deduction for one matched pattern. *)
Definition penalty (sev : string) : Z :=
  if String.eqb sev "CRITICAL" then 30
  else if String.eqb sev "HIGH" then 20
  else if String.eqb sev "MEDIUM" then 10
  else 5.

(** [x in l] for a list of strings. *)
Definition str_in (x : string) (l : list string) : bool :=
  existsb (String.eqb x) l.

(** One iteration of the loop over [self.patterns]. *)
Definition analyze_step (content file_path file_ext : string)
  (acc : Z * list Finding) (p : SecurityPattern) : Z * list Finding :=
  let '(security_score, vulnerabilities) := acc in
  if negb (str_in file_ext (file_types p)) then acc
  else
    match regex p with
    | Some r =>
        let matches := Regex.findall r content in
        match matches with
        | nil => acc
        | _ :: _ =>
            let vuln :=
              {| f_type := description p;
                 f_severity := severity p;
                 f_pattern := Str.take 50 (pattern p) ++ "...";
                 f_matches := Z.of_nat (List.length matches);
                 f_file := file_path |} in
            (security_score - penalty (severity p), (vulnerabilities ++ [vuln])%list)
        end
    | None => acc
    end.

Definition analyze_with (patterns : list SecurityPattern)
  (content file_path : string) : Z * list Finding :=
  let file_ext := Str.lower (PurePath.suffix file_path) in
  let '(security_score, vulns) :=
    fold_left (analyze_step content file_path file_ext) patterns (100, nil) in
  (Z.max 0 security_score, vulns).

(** [SecurityAnalyzer.analyze_content] *)
Definition analyze_content (content file_path : string) : Z * list Finding :=
  analyze_with _load_security_patterns content file_path.

(** ** Paths on disk *)

(** [p.relative_to(other)] and [str(a / b)] *)
Definition relative_to (p other : string) : bool := PurePath.relative_to p other.

Definition joinpath (a b : string) : string := PurePath.joinpath a b.

(** [s.split(sep)] for a one-character separator. *)
Fixpoint split_from (sep : ascii) (cur : string) (s : string) : list string :=
  match s with
  | EmptyString => [cur]
  | String c s' =>
      if Ascii.eqb c sep then cur :: split_from sep EmptyString s'
      else split_from sep (cur ++ String c EmptyString) s'
  end.

Definition split (sep : ascii) (s : string) : list string :=
  split_from sep EmptyString s.

Definition startswith (c : ascii) (s : string) : bool :=
  match s with
  | String d _ => Ascii.eqb c d
  | EmptyString => false
  end.

(** ** File classification *)

Definition source_extensions : list string :=
  [".py"; ".js"; ".ts"; ".java"; ".cs"; ".go"; ".php"; ".rb"; ".c"; ".cpp"; ".rs"].

Definition config_extensions : list string :=
  [".yml"; ".yaml"; ".json"; ".xml"; ".conf"; ".ini"; ".toml"].

Definition doc_extensions : list string := [".md"; ".txt"; ".rst"; ".adoc"].

Definition _determine_file_type (path : string) : FileType :=
  let ext := Str.lower (PurePath.suffix path) in
  if str_in ext source_extensions then SOURCE_CODE
  else if str_in ext config_extensions then CONFIG
  else if str_in ext doc_extensions then DOCUMENTATION
  else if str_in (PurePath.name path) ["Dockerfile"; "Makefile"; ".env"; ".gitignore"]
  then CONFIG
  else DATA.

Definition FileType_eqb (a b : FileType) : bool :=
  match a, b with
  | SOURCE_CODE, SOURCE_CODE | CONFIG, CONFIG | BINARY, BINARY
  | DOCUMENTATION, DOCUMENTATION | DATA, DATA
  | SECURITY_SENSITIVE, SECURITY_SENSITIVE => true
  | _, _ => false
  end.

(** The guard of the analysis step of [cache_file_enhanced]. *)
Definition runs_security_analysis (cfg : Config) (path : string) : bool :=
  (security_analysis cfg && FileType_eqb (_determine_file_type path) SOURCE_CODE)%bool.

(** ** Version-control bridge *)

Definition _parse_change_type (git_status : string) : string :=
  if startswith "A"%char git_status then "added"
  else if startswith "M"%char git_status then "modified"
  else if startswith "D"%char git_status then "deleted"
  else if startswith "R"%char git_status then "renamed"
  else "unknown".

(** The loop of [get_changed_files] over the name-status diff text. *)
Fixpoint changes_of_lines (repo_path : string) (ls : list string) : list GitChange :=
  match ls with
  | nil => nil
  | line :: ls' =>
      match line with
      | EmptyString => changes_of_lines repo_path ls'
      | _ =>
          match split (ascii_of_nat 9) line with
          | status :: file :: _ =>
              {| gc_file_path := joinpath repo_path file;
                 change_type := _parse_change_type status |}
                :: changes_of_lines repo_path ls'
          | _ => changes_of_lines repo_path ls'
          end
      end
  end.

(** [GitIntegration.get_changed_files] given what [git diff --name-status]
    printed; [None] stands for a missing repository or a failing command. *)
Definition get_changed_files (repo_path : string) (diff : option string)
  : list GitChange :=
  match diff with
  | Some text => changes_of_lines repo_path (split Str.newline text)
  | None => nil
  end.

(** ** Partitions *)

(** [_init_partitions] for a given partition count. *)
Fixpoint _init_partitions_from (cache_dir : string) (now : Z) (i n : nat)
  : gmap string CachePartition :=
  match n with
  | O => ∅
  | S n' =>
      let pid := "partition_" ++ Str.of_nat i in
      <[pid := {| partition_id := pid; path_prefix := EmptyString;
                  db_file := cache_dir ++ "/partitions/" ++ pid ++ ".db";
                  size_mb := 0; file_count := 0; last_updated := now |}]>
        (_init_partitions_from cache_dir now (S i) n')
  end.

Definition _init_partitions (cache_dir : string) (now : Z) (partition_count : nat)
  : gmap string CachePartition :=
  _init_partitions_from cache_dir now 0 partition_count.

(** [_get_partition_for_path] *)
Definition _get_partition_for_path (file_path : string) : M string :=
  fun s =>
    let path_hash := MD5.hexdigest (encode file_path) in
    match int16 (Str.take 2 path_hash) with
    | None => Exc ValueError s
    | Some h =>
        let n := Z.of_nat (base.size (partitions s)) in
        if n =? 0 then Exc ZeroDivisionError s
        else Ret ("partition_" ++ Str.of_nat (Z.to_nat (h mod n))) s
    end.

(** ** Persistent store *)

Inductive connection : Type :=
| IndexDB
| PartitionDB (file : string).

(** The table [partition_cache] of a partition database. *)
Definition partition_table (file : string) (s : State) : gmap string BlobRow :=
  default ∅ (partition_cache s !! file).

(** [with self._get_db_connection(partition_id) as conn: body].  The
    generator yields inside [with self._db_lock], so the lock is held while
    the body runs. *)
Definition _get_db_connection {A : Type} (pid : option string)
  (body : connection -> M A) : M A :=
  let* conn :=
    (fun s =>
       match pid with
       | None | Some EmptyString => Ret IndexDB s
       | Some id =>
           match partitions s !! id with
           | Some p => Ret (PartitionDB (db_file p)) s
           | None => Exc KeyError s
           end
       end) in
  with_db_lock (body conn).

(** Statements on [partition_cache]; the index database has no such table. *)
Definition on_partition {A : Type} (conn : connection)
  (stmt : string -> M A) : M A :=
  match conn with
  | PartitionDB file => stmt file
  | IndexDB => raise OperationalError
  end.

(** Statements on the tables of the index database. *)
Definition on_index {A : Type} (conn : connection) (stmt : M A) : M A :=
  match conn with
  | IndexDB => stmt
  | PartitionDB _ => raise OperationalError
  end.

Definition _store_in_partition (entry : CacheEntry) (content : list Z)
  (pid : string) : M unit :=
  _get_db_connection (Some pid) (fun conn =>
    on_partition conn (fun file =>
      modify (set_partition_cache (fun pc =>
        <[file := <[path entry :=
                     {| b_content := content; b_compressed := compressed entry;
                        b_size := size entry; b_checksum := checksum entry |}]>
                  (default ∅ (pc !! file))]> pc)))).

Definition _update_index (entry : CacheEntry) : M unit :=
  _get_db_connection None (fun conn =>
    on_index conn (modify (set_security_cache (fun t => <[path entry := entry]> t)))).

Definition vuln_row (file_path : string) (now : Z) (v : Finding) : VulnRow :=
  {| vr_file_path := file_path; vr_type := f_type v; vr_severity := f_severity v;
     vr_line_number := -1; vr_detected_time := now; vr_resolved := false |}.

Definition _store_vulnerabilities (file_path : string) (vulns : list Finding)
  : M unit :=
  _get_db_connection None (fun conn =>
    on_index conn
      (let* now := time_time in
       modify (set_vulnerabilities_table (fun t =>
         (t ++ List.map (vuln_row file_path now) vulns)%list)))).

Definition _get_cache_entry (file_path : string) : M (option CacheEntry) :=
  _get_db_connection None (fun conn =>
    on_index conn (gets (fun s => security_cache s !! file_path))).

(** The row update of [_update_access_stats]. *)
Definition bump_access (now : Z) (e : CacheEntry) : CacheEntry :=
  {| path := path e; checksum := checksum e; size := size e;
     modified_time := modified_time e; cached_time := cached_time e;
     compressed := compressed e; access_count := access_count e + 1;
     last_accessed := now; content_path := content_path e;
     file_type := file_type e; git_sha := git_sha e;
     security_score := security_score e; vulnerabilities := vulnerabilities e;
     metadata := metadata e; partition_key := partition_key e |}.

Definition _update_access_stats (file_path : string) : M unit :=
  let* _ :=
    _get_db_connection None (fun conn =>
      on_index conn
        (let* now := time_time in
         modify (set_security_cache (alter (bump_access now) file_path)))) in
  stats_incr "cache_hits".

(** [path.stat()] *)
Definition path_stat (p : string) : M File :=
  fun s =>
    match files s !! p with
    | Some f => Ret f s
    | None => Exc OSError s
    end.

Definition _read_file_efficiently (p : string) : M (option (list Z)) :=
  try_except
    (let* st := path_stat p in
     let* cfg := gets config in
     let file_size := st_size st in
     let max_size := max_file_size_mb cfg * 1024 * 1024 in
     if file_size >? max_size then ret None
     else if file_size >? 1024 * 1024
     then let* f := path_stat p in ret (Some (data f))
     else let* f := path_stat p in ret (Some (data f)))
    (fun _ => ret None).

Section Engine.

Context `{Platform}.

Definition _validate_path (file_path : string) : M bool :=
  gets (fun s =>
    let resolved_path := resolve file_path in
    existsb (fun allowed_dir => relative_to resolved_path (resolve allowed_dir))
            (allowed_dirs s)).

(** The security-analysis step of [cache_file_enhanced]: the score and
    the findings of the content. *)
Definition security_result (cfg : Config) (p : string) (content : list Z)
  : Z * list Finding :=
  if runs_security_analysis cfg p
  then analyze_content (decode content) p
  else (100, nil).

(** The compression step: the bytes to store and the [compressed] flag. *)
Definition compress_if_large (cfg : Config) (content : list Z) : list Z * bool :=
  if Z.of_nat (List.length content) >? compression_threshold_kb cfg * 1024
  then (gzip_compress content, true)
  else (content, false).

(** The revision step: [hash_object] when a bridge is set, with every
    failure swallowed. *)
Definition git_sha_of (repo : option string) (p : string) : option string :=
  match repo with
  | Some r => hash_object r p
  | None => None
  end.

(** The [CacheEntry(...)] that [cache_file_enhanced] builds. *)
Definition build_entry (p sum : string) (st : File) (now : Z)
  (is_compressed : bool) (pid : string) (ftype : FileType) (sha : option string)
  (score : Z) (vulns : list Finding) (stored : list Z) : CacheEntry :=
  {| path := p; checksum := sum; size := st_size st;
     modified_time := st_mtime st; cached_time := now;
     compressed := is_compressed; access_count := 1; last_accessed := now;
     content_path := pid ++ "/" ++ sum; file_type := ftype; git_sha := sha;
     security_score := score; vulnerabilities := vulns;
     metadata :=
       {| mime_type := guess_type p; encoding := "utf-8";
          lines := if is_compressed then -1
                   else Str.count_char Str.newline (decode stored) |};
     partition_key := Some pid |}.

(** [self._memory_cache[p] = entry; self._ttl_cache[p] = entry] *)
Definition populate_tiers (p : string) (entry : CacheEntry) : M unit :=
  fun s =>
    match LRUCache.setitem p entry (memory_cache s) with
    | None => Exc ValueError s
    | Some hot =>
        match TTLCache.setitem (monotonic s) p entry (ttl_cache s) with
        | None => Exc ValueError (set_memory_cache (fun _ => hot) s)
        | Some warm =>
            Ret tt (set_ttl_cache (fun _ => warm)
                      (set_memory_cache (fun _ => hot) s))
        end
    end.

(** [cache_file_enhanced] from the file-type step on: read, analyse,
    fingerprint, compress, persist and populate both tiers. *)
Definition ingest (p : string) : M (option CacheEntry) :=
  let ftype := _determine_file_type p in
  let* content := _read_file_efficiently p in
  match content with
  | None => ret None
  | Some content =>
      let* cfg := gets config in
      let '(score, vulns) := security_result cfg p content in
      let sum := sha256_hexdigest content in
      let* pid := _get_partition_for_path p in
      let '(stored, is_compressed) := compress_if_large cfg content in
      let* repo := gets git_integration in
      let sha := git_sha_of repo p in
      let* st := path_stat p in
      let* now := time_time in
      let entry :=
        build_entry p sum st now is_compressed pid ftype sha score vulns stored in
      let* _ := _store_in_partition entry stored pid in
      let* _ := _update_index entry in
      let* _ := with_db_lock (populate_tiers p entry) in
      let* _ :=
        match vulns with
        | nil => ret tt
        | _ :: _ => _store_vulnerabilities p vulns
        end in
      let* _ := stats_incr "cached_files" in
      ret (Some entry)
  end.

(** The up-to-date check of [cache_file_enhanced]: the entry to hand back
    when the index already holds a fresh one. *)
Definition check_fresh (p : string) (force : bool) : M (option CacheEntry) :=
  if force then ret None
  else
    let* cached_entry := _get_cache_entry p in
    match cached_entry with
    | Some e =>
        let* st := path_stat p in
        if modified_time e >=? st_mtime st
        then let* _ := _update_access_stats p in ret (Some e)
        else ret None
    | None => ret None
    end.

Definition cache_file_enhanced (file_path : string) (force : bool)
  : M (option CacheEntry) :=
  let* valid := _validate_path file_path in
  if negb valid then ret None
  else
    try_except
      (let p := resolve file_path in
       let* fresh := check_fresh p force in
       match fresh with
       | Some e => ret (Some e)
       | None => ingest p
       end)
      (fun _ => let* _ := stats_incr "errors" in ret None).

Definition _read_cached_content (entry : CacheEntry) : M (option (list Z)) :=
  try_except
    (_get_db_connection (partition_key entry) (fun conn =>
       let* row :=
         on_partition conn (fun file =>
           gets (fun s => partition_table file s !! path entry)) in
       match row with
       | Some r =>
           if b_compressed r then
             match gzip_decompress (b_content r) with
             | Some content => ret (Some content)
             | None => raise BadGzipFile
             end
           else ret (Some (b_content r))
       | None => ret None
       end))
    (fun _ => ret None).

(** The block of [get_cached_content] that runs under [_db_lock]: the
    outer [Some] is a [return] taken inside the block. *)
Definition lookup_tiers (file_path : string) : M (option (option (list Z))) :=
  with_db_lock
    (let* hot := gets memory_cache in
     match LRUCache.getitem file_path hot with
     | Some (entry, hot') =>
         let* _ := modify (set_memory_cache (fun _ => hot')) in
         let* content := _read_cached_content entry in
         ret (Some content)
     | None =>
         let* warm := gets ttl_cache in
         let* now := gets monotonic in
         match TTLCache.lookup now file_path warm with
         | Some entry =>
             let* _ :=
               (fun s =>
                  match LRUCache.setitem file_path entry (memory_cache s) with
                  | Some hot' => Ret tt (set_memory_cache (fun _ => hot') s)
                  | None => Exc ValueError s
                  end) in
             let* content := _read_cached_content entry in
             ret (Some content)
         | None => ret None
         end
     end).

Definition get_cached_content (file_path : string) : M (option (list Z)) :=
  let* hit := lookup_tiers file_path in
  match hit with
  | Some content => ret content
  | None =>
      let* entry := _get_cache_entry file_path in
      match entry with
      | Some e => _read_cached_content e
      | None => ret None
      end
  end.

Definition _remove_from_cache (file_path : string) : M unit :=
  let* entry := _get_cache_entry file_path in
  match entry with
  | None => ret tt
  | Some e =>
      let* _ :=
        _get_db_connection (partition_key e) (fun conn =>
          on_partition conn (fun file =>
            modify (set_partition_cache (fun pc =>
              <[file := delete file_path (default ∅ (pc !! file))]> pc)))) in
      let* _ :=
        _get_db_connection None (fun conn =>
          let* _ :=
            on_index conn (modify (set_security_cache (delete file_path))) in
          on_index conn
            (modify (set_vulnerabilities_table
               (List.filter (fun r => negb (String.eqb (vr_file_path r) file_path)))))) in
      with_db_lock
        (let* _ := modify (set_memory_cache (LRUCache.pop file_path)) in
         let* now := gets monotonic in
         modify (set_ttl_cache (TTLCache.pop now file_path)))
  end.

(** The loop of [update_from_git] over the change records. *)
Fixpoint apply_changes (changes : list GitChange) : M unit :=
  match changes with
  | nil => ret tt
  | change :: rest =>
      let* _ :=
        if String.eqb (change_type change) "deleted"
        then _remove_from_cache (gc_file_path change)
        else let* _ := cache_file_enhanced (gc_file_path change) true in ret tt in
      apply_changes rest
  end.

Definition update_from_git (base_ref target_ref : string) : M unit :=
  let* repo := gets git_integration in
  match repo with
  | None => ret tt
  | Some r => apply_changes (get_changed_files r (git_diff r base_ref target_ref))
  end.

(** ** Metrics *)

Record Metrics : Type := {
  m_cache_hits : Z;
  m_cache_misses : Z;
  m_hit_rate_percent : Q;
  m_cached_files : Z;
  m_total_operations : Z;
  m_errors : Z;
  m_memory_usage_mb : Q;
  m_memory_cache_size : Z;
  m_ttl_cache_size : Z;
  m_partition_balance : gmap string Z
}.

(** The loop that counts the rows of every partition. *)
Fixpoint partition_counts (ids : list string) (acc : gmap string Z)
  : M (gmap string Z) :=
  match ids with
  | nil => ret acc
  | id :: rest =>
      let* n :=
        _get_db_connection (Some id) (fun conn =>
          on_partition conn (fun file =>
            gets (fun s => Z.of_nat (base.size (partition_table file s))))) in
      partition_counts rest (<[id := n]> acc)
  end.

(** [INSERT INTO performance_metrics]; the timestamp is the primary key. *)
Definition insert_metrics (row : MetricsRow) : M unit :=
  fun s =>
    if existsb (fun r => mr_timestamp r =? mr_timestamp row) (performance_metrics s)
    then Exc IntegrityError s
    else Ret tt (set_performance_metrics (fun t => (t ++ [row])%list) s).

(** [get_performance_metrics].  [_stats_lock] is taken by this method only
    and never while it is held, so it is left out. *)
Definition get_performance_metrics : M Metrics :=
  let* hits := stats_getitem "cache_hits" in
  let* hits' := stats_getitem "cache_hits" in
  let* misses1 := stats_get "cache_misses" 1 in
  if hits' + misses1 =? 0 then raise ZeroDivisionError
  else
    let hit_rate := (inject_Z hits / inject_Z (hits' + misses1) * 100)%Q in
    let* ids := gets (fun s => (map_to_list (partitions s)).*1) in
    let* partition_sizes := partition_counts ids ∅ in
    let* hits'' := stats_getitem "cache_hits" in
    let* misses0 := stats_get "cache_misses" 0 in
    let* cached := stats_get "cached_files" 0 in
    let* total := gets (fun s => map_fold (fun _ v acc => v + acc) 0 (stats s)) in
    let* errors := stats_get "errors" 0 in
    let memory_mb := (inject_Z memory_rss / 1024 / 1024)%Q in
    let* hot_size := gets (fun s => Z.of_nat (LRUCache.len (memory_cache s))) in
    let* warm_size :=
      gets (fun s => Z.of_nat (TTLCache.len (monotonic s) (ttl_cache s))) in
    let metrics :=
      {| m_cache_hits := hits''; m_cache_misses := misses0;
         m_hit_rate_percent := hit_rate; m_cached_files := cached;
         m_total_operations := total; m_errors := errors;
         m_memory_usage_mb := memory_mb; m_memory_cache_size := hot_size;
         m_ttl_cache_size := warm_size; m_partition_balance := partition_sizes |} in
    let* _ :=
      _get_db_connection None (fun conn =>
        on_index conn
          (let* now := time_time in
           insert_metrics
             {| mr_timestamp := now; mr_cache_hits := m_cache_hits metrics;
                mr_cache_misses := m_cache_misses metrics;
                mr_avg_response_time_ms := 0;
                mr_memory_usage_mb := m_memory_usage_mb metrics;
                mr_partition_balance := partition_sizes |})) in
    ret metrics.

(** ** Daemon command: clear *)

Definition exn_str (e : exn) : string :=
  match e with
  | KeyError => "KeyError"
  | OSError => "OSError"
  | OperationalError => "OperationalError"
  | IntegrityError => "IntegrityError"
  | ZeroDivisionError => "division by zero"
  | ValueError => "ValueError"
  | BadGzipFile => "BadGzipFile"
  end.

(** The loop of [_handle_clear] over [self.cache.partitions.values()]. *)
Fixpoint clear_partitions (ps : list CachePartition) : M unit :=
  match ps with
  | nil => ret tt
  | partition :: rest =>
      let* _ :=
        _get_db_connection (Some (partition_id partition)) (fun conn =>
          on_partition conn (fun file =>
            modify (set_partition_cache (fun pc => <[file := ∅]> pc)))) in
      clear_partitions rest
  end.

Definition _handle_clear (confirm : bool) : M (list (string * string)) :=
  if negb confirm
  then ret [("status", "error"); ("error", "Clear requires confirmation")]
  else
    try_except
      (let* ps := gets (fun s => (map_to_list (partitions s)).*2) in
       let* _ := clear_partitions ps in
       let* _ :=
         _get_db_connection None (fun conn =>
           let* _ := on_index conn (modify (set_security_cache (fun _ => ∅))) in
           let* _ := on_index conn (modify (set_vulnerabilities_table (fun _ => nil))) in
           on_index conn (modify (set_git_commits (fun _ => nil)))) in
       let* _ := modify (set_memory_cache LRUCache.clear) in
       let* _ := modify (set_ttl_cache TTLCache.clear) in
       ret [("status", "success"); ("message", "Cache cleared")])
      (fun e => ret [("status", "error"); ("error", exn_str e)]).

End Engine.

(** ** Sample platform and stores

    A platform on which the engine can be run: paths are already canonical,
    the checksum is the MD5 text, and compression frames the bytes with the
    two magic bytes of a gzip member. *)

Definition sample_decompress (b : list Z) : option (list Z) :=
  match b with
  | 31 :: 139 :: rest => Some rest
  | _ => None
  end.

Definition tab : string := String (ascii_of_nat 9) EmptyString.
Definition nl : string := String Str.newline EmptyString.

Definition sample_platform : Platform :=
  {| resolve := fun p => p;
     sha256_hexdigest := MD5.hexdigest;
     gzip_compress := fun b => 31 :: 139 :: b;
     gzip_decompress := sample_decompress;
     guess_type := fun _ => None;
     hash_object := fun _ _ => None;
     git_diff := fun _ _ _ => Some ("D" ++ tab ++ "foo.py" ++ nl ++ "M" ++ tab ++ "bar.py");
     memory_rss := 104857600 |}.

(** A three-line source file with a hard-coded password. *)
Definition sample_source : string :=
  "import os" ++ nl ++ "password = " ++ Str.dq ++ "abc123" ++ Str.dq ++ nl
  ++ "print(os.name)" ++ nl.

Definition sample_files : gmap string File :=
  <["/tmp/repo/foo.py" := {| st_mtime := 100; data := encode sample_source |}]>
  (<["/tmp/repo/bar.py" := {| st_mtime := 120; data := encode ("x = 1" ++ nl) |}]>
  (<["/tmp/big.bin" := {| st_mtime := 90; data := List.repeat 0 64 |}]> ∅)).

(** The engine as constructed: four partitions, empty tiers and tables. *)
Definition sample_state : State :=
  {| allowed_dirs := ["/tmp"]; config := default_config;
     partitions := _init_partitions "/cache" 0 4;
     memory_cache := {| LRUCache.maxsize := 1000; LRUCache.items := nil |};
     ttl_cache := {| TTLCache.maxsize := 5000; TTLCache.ttl := 3600;
                     TTLCache.items := nil |};
     stats := ∅; git_integration := Some "/tmp/repo"; db_lock := false;
     security_cache := ∅; vulnerabilities_table := nil; git_commits := nil;
     performance_metrics := nil; partition_cache := ∅;
     files := sample_files; clock := 1000; monotonic := 50 |}.

(** The outcome's state, and the state an operation leaves behind. *)
Definition state_after {A : Type} (o : outcome A) (s : State) : State :=
  match o with
  | Ret _ s' => s'
  | Exc _ s' => s'
  | Hang => s
  end.

Definition value_of {A : Type} (o : outcome A) : option A :=
  match o with
  | Ret a _ => Some a
  | _ => None
  end.

(** ** Specification-side definitions *)

(** The matches of a pattern in a content: what [findall] returns for its
    compiled expression. *)
Definition pattern_matches (p : SecurityPattern) (content : string) : list string :=
  match regex p with
  | Some r => Regex.findall r content
  | None => nil
  end.

(** A pattern contributes when its extension set contains the extension of
    the path and it matches at least once. *)
Definition matched (content file_path : string) (p : SecurityPattern) : bool :=
  (str_in (Str.lower (PurePath.suffix file_path)) (file_types p)
   && negb (Nat.eqb (List.length (pattern_matches p content)) 0))%bool.

Definition total_penalty (ps : list SecurityPattern) : Z :=
  fold_right (fun p acc => penalty (severity p) + acc) 0 ps.

(** The first rule of the table. *)
Definition password_pattern : SecurityPattern :=
  nth 0 _load_security_patterns (mkSecurityPattern EmptyString EmptyString EmptyString nil).

(** The line of the scenario: [password = "abc123"]. *)
Definition password_line : string :=
  "password = " ++ Str.dq ++ "abc123" ++ Str.dq.

(** What [_read_cached_content] finds for an entry in a given store: the
    row of the entry's path in the partition its key names, decompressed
    when the row says so. *)
Definition stored_content `{Platform} (s : State) (entry : CacheEntry)
  : option (list Z) :=
  match partition_key entry with
  | None | Some EmptyString => None
  | Some id =>
      match partitions s !! id with
      | None => None
      | Some part =>
          match partition_table (db_file part) s !! path entry with
          | None => None
          | Some r =>
              if b_compressed r then gzip_decompress (b_content r)
              else Some (b_content r)
          end
      end
  end.

(** The partition key of an entry names a partition of the engine. *)
Definition key_resolves (s : State) (entry : CacheEntry) : Prop :=
  match partition_key entry with
  | None | Some EmptyString => True
  | Some id => is_Some (partitions s !! id)
  end.

(** The sample engine after [/tmp/repo/foo.py] has been cached, and after
    a second, unforced request for the same unchanged file. *)
Definition sample_cached : State :=
  state_after
    (@cache_file_enhanced sample_platform "/tmp/repo/foo.py" false sample_state)
    sample_state.

Definition sample_hit : State :=
  state_after
    (@cache_file_enhanced sample_platform "/tmp/repo/foo.py" false sample_cached)
    sample_cached.

(** Every partition is filed under its own, non-empty identifier, as
    [_init_partitions] builds the dictionary. *)
Definition partitions_keyed (s : State) : Prop :=
  forall id part,
    partitions s !! id = Some part -> partition_id part = id /\ id <> EmptyString.

(** The partition tables after [DELETE FROM partition_cache] on each of the
    given partitions. *)
Definition emptied (ps : list CachePartition)
  (pc : gmap string (gmap string BlobRow)) : gmap string (gmap string BlobRow) :=
  fold_left (fun acc part => <[db_file part := ∅]> acc) ps pc.

(** The index holds an entry for [p] that is at least as recent as the file
    on disk. *)
Definition is_fresh (s : State) (p : string) : bool :=
  match security_cache s !! p, files s !! p with
  | Some e, Some st => modified_time e >=? st_mtime st
  | _, _ => false
  end.

(** The state a fresh hit leaves: the access statistics of the index row
    and the hit counter updated, nothing else. *)
Definition after_fresh_hit (s : State) (p : string) : State :=
  set_stats (fun st => <["cache_hits" := default 0 (st !! "cache_hits") + 1]> st)
    (set_security_cache (alter (bump_access (clock s)) p) s).

(** The entry and the blob row that ingesting [p] builds in state [s] from
    the file [st] for the partition [pid]. *)
Definition ingested_entry `{Platform} (s : State) (p : string) (st : File)
  (pid : string) : CacheEntry :=
  let '(score, vulns) := security_result (config s) p (data st) in
  let '(stored, is_compressed) := compress_if_large (config s) (data st) in
  build_entry p (sha256_hexdigest (data st)) st (clock s) is_compressed pid
    (_determine_file_type p) (git_sha_of (git_integration s) p) score vulns stored.

Definition ingested_row `{Platform} (s : State) (st : File) (e : CacheEntry)
  : BlobRow :=
  {| b_content := fst (compress_if_large (config s) (data st));
     b_compressed := compressed e; b_size := size e; b_checksum := checksum e |}.

(** What a call about path [p] may change: rows of [p] only, with every
    new index row naming an existing partition. *)
Record touched (p : string) (s s' : State) : Prop := {
  t_lock : db_lock s' = db_lock s;
  t_partitions : partitions s' = partitions s;
  t_files : files s' = files s;
  t_config : config s' = config s;
  t_allowed : allowed_dirs s' = allowed_dirs s;
  t_git : git_integration s' = git_integration s;
  t_clock : clock s' = clock s;
  t_monotonic : monotonic s' = monotonic s;
  t_index_other :
    forall q, q <> p -> security_cache s' !! q = security_cache s !! q;
  t_blobs_other :
    forall file q, q <> p ->
      partition_table file s' !! q = partition_table file s !! q;
  t_index_self :
    forall e, security_cache s' !! p = Some e ->
      security_cache s !! p = Some e
      \/ exists pid part,
           partition_key e = Some pid /\ pid <> EmptyString
           /\ partitions s !! pid = Some part;
  t_blobs_self :
    forall file row, partition_table file s' !! p = Some row ->
      partition_table file s !! p = Some row
      \/ exists e pid part,
           security_cache s' !! p = Some e /\ partition_key e = Some pid
           /\ pid <> EmptyString
           /\ partitions s !! pid = Some part /\ db_file part = file
}.

(** What an ingestion of [p] started in [s] may end in: no result and no
    change, an exception after changes to rows of [p] only, or the entry
    with its index row and its blob row in place. *)
Definition ingest_post `{Platform} (s : State) (p : string)
  (o : outcome (option CacheEntry)) : Prop :=
  match o with
  | Hang => False
  | Exc _ s' => touched p s s'
  | Ret None s' => s' = s
  | Ret (Some e) s' =>
      touched p s s'
      /\ exists st pid part,
           files s !! p = Some st
           /\ (st_size st >? max_file_size_mb (config s) * 1024 * 1024) = false
           /\ _get_partition_for_path p s = Ret pid s
           /\ pid <> EmptyString
           /\ partitions s !! pid = Some part
           /\ e = ingested_entry s p st pid
           /\ security_cache s' !! p = Some e
           /\ partition_table (db_file part) s' !! p = Some (ingested_row s st e)
  end.

(** States that differ in the tiers, the counters and the logs only. *)
Definition same_store (s1 s2 : State) : Prop :=
  db_lock s2 = db_lock s1 /\ partitions s2 = partitions s1
  /\ files s2 = files s1 /\ config s2 = config s1
  /\ allowed_dirs s2 = allowed_dirs s1 /\ git_integration s2 = git_integration s1
  /\ clock s2 = clock s1 /\ monotonic s2 = monotonic s1
  /\ security_cache s2 = security_cache s1
  /\ partition_cache s2 = partition_cache s1.

(** The containment check of [_validate_path]. *)
Definition path_allowed `{Platform} (s : State) (file_path : string) : bool :=
  existsb (fun allowed_dir => relative_to (resolve file_path) (resolve allowed_dir))
          (allowed_dirs s).

(** The world with other files on disk. *)
Definition set_files (f : gmap string File -> gmap string File) (s : State) : State :=
  {| allowed_dirs := allowed_dirs s; config := config s; partitions := partitions s;
     memory_cache := memory_cache s; ttl_cache := ttl_cache s; stats := stats s;
     git_integration := git_integration s; db_lock := db_lock s;
     security_cache := security_cache s;
     vulnerabilities_table := vulnerabilities_table s; git_commits := git_commits s;
     performance_metrics := performance_metrics s;
     partition_cache := partition_cache s; files := f (files s); clock := clock s;
     monotonic := monotonic s |}.

(** The engine restarted with another configuration. *)
Definition set_config (cfg : Config) (s : State) : State :=
  {| allowed_dirs := allowed_dirs s; config := cfg; partitions := partitions s;
     memory_cache := memory_cache s; ttl_cache := ttl_cache s; stats := stats s;
     git_integration := git_integration s; db_lock := db_lock s;
     security_cache := security_cache s;
     vulnerabilities_table := vulnerabilities_table s; git_commits := git_commits s;
     performance_metrics := performance_metrics s;
     partition_cache := partition_cache s; files := files s; clock := clock s;
     monotonic := monotonic s |}.

(** The sample engine after the 64-byte file [/tmp/big.bin] has been
    cached, then run with the maximum file size lowered to zero, so that the
    file on disk, unchanged, is now too large. *)
Definition sample_big_cached : State :=
  state_after
    (@cache_file_enhanced sample_platform "/tmp/big.bin" false sample_state)
    sample_state.

Definition sample_lowered : State :=
  set_config {| max_file_size_mb := 0; compression_threshold_kb := 100;
                security_analysis := true |} sample_big_cached.

(** [sep.join(l)] *)
Fixpoint join (sep : string) (l : list string) : string :=
  match l with
  | nil => EmptyString
  | x :: nil => x
  | x :: l' => x ++ sep ++ join sep l'
  end.

(** One line of [git diff --name-status]: the status, the path and, for a
    rename or a copy, the second path, separated by tabs. *)
Definition name_status_line (r : string * string * list string) : string :=
  let '(status, file, more) := r in join tab (status :: file :: more).

(** The text has no occurrence of the character. *)
Definition free_of (c : ascii) (s : string) : Prop := Str.count_char c s = 0.

Definition plain_field (s : string) : Prop :=
  free_of (ascii_of_nat 9) s /\ free_of Str.newline s.

Definition plain_record (r : string * string * list string) : Prop :=
  plain_field (fst (fst r)) /\ plain_field (snd (fst r)) /\ Forall plain_field (snd r).

Definition change_of (repo_path : string) (r : string * string * list string)
  : GitChange :=
  {| gc_file_path := joinpath repo_path (snd (fst r));
     change_type := _parse_change_type (fst (fst r)) |}.

(** The state with one more failure counted: [self.stats['errors'] += 1]. *)
Definition count_error (s : State) : State :=
  set_stats (fun st => <["errors" := default 0 (st !! "errors") + 1]> st) s.

(** The engine built with another set of partitions. *)
Definition set_partitions (ps : gmap string CachePartition) (s : State) : State :=
  {| allowed_dirs := allowed_dirs s; config := config s; partitions := ps;
     memory_cache := memory_cache s; ttl_cache := ttl_cache s; stats := stats s;
     git_integration := git_integration s; db_lock := db_lock s;
     security_cache := security_cache s;
     vulnerabilities_table := vulnerabilities_table s; git_commits := git_commits s;
     performance_metrics := performance_metrics s;
     partition_cache := partition_cache s; files := files s; clock := clock s;
     monotonic := monotonic s |}.

(** The sample engine configured to compress every non-empty file, the
    sample engine built with no partition at all, and the sample engine
    after [/tmp/repo/foo.py] was cached and then deleted from disk. *)
Definition sample_compressing : State :=
  set_config {| max_file_size_mb := 50; compression_threshold_kb := 0;
                security_analysis := true |} sample_state.

Definition sample_unpartitioned : State := set_partitions ∅ sample_state.

Definition sample_deleted : State :=
  set_files (delete "/tmp/repo/foo.py") sample_cached.

(** What a caller of [cache_file_enhanced] about the path [p] can rely on
    for the rest of the store. *)
Definition rows_of_others_kept (p : string) (s s' : State) : Prop :=
  db_lock s' = db_lock s /\ partitions s' = partitions s /\ files s' = files s
  /\ config s' = config s /\ allowed_dirs s' = allowed_dirs s
  /\ (forall q, q <> p -> security_cache s' !! q = security_cache s !! q)
  /\ (forall file q, q <> p ->
        partition_table file s' !! q = partition_table file s !! q).

(** The sample engine after [/tmp/repo/foo.py] was cached and its index row
    lost, the blob row and the entries of both tiers left behind. *)
Definition sample_orphaned : State :=
  set_security_cache (delete "/tmp/repo/foo.py") sample_cached.

(** The stores after the three deletions of [_remove_from_cache] and the
    two [pop]s on the tiers, for a row kept in the partition file [file]. *)
Definition removed (p file : string) (s : State) : State :=
  set_ttl_cache (TTLCache.pop (monotonic s) p)
    (set_memory_cache (LRUCache.pop p)
       (set_vulnerabilities_table
          (List.filter (fun r => negb (String.eqb (vr_file_path r) p)))
          (set_security_cache (delete p)
             (set_partition_cache (fun pc =>
                <[file := delete p (default ∅ (pc !! file))]> pc) s)))).

(** The partition key of an index row names a partition of the engine, as
    the key of every row written by [cache_file_enhanced] does. *)
Definition entry_key_valid (s : State) (e : CacheEntry) : bool :=
  match partition_key e with
  | Some (String c id) =>
      match partitions s !! String c id with Some _ => true | None => false end
  | _ => false
  end.

Definition index_keys_valid (s : State) : bool :=
  forallb (fun kv => entry_key_valid s (snd kv)) (map_to_list (security_cache s)).

Definition keys_resolve (s : State) : Prop :=
  forall p e, security_cache s !! p = Some e ->
    exists pid part,
      partition_key e = Some pid /\ pid <> EmptyString
      /\ partitions s !! pid = Some part.

(** The change records [update_from_git] works through. *)
Definition changes_between `{Platform} (repo base_ref target_ref : string)
  : list GitChange :=
  get_changed_files repo (git_diff repo base_ref target_ref).

Definition is_deleted (c : GitChange) : Prop := change_type c = "deleted".

(** The state a successful ingestion of [p] leaves: the blob row and the
    index row written, both tiers set, one vulnerability row per finding
    appended, and the file counted. *)
Definition ingested_state (s : State) (p : string) (e : CacheEntry) (row : BlobRow)
  (part : CachePartition) (hot : LRUCache.t) (warm : TTLCache.t) : State :=
  set_stats (fun st => <["cached_files" := default 0 (st !! "cached_files") + 1]> st)
    (set_vulnerabilities_table
       (fun t => (t ++ List.map (vuln_row p (clock s)) (vulnerabilities e))%list)
       (set_ttl_cache (fun _ => warm)
          (set_memory_cache (fun _ => hot)
             (set_security_cache (fun t => <[p := e]> t)
                (set_partition_cache (fun pc =>
                   <[db_file part := <[p := row]> (default ∅ (pc !! db_file part))]> pc)
                   s))))).

(** ** Daemon command: vulnerabilities *)

(** The answer of [_handle_vulnerabilities]: the number of rows found and
    the rows listed. *)
Record VulnerabilitiesResponse : Type := {
  v_count : Z;
  v_vulnerabilities : list VulnRow
}.

(** [_handle_vulnerabilities]: [if severity:] is false for [None] and for
    the empty string. *)
Definition _handle_vulnerabilities (severity : option string)
  : M VulnerabilitiesResponse :=
  let* vulnerabilities :=
    _get_db_connection None (fun conn =>
      match severity with
      | Some (String c sev) =>
          on_index conn (gets (fun s =>
            List.filter (fun r => String.eqb (vr_severity r) (String c sev)
                                  && negb (vr_resolved r))
                        (vulnerabilities_table s)))
      | _ =>
          on_index conn (gets (fun s =>
            List.filter (fun r => negb (vr_resolved r)) (vulnerabilities_table s)))
      end) in
  ret {| v_count := Z.of_nat (List.length vulnerabilities);
         v_vulnerabilities := List.firstn 100 vulnerabilities |}.




(** The engine started again on the same databases: the lock free and both
    tiers empty, as [__init__] creates them. *)
Definition restarted (s : State) : State :=
  set_db_lock false (set_ttl_cache TTLCache.clear (set_memory_cache LRUCache.clear s)).

(** The engine with another repository set, as [set_git_repo] leaves it. *)
Definition set_git_integration (repo : option string) (s : State) : State :=
  {| allowed_dirs := allowed_dirs s; config := config s; partitions := partitions s;
     memory_cache := memory_cache s; ttl_cache := ttl_cache s; stats := stats s;
     git_integration := repo; db_lock := db_lock s;
     security_cache := security_cache s;
     vulnerabilities_table := vulnerabilities_table s; git_commits := git_commits s;
     performance_metrics := performance_metrics s;
     partition_cache := partition_cache s; files := files s; clock := clock s;
     monotonic := monotonic s |}.

(** The sample platform run from the working directory [/tmp]: a relative
    path resolves against it; the repository reports [foo.py] as deleted. *)
Definition cwd_platform : Platform :=
  {| resolve := fun p => joinpath "/tmp" p;
     sha256_hexdigest := MD5.hexdigest;
     gzip_compress := fun b => 31 :: 139 :: b;
     gzip_decompress := sample_decompress;
     guess_type := fun _ => None;
     hash_object := fun _ _ => None;
     git_diff := fun _ _ _ => Some ("D" ++ tab ++ "foo.py");
     memory_rss := 104857600 |}.

(** The sample engine with the repository set by the relative path [repo],
    after [repo/foo.py] has been cached and then deleted from disk. *)
Definition sample_relative : State :=
  set_files (delete "/tmp/repo/foo.py")
    (state_after
       (@cache_file_enhanced cwd_platform "repo/foo.py" false
          (set_git_integration (Some "repo") sample_state))
       (set_git_integration (Some "repo") sample_state)).

(** * Verification *)

(** ** Pattern engine *)

Lemma analyze_step_matched content file_path sc vs p :
  analyze_step content file_path (Str.lower (PurePath.suffix file_path)) (sc, vs) p =
    if matched content file_path p
    then (sc - penalty (severity p),
          (vs ++ [{| f_type := description p;
                     f_severity := severity p;
                     f_pattern := Str.take 50 (pattern p) ++ "...";
                     f_matches := Z.of_nat (List.length (pattern_matches p content));
                     f_file := file_path |}])%list)
    else (sc, vs).
Proof.
  unfold analyze_step, matched, pattern_matches.
  destruct (str_in _ (file_types p)); simpl; [|reflexivity].
  destruct (regex p) as [r|]; [|reflexivity].
  destruct (Regex.findall r content); reflexivity.
Qed.

Lemma analyze_fold content file_path ps : forall sc vs,
  fold_left (analyze_step content file_path (Str.lower (PurePath.suffix file_path)))
            ps (sc, vs) =
    (sc - total_penalty (List.filter (matched content file_path) ps),
     (vs ++ List.map (fun p =>
                        {| f_type := description p;
                           f_severity := severity p;
                           f_pattern := Str.take 50 (pattern p) ++ "...";
                           f_matches := Z.of_nat (List.length (pattern_matches p content));
                           f_file := file_path |})
                     (List.filter (matched content file_path) ps))%list).
Proof.
  induction ps as [|p ps IH]; intros sc vs; cbn [fold_left List.filter].
  - simpl. rewrite Z.sub_0_r, app_nil_r. reflexivity.
  - rewrite analyze_step_matched.
    destruct (matched content file_path p); rewrite IH; cbn [List.map total_penalty fold_right].
    + f_equal; [unfold total_penalty; lia | rewrite <- app_assoc; reflexivity].
    + reflexivity.
Qed.

Lemma analyze_with_filter ps content file_path :
  analyze_with ps content file_path =
    (Z.max 0 (100 - total_penalty (List.filter (matched content file_path) ps)),
     List.map (fun p =>
                 {| f_type := description p;
                    f_severity := severity p;
                    f_pattern := Str.take 50 (pattern p) ++ "...";
                    f_matches := Z.of_nat (List.length (pattern_matches p content));
                    f_file := file_path |})
              (List.filter (matched content file_path) ps)).
Proof.
  unfold analyze_with. rewrite analyze_fold. reflexivity.
Qed.

Lemma table_head_tail :
  _load_security_patterns = password_pattern :: List.tl _load_security_patterns.
Proof. reflexivity. Qed.

Lemma filter_all_false {A} (f : A -> bool) (l : list A) :
  (forall x, In x l -> f x = false) -> List.filter f l = nil.
Proof.
  induction l as [|a l IH]; intros Hf; simpl; [reflexivity|].
  rewrite (Hf a (or_introl eq_refl)). apply IH. intros x Hx. apply Hf. right. exact Hx.
Qed.

Lemma table_severities :
  Forall (fun p => In (severity p) ["CRITICAL"; "HIGH"; "MEDIUM"; "LOW"])
         _load_security_patterns.
Proof.
  unfold _load_security_patterns.
  repeat (constructor; [cbn [severity mkSecurityPattern In]; tauto|]).
  constructor.
Qed.

(** *** Running the matcher on ASCII text *)

Lemma next_ascii c s :
  Utf8.byte c < 128 -> Utf8.next (String c s) = Some (Utf8.byte c, s).
Proof.
  intros Hc. cbn [Utf8.next]. cbv zeta.
  destruct (Utf8.byte c <? 128) eqn:E; [reflexivity|].
  apply Z.ltb_ge in E. lia.
Qed.

Lemma run_seq a b s k :
  Regex.run (Regex.Seq a b) s k = Regex.run a s (fun s1 => Regex.run b s1 k).
Proof. reflexivity. Qed.

Lemma run_eps s k : Regex.run Regex.Eps s k = k s.
Proof. reflexivity. Qed.

Lemma run_alt a b s k :
  Regex.run (Regex.Alt a b) s k =
    match Regex.run a s k with Some x => Some x | None => Regex.run b s k end.
Proof. reflexivity. Qed.

Lemma run_cls_ascii p c s k :
  Utf8.byte c < 128 -> p (Utf8.byte c) = true ->
  Regex.run (Regex.Cls p) (String c s) k = k s.
Proof.
  intros Hc Hp. cbn [Regex.run]. rewrite next_ascii by exact Hc. rewrite Hp. reflexivity.
Qed.

Lemma run_star_cls_more p c s k :
  Utf8.byte c < 128 -> p (Utf8.byte c) = true ->
  Regex.run (Regex.Star true (Regex.Cls p)) (String c s) k =
    match Regex.run (Regex.Star true (Regex.Cls p)) s k with
    | Some x => Some x
    | None => k (String c s)
    end.
Proof.
  intros Hc Hp. cbn [Regex.run String.length].
  rewrite next_ascii by exact Hc. rewrite Hp.
  assert (E : (String.length s <? S (String.length s))%nat = true)
    by (apply Nat.ltb_lt; lia).
  rewrite E. reflexivity.
Qed.

Lemma run_star_cls_stop p c s k :
  Utf8.byte c < 128 -> p (Utf8.byte c) = false ->
  Regex.run (Regex.Star true (Regex.Cls p)) (String c s) k = k (String c s).
Proof.
  intros Hc Hp. cbn [Regex.run String.length].
  rewrite next_ascii by exact Hc. rewrite Hp. reflexivity.
Qed.

Ltac run_step :=
  first
    [ rewrite run_seq
    | rewrite run_eps
    | rewrite run_alt
    | rewrite run_cls_ascii by (vm_compute; reflexivity)
    | rewrite run_star_cls_more by (vm_compute; reflexivity)
    | rewrite run_star_cls_stop by (vm_compute; reflexivity)
    | progress cbv beta iota ].

(** The hard-coded-password expression matches the line of the scenario
    wherever it stands, whatever follows it. *)
Lemma password_line_matches post :
  exists r,
    regex password_pattern = Some r
    /\ Regex.run r (password_line ++ post) Some = Some post.
Proof.
  remember (regex password_pattern) as o eqn:Ho.
  cbv -[Regex.chr_ci Regex.is_space Regex.any_but_newline] in Ho.
  subst o. eexists. split; [reflexivity|].
  cbv [password_line Str.dq String.append].
  repeat run_step. reflexivity.
Qed.

(** *** The search finds a match that exists *)

Lemma between_ascii lo hi b : b < 128 -> 128 <= lo -> Utf8.between lo hi b = false.
Proof.
  intros Hb Hlo. unfold Utf8.between.
  destruct (lo <=? b) eqn:E; [apply Z.leb_le in E; lia|reflexivity].
Qed.

Lemma second_ok_ascii b0 b : b < 128 -> Utf8.second_ok b0 b = false.
Proof.
  intros Hb. unfold Utf8.second_ok.
  repeat match goal with |- context [if ?c then _ else _] => destruct c end;
    apply between_ascii; lia.
Qed.

(** A code point that starts before an ASCII character ends before it. *)
Ltac width_cases Hc Hs :=
  repeat (rewrite ?Hc, ?Hs, ?andb_false_l, ?andb_false_r;
          match goal with
          | |- context [match ?x with String _ _ => _ | EmptyString => _ end] =>
              destruct x
          | |- context [if ?c then _ else _] => destruct c
          end);
  cbn [String.length]; lia.

Lemma width_before_ascii c pre a t :
  Utf8.byte a < 128 ->
  (Utf8.width (String c (pre ++ String a t)) - 1 <= String.length pre)%nat.
Proof.
  intros Ha.
  assert (Hc : Utf8.between 128 191 (Utf8.byte a) = false)
    by (apply between_ascii; lia).
  assert (Hs : forall b0, Utf8.second_ok b0 (Utf8.byte a) = false)
    by (intros b0; apply second_ok_ascii, Ha).
  destruct pre as [|c1 [|c2 [|c3 pre]]].
  - change (EmptyString ++ String a t) with (String a t).
    unfold Utf8.width. cbn [Utf8.next]. cbv zeta. width_cases Hc Hs.
  - change (String c1 EmptyString ++ String a t) with (String c1 (String a t)).
    unfold Utf8.width. cbn [Utf8.next]. cbv zeta. width_cases Hc Hs.
  - change (String c1 (String c2 EmptyString) ++ String a t)
      with (String c1 (String c2 (String a t))).
    unfold Utf8.width. cbn [Utf8.next]. cbv zeta. width_cases Hc Hs.
  - change (String c1 (String c2 (String c3 pre)) ++ String a t)
      with (String c1 (String c2 (String c3 (pre ++ String a t)))).
    unfold Utf8.width. cbn [Utf8.next]. cbv zeta. width_cases Hc Hs.
Qed.

(** Where the expression matches at an ASCII character of the content, the
    search returns at least one match: that one, or one it met before. *)
Lemma findall_from_finds r a t :
  Utf8.byte a < 128 ->
  Regex.run r (String a t) Some <> None ->
  forall pre skip, (skip <= String.length pre)%nat ->
    Regex.findall_from r (pre ++ String a t) skip <> nil.
Proof.
  intros Ha Hrun. induction pre as [|c pre IH]; intros skip Hskip.
  - cbn [String.length] in Hskip. assert (skip = 0%nat) as -> by lia.
    change (EmptyString ++ String a t) with (String a t).
    cbn [Regex.findall_from].
    destruct (Regex.run r (String a t) Some); [discriminate|congruence].
  - change (String c pre ++ String a t) with (String c (pre ++ String a t)).
    cbn [String.length] in Hskip.
    destruct skip as [|n]; cbn [Regex.findall_from].
    + destruct (Regex.run r (String c (pre ++ String a t)) Some); [discriminate|].
      apply IH. apply width_before_ascii, Ha.
    + apply IH. lia.
Qed.

Lemma password_line_found pre post :
  pattern_matches password_pattern (pre ++ password_line ++ post) <> nil.
Proof.
  destruct (password_line_matches post) as (r & Hr & Hrun).
  unfold pattern_matches, Regex.findall. rewrite Hr.
  revert Hrun. cbv [password_line Str.dq String.append]. intros Hrun.
  match goal with
  | |- Regex.findall_from r (?f pre (String ?a ?t)) 0 <> nil =>
      change (Regex.findall_from r (pre ++ String a t) 0 <> nil)
  end.
  apply findall_from_finds.
  - vm_compute. reflexivity.
  - rewrite Hrun. discriminate.
  - lia.
Qed.

(** C1. For every content and path, [analyze_content] returns
    [max(0, 100 - sum of penalties)] and, in the order of the table, one
    finding for each pattern whose extension set contains the lowercased
    extension of the path and that matches at least once.  The finding
    carries the description and the severity of the pattern, the first fifty
    characters of its expression followed by three dots, the number of its
    matches, which is at least one, and the path.  The penalties are 30, 20,
    10 and 5 for CRITICAL, HIGH, MEDIUM and LOW, the only severities in the
    table.  A [.py] file, in whatever case the extension is written, whose
    content holds the line [password = "abc123"] anywhere and that no other
    pattern matches gets exactly one HIGH finding of type "Hardcoded
    password" and the score 80. *)
Theorem analyze_content_score_and_findings (content file_path : string) :
  let ms := List.filter (matched content file_path) _load_security_patterns in
  analyze_content content file_path =
    (Z.max 0 (100 - total_penalty ms),
     List.map (fun p =>
                 {| f_type := description p;
                    f_severity := severity p;
                    f_pattern := Str.take 50 (pattern p) ++ "...";
                    f_matches := Z.of_nat (List.length (pattern_matches p content));
                    f_file := file_path |}) ms)
  /\ (forall p, In p ms -> 1 <= Z.of_nat (List.length (pattern_matches p content)))
  /\ (penalty "CRITICAL" = 30 /\ penalty "HIGH" = 20
      /\ penalty "MEDIUM" = 10 /\ penalty "LOW" = 5
      /\ Forall (fun p => In (severity p) ["CRITICAL"; "HIGH"; "MEDIUM"; "LOW"])
                _load_security_patterns)
  /\ (forall pre post,
        content = pre ++ password_line ++ post ->
        Str.lower (PurePath.suffix file_path) = ".py" ->
        (forall p, In p (List.tl _load_security_patterns) ->
                   pattern_matches p content = nil) ->
        analyze_content content file_path =
          (80, [{| f_type := "Hardcoded password";
                   f_severity := "HIGH";
                   f_pattern := Str.take 50 (pattern password_pattern) ++ "...";
                   f_matches :=
                     Z.of_nat (List.length (pattern_matches password_pattern content));
                   f_file := file_path |}])
        /\ 1 <= Z.of_nat (List.length (pattern_matches password_pattern content))).
Proof.
  cbv zeta. split; [|split; [|split]].
  - apply analyze_with_filter.
  - intros p Hp. apply filter_In in Hp as [_ Hm]. unfold matched in Hm.
    apply andb_true_iff in Hm as [_ Hm].
    destruct (pattern_matches p content); [discriminate|]. cbn [List.length]. lia.
  - repeat split; try reflexivity. apply table_severities.
  - intros pre post Hcontent Hext Hrest.
    pose proof (password_line_found pre post) as Hpw. rewrite <- Hcontent in Hpw.
    assert (Hm : matched content file_path password_pattern = true).
    { unfold matched. rewrite Hext.
      destruct (pattern_matches password_pattern content); [congruence|reflexivity]. }
    split.
    + unfold analyze_content. rewrite analyze_with_filter.
      rewrite table_head_tail. cbn [List.filter].
      rewrite Hm, filter_all_false; [reflexivity|].
      intros p Hp. unfold matched. rewrite (Hrest p Hp). cbn [List.length Nat.eqb negb].
      apply andb_false_r.
    + destruct (pattern_matches password_pattern content); [congruence|].
      cbn [List.length]. lia.
Qed.

(** The three-line sample file under an upper-case extension, and the line
    alone under a path written with a trailing slash. *)
Lemma analyze_content_score_and_findings_witness :
  (analyze_content sample_source "/tmp/repo/FOO.PY" =
     (80, [{| f_type := "Hardcoded password";
              f_severity := "HIGH";
              f_pattern := Str.take 50 (pattern password_pattern) ++ "...";
              f_matches :=
                Z.of_nat (List.length (pattern_matches password_pattern sample_source));
              f_file := "/tmp/repo/FOO.PY" |}])
   /\ 1 <= Z.of_nat (List.length (pattern_matches password_pattern sample_source)))
  /\ (analyze_content password_line "/tmp/repo/login.Py/" =
        (80, [{| f_type := "Hardcoded password";
                 f_severity := "HIGH";
                 f_pattern := Str.take 50 (pattern password_pattern) ++ "...";
                 f_matches :=
                   Z.of_nat (List.length (pattern_matches password_pattern password_line));
                 f_file := "/tmp/repo/login.Py/" |}])
      /\ 1 <= Z.of_nat (List.length (pattern_matches password_pattern password_line))).
Proof.
  split.
  - destruct (analyze_content_score_and_findings sample_source "/tmp/repo/FOO.PY")
      as (_ & _ & _ & Hscenario).
    apply (Hscenario ("import os" ++ nl) (nl ++ "print(os.name)" ++ nl)).
    + vm_compute. reflexivity.
    + vm_compute. reflexivity.
    + intros p Hp.
      repeat (destruct Hp as [<-|Hp]; [vm_compute; reflexivity|]).
      destruct Hp.
  - destruct (analyze_content_score_and_findings password_line "/tmp/repo/login.Py/")
      as (_ & _ & _ & Hscenario).
    apply (Hscenario EmptyString EmptyString).
    + vm_compute. reflexivity.
    + vm_compute. reflexivity.
    + intros p Hp.
      repeat (destruct Hp as [<-|Hp]; [vm_compute; reflexivity|]).
      destruct Hp.
Defined.

(** ** File classification *)

Lemma runs_security_analysis_eq cfg p :
  runs_security_analysis cfg p =
    (security_analysis cfg
     && str_in (Str.lower (PurePath.suffix p)) source_extensions)%bool.
Proof.
  unfold runs_security_analysis, _determine_file_type.
  destruct (str_in _ source_extensions); [reflexivity|].
  f_equal.
  repeat match goal with
         | |- context [if ?b then _ else _] => destruct b
         end; reflexivity.
Qed.

(** C10, as the claim states its last part: analysis would run exactly when
    the extension is a source extension.  With the analysis switched off in
    the configuration it does not run on a [.py] file. *)
Lemma analysis_not_decided_by_extension_alone :
  ~ (forall cfg p,
       runs_security_analysis cfg p =
         str_in (Str.lower (PurePath.suffix p)) source_extensions).
Proof.
  intros Hall.
  specialize (Hall {| max_file_size_mb := 50; compression_threshold_kb := 100;
                      security_analysis := false |} "/tmp/repo/foo.py").
  vm_compute in Hall. discriminate.
Qed.

(** C10, amended. The classifier returns source, config, documentation or
    data and never binary or security-sensitive; security analysis runs
    exactly when it is enabled in the configuration and the lowercased
    extension is in the source-extension set. *)
Theorem determine_file_type_four_classes (p : string) :
  let ft := _determine_file_type p in
  (ft = SOURCE_CODE \/ ft = CONFIG \/ ft = DOCUMENTATION \/ ft = DATA)
  /\ ft <> BINARY /\ ft <> SECURITY_SENSITIVE
  /\ (ft = SOURCE_CODE <->
      str_in (Str.lower (PurePath.suffix p)) source_extensions = true)
  /\ forall cfg,
       runs_security_analysis cfg p =
         (security_analysis cfg
          && str_in (Str.lower (PurePath.suffix p)) source_extensions)%bool.
Proof.
  cbv zeta.
  assert (Hsrc : _determine_file_type p = SOURCE_CODE <->
                 str_in (Str.lower (PurePath.suffix p)) source_extensions = true).
  { unfold _determine_file_type.
    destruct (str_in _ source_extensions); [tauto|].
    repeat match goal with
           | |- context [if ?b then _ else _] => destruct b
           end; split; discriminate. }
  split; [|split; [|split; [|split]]].
  - unfold _determine_file_type.
    repeat match goal with
           | |- context [if ?b then _ else _] => destruct b
           end; tauto.
  - unfold _determine_file_type.
    repeat match goal with
           | |- context [if ?b then _ else _] => destruct b
           end; discriminate.
  - unfold _determine_file_type.
    repeat match goal with
           | |- context [if ?b then _ else _] => destruct b
           end; discriminate.
  - exact Hsrc.
  - intros cfg. apply runs_security_analysis_eq.
Qed.

(** ** Partition router *)

Lemma hex_value_hex_digit n :
  0 <= n < 16 -> hex_value (MD5.hex_digit n) = Some n.
Proof.
  intros Hn. unfold MD5.hex_digit.
  assert (Hk : (Z.to_nat n < 16)%nat) by lia.
  rewrite <- (Z2Nat.id n) at 2 by lia.
  revert Hk. generalize (Z.to_nat n) as k. intros k Hk.
  do 16 (destruct k as [|k]; [reflexivity|]). lia.
Qed.

Lemma int16_hex_byte b l :
  0 <= b < 256 -> int16 (Str.take 2 (MD5.hex (b :: l))) = Some b.
Proof.
  intros Hb. cbn [MD5.hex Str.take int16 int16_acc].
  rewrite !hex_value_hex_digit.
  - f_equal. pose proof (Z.div_mod b 16). lia.
  - apply Z.mod_pos_bound. lia.
  - split; [apply Z.div_pos; lia | apply Z.div_lt_upper_bound; lia].
Qed.

Lemma bytes_of_word_range w :
  Forall (fun b => 0 <= b < 256) (MD5.bytes_of_word w).
Proof.
  unfold MD5.bytes_of_word.
  repeat (constructor; [apply Z.mod_pos_bound; lia|]). constructor.
Qed.

Lemma digest_shape msg :
  List.length (MD5.digest msg) = 16%nat
  /\ Forall (fun b => 0 <= b < 256) (MD5.digest msg).
Proof.
  unfold MD5.digest.
  destruct (MD5.blocks _ _ _) as [[[a b] c] d]. split; [reflexivity|].
  repeat (apply Forall_app; split); apply bytes_of_word_range.
Qed.

Lemma to_uint_not_nil n : Nat.to_uint n <> Decimal.Nil.
Proof.
  rewrite <- (DecimalNat.Unsigned.of_to n) at 1. rewrite DecimalNat.Unsigned.to_of.
  apply DecimalFacts.unorm_nonnil.
Qed.

Lemma of_nat_inj a b : Str.of_nat a = Str.of_nat b -> a = b.
Proof.
  unfold Str.of_nat. intros E.
  apply DecimalNat.Unsigned.to_uint_inj.
  pose proof (NilZero.usu _ (to_uint_not_nil a)) as Ha.
  pose proof (NilZero.usu _ (to_uint_not_nil b)) as Hb.
  rewrite E in Ha. congruence.
Qed.

Lemma append_cancel (p x y : string) : p ++ x = p ++ y -> x = y.
Proof.
  induction p as [|c p IH]; intros E; [exact E|].
  change (String c (p ++ x) = String c (p ++ y)) in E.
  injection E as E. apply IH, E.
Qed.

Lemma partition_name_inj a b :
  "partition_" ++ Str.of_nat a = "partition_" ++ Str.of_nat b -> a = b.
Proof.
  intros E. apply of_nat_inj. exact (append_cancel _ _ _ E).
Qed.

Lemma init_partitions_lookup dir now n : forall i j,
  (i <= j < i + n)%nat ->
  exists part,
    _init_partitions_from dir now i n !! ("partition_" ++ Str.of_nat j) = Some part
    /\ partition_id part = "partition_" ++ Str.of_nat j.
Proof.
  induction n as [|n IH]; intros i j Hj; [lia|].
  cbn [_init_partitions_from].
  destruct (Nat.eq_dec i j) as [->|Hne].
  - rewrite lookup_insert_eq. eexists. split; reflexivity.
  - rewrite lookup_insert_ne.
    + apply IH. lia.
    + intros E. apply partition_name_inj in E. lia.
Qed.

Lemma init_partitions_lookup_None dir now n : forall i j,
  (j < i)%nat ->
  _init_partitions_from dir now i n !! ("partition_" ++ Str.of_nat j) = None.
Proof.
  induction n as [|n IH]; intros i j Hj; cbn [_init_partitions_from].
  - apply lookup_empty.
  - rewrite lookup_insert_ne.
    + apply IH. lia.
    + intros E. apply partition_name_inj in E. lia.
Qed.

Lemma init_partitions_size dir now n : forall i,
  base.size (_init_partitions_from dir now i n) = n.
Proof.
  induction n as [|n IH]; intros i; cbn [_init_partitions_from].
  - apply map_size_empty.
  - rewrite map_size_insert_None; [rewrite IH; reflexivity|].
    apply init_partitions_lookup_None. lia.
Qed.

(** C4. With [N > 0] partitions, [_get_partition_for_path] returns the
    identifier [partition_i] where [i] is the first byte of the 128-bit MD5
    digest of the path (the value of the first two hexadecimal digits, in
    the byte range) reduced modulo [N]; the result depends on the path and
    [N] only, so it is the same in every engine state with [N] partitions,
    leaves the state as it was, and names one of the partitions
    [partition_0 .. partition_(N-1)] that [_init_partitions] creates. *)
Theorem partition_for_path_deterministic (s : State) (file_path : string) (N : nat) :
  base.size (partitions s) = N ->
  (0 < N)%nat ->
  exists b0 rest,
    MD5.digest (encode file_path) = b0 :: rest
    /\ List.length (MD5.digest (encode file_path)) = 16%nat
    /\ 0 <= b0 < 256
    /\ (Z.to_nat (b0 mod Z.of_nat N) < N)%nat
    /\ _get_partition_for_path file_path s =
         Ret ("partition_" ++ Str.of_nat (Z.to_nat (b0 mod Z.of_nat N))) s
    /\ (forall s', base.size (partitions s') = N ->
          _get_partition_for_path file_path s' =
            Ret ("partition_" ++ Str.of_nat (Z.to_nat (b0 mod Z.of_nat N))) s')
    /\ (forall dir now, partitions s = _init_partitions dir now N ->
          exists part,
            partitions s !! ("partition_" ++ Str.of_nat (Z.to_nat (b0 mod Z.of_nat N)))
              = Some part
            /\ partition_id part =
                 "partition_" ++ Str.of_nat (Z.to_nat (b0 mod Z.of_nat N))).
Proof.
  intros Hsize HN.
  destruct (digest_shape (encode file_path)) as [Hlen Hrange].
  destruct (MD5.digest (encode file_path)) as [|b0 rest] eqn:Hd; [discriminate|].
  assert (Hb0 : 0 <= b0 < 256) by (inversion Hrange; assumption).
  assert (Hmod : 0 <= b0 mod Z.of_nat N < Z.of_nat N)
    by (apply Z.mod_pos_bound; lia).
  assert (Hrun : forall s', base.size (partitions s') = N ->
            _get_partition_for_path file_path s' =
              Ret ("partition_" ++ Str.of_nat (Z.to_nat (b0 mod Z.of_nat N))) s').
  { intros s' Hs'. unfold _get_partition_for_path, MD5.hexdigest.
    rewrite Hd, int16_hex_byte by assumption. rewrite Hs'.
    destruct (Z.of_nat N =? 0) eqn:E; [apply Z.eqb_eq in E; lia|reflexivity]. }
  exists b0, rest. repeat split; try assumption; try lia.
  - apply Hrun, Hsize.
  - intros dir now ->. apply init_partitions_lookup. lia.
Qed.

Lemma partition_for_path_deterministic_witness :
  exists b0 rest,
    MD5.digest (encode "/tmp/repo/foo.py") = b0 :: rest
    /\ List.length (MD5.digest (encode "/tmp/repo/foo.py")) = 16%nat
    /\ 0 <= b0 < 256
    /\ (Z.to_nat (b0 mod Z.of_nat 4) < 4)%nat
    /\ _get_partition_for_path "/tmp/repo/foo.py" sample_state =
         Ret ("partition_" ++ Str.of_nat (Z.to_nat (b0 mod Z.of_nat 4))) sample_state
    /\ (forall s', base.size (partitions s') = 4%nat ->
          _get_partition_for_path "/tmp/repo/foo.py" s' =
            Ret ("partition_" ++ Str.of_nat (Z.to_nat (b0 mod Z.of_nat 4))) s')
    /\ (forall dir now, partitions sample_state = _init_partitions dir now 4 ->
          exists part,
            partitions sample_state
              !! ("partition_" ++ Str.of_nat (Z.to_nat (b0 mod Z.of_nat 4)))
              = Some part
            /\ partition_id part =
                 "partition_" ++ Str.of_nat (Z.to_nat (b0 mod Z.of_nat 4))).
Proof.
  apply (partition_for_path_deterministic sample_state "/tmp/repo/foo.py" 4).
  - vm_compute. reflexivity.
  - lia.
Defined.

(** ** Running the primitives

    With the lock free every database primitive returns, and leaves the
    lock free again. *)

(** Equal states, once the lock is known to be free. *)
Ltac same_state s Hl :=
  destruct s; cbn in Hl |- *; subst; reflexivity.

Ltac finish_state s Hl :=
  cbn; first [reflexivity | f_equal; same_state s Hl | same_state s Hl].

Section Primitives.

Context `{Platform}.

Lemma unlock_lock s :
  db_lock s = false -> set_db_lock false (set_db_lock true s) = s.
Proof. destruct s; simpl; intros ->; reflexivity. Qed.

Lemma with_db_lock_free {A} (m : M A) s :
  db_lock s = false ->
  with_db_lock m s =
    match m (set_db_lock true s) with
    | Ret a s' => Ret a (set_db_lock false s')
    | Exc e s' => Exc e (set_db_lock false s')
    | Hang => Hang
    end.
Proof. intros Hl. unfold with_db_lock. rewrite Hl. reflexivity. Qed.

Lemma with_db_lock_held {A} (m : M A) s :
  db_lock s = true -> with_db_lock m s = Hang.
Proof. intros Hl. unfold with_db_lock. rewrite Hl. reflexivity. Qed.

Lemma get_cache_entry_free s p :
  db_lock s = false -> _get_cache_entry p s = Ret (security_cache s !! p) s.
Proof.
  intros Hl. unfold _get_cache_entry, _get_db_connection, bind.
  rewrite with_db_lock_free by exact Hl. cbn.
  rewrite unlock_lock by exact Hl. reflexivity.
Qed.

Lemma update_index_free s e :
  db_lock s = false ->
  _update_index e s = Ret tt (set_security_cache (fun t => <[path e := e]> t) s).
Proof.
  intros Hl. unfold _update_index, _get_db_connection, bind.
  rewrite with_db_lock_free by exact Hl. cbn. f_equal. same_state s Hl.
Qed.

Lemma store_vulnerabilities_free s p vs :
  db_lock s = false ->
  _store_vulnerabilities p vs s =
    Ret tt (set_vulnerabilities_table
              (fun t => (t ++ List.map (vuln_row p (clock s)) vs)%list) s).
Proof.
  intros Hl. unfold _store_vulnerabilities, _get_db_connection, bind.
  rewrite with_db_lock_free by exact Hl. cbn. f_equal. same_state s Hl.
Qed.

Lemma update_access_stats_free s p :
  db_lock s = false ->
  _update_access_stats p s =
    Ret tt (set_stats (fun st => <["cache_hits" := default 0 (st !! "cache_hits") + 1]> st)
              (set_security_cache (alter (bump_access (clock s)) p) s)).
Proof.
  intros Hl. unfold _update_access_stats, _get_db_connection, bind.
  rewrite with_db_lock_free by exact Hl. cbn. f_equal. same_state s Hl.
Qed.

Lemma store_in_partition_free s e content pid part :
  db_lock s = false ->
  pid <> EmptyString ->
  partitions s !! pid = Some part ->
  _store_in_partition e content pid s =
    Ret tt (set_partition_cache (fun pc =>
              <[db_file part :=
                  <[path e := {| b_content := content; b_compressed := compressed e;
                                 b_size := size e; b_checksum := checksum e |}]>
                    (default ∅ (pc !! db_file part))]> pc) s).
Proof.
  intros Hl Hne Hp. unfold _store_in_partition, _get_db_connection, bind.
  destruct pid as [|c pid]; [congruence|]. rewrite Hp.
  rewrite with_db_lock_free by exact Hl. cbn. f_equal. same_state s Hl.
Qed.

Lemma store_in_partition_fails s e content pid :
  db_lock s = false ->
  pid = EmptyString \/ partitions s !! pid = None ->
  exists x, _store_in_partition e content pid s = Exc x s.
Proof.
  intros Hl Hp. unfold _store_in_partition, _get_db_connection, bind.
  destruct pid as [|c pid].
  - rewrite with_db_lock_free by exact Hl. cbn.
    rewrite unlock_lock by exact Hl. eauto.
  - destruct Hp as [Hp|Hp]; [discriminate|]. rewrite Hp. eauto.
Qed.

Lemma read_file_efficiently_eq s p :
  _read_file_efficiently p s =
    Ret (match files s !! p with
         | Some st =>
             if st_size st >? max_file_size_mb (config s) * 1024 * 1024
             then None else Some (data st)
         | None => None
         end) s.
Proof.
  unfold _read_file_efficiently, try_except, bind, path_stat, gets.
  destruct (files s !! p) as [st|] eqn:Hf; [|reflexivity].
  destruct (st_size st >? _); [reflexivity|].
  destruct (st_size st >? 1024 * 1024); rewrite Hf; reflexivity.
Qed.

Lemma read_cached_content_free s e :
  db_lock s = false ->
  _read_cached_content e s = Ret (stored_content s e) s.
Proof.
  intros Hl.
  unfold _read_cached_content, stored_content, try_except, _get_db_connection, bind.
  destruct (partition_key e) as [[|c id]|].
  - rewrite with_db_lock_free by exact Hl. finish_state s Hl.
  - destruct (partitions s !! String c id) as [part|]; [|reflexivity].
    rewrite with_db_lock_free by exact Hl. cbn.
    change (partition_table (db_file part) (set_db_lock true s))
      with (partition_table (db_file part) s).
    destruct (partition_table (db_file part) s !! path e) as [r|];
      [|finish_state s Hl].
    destruct (b_compressed r); [|finish_state s Hl].
    destruct (gzip_decompress (b_content r)); finish_state s Hl.
  - rewrite with_db_lock_free by exact Hl. finish_state s Hl.
Qed.

(** While the lock is held, reading the content of an entry whose partition
    key resolves never completes. *)
Lemma read_cached_content_held s e :
  db_lock s = true ->
  key_resolves s e ->
  _read_cached_content e s = Hang.
Proof.
  intros Hl Hk.
  unfold _read_cached_content, try_except, _get_db_connection, bind.
  unfold key_resolves in Hk.
  destruct (partition_key e) as [[|c id]|].
  - rewrite with_db_lock_held by exact Hl. reflexivity.
  - destruct Hk as [part ->]. rewrite with_db_lock_held by exact Hl. reflexivity.
  - rewrite with_db_lock_held by exact Hl. reflexivity.
Qed.

End Primitives.

(** ** Content retrieval *)

Section ReadPath.

Context `{Platform}.

Lemma lru_getitem_lookup k c e :
  LRUCache.lookup k c = Some e ->
  exists c', LRUCache.getitem k c = Some (e, c').
Proof. intros Hk. unfold LRUCache.getitem. rewrite Hk. eauto. Qed.

(** A hit in the hot tier: the entry is found under [_db_lock], and the
    read of its content then waits for the same lock. *)
Lemma get_cached_content_hot_hit s p e :
  db_lock s = false ->
  LRUCache.lookup p (memory_cache s) = Some e ->
  key_resolves s e ->
  get_cached_content p s = Hang.
Proof.
  intros Hl Hhot Hk.
  unfold get_cached_content, lookup_tiers, bind at 1.
  rewrite with_db_lock_free by exact Hl.
  unfold bind at 1. cbn [gets memory_cache set_db_lock].
  destruct (lru_getitem_lookup _ _ _ Hhot) as [hot' ->].
  unfold bind at 1. cbn [modify]. unfold bind at 1.
  rewrite read_cached_content_held; [reflexivity|reflexivity|exact Hk].
Qed.

(** A hit in the warm tier only: the entry is promoted, and the read blocks
    in the same way. *)
Lemma get_cached_content_warm_hit s p e hot' :
  db_lock s = false ->
  LRUCache.lookup p (memory_cache s) = None ->
  TTLCache.lookup (monotonic s) p (ttl_cache s) = Some e ->
  LRUCache.setitem p e (memory_cache s) = Some hot' ->
  key_resolves s e ->
  get_cached_content p s = Hang.
Proof.
  intros Hl Hhot Hwarm Hset Hk.
  unfold get_cached_content, lookup_tiers, bind at 1.
  rewrite with_db_lock_free by exact Hl.
  unfold bind at 1. cbn [gets memory_cache set_db_lock].
  unfold LRUCache.getitem. rewrite Hhot.
  unfold bind at 1. cbn [gets ttl_cache set_db_lock].
  unfold bind at 1. cbn [gets monotonic set_db_lock].
  rewrite Hwarm. unfold bind at 1. cbn [memory_cache set_db_lock].
  rewrite Hset. unfold bind at 1.
  rewrite read_cached_content_held; [reflexivity|reflexivity|exact Hk].
Qed.

(** A miss in both tiers: the index row is read and the content comes from
    the partition the row names, with neither tier touched. *)
Lemma get_cached_content_miss s p :
  db_lock s = false ->
  LRUCache.lookup p (memory_cache s) = None ->
  TTLCache.lookup (monotonic s) p (ttl_cache s) = None ->
  get_cached_content p s =
    Ret (match security_cache s !! p with
         | Some e => stored_content s e
         | None => None
         end) s.
Proof.
  intros Hl Hhot Hwarm.
  unfold get_cached_content, lookup_tiers, bind at 1.
  rewrite with_db_lock_free by exact Hl.
  unfold bind at 1. cbn [gets memory_cache set_db_lock].
  unfold LRUCache.getitem. rewrite Hhot.
  unfold bind at 1. cbn [gets ttl_cache set_db_lock].
  unfold bind at 1. cbn [gets monotonic set_db_lock].
  rewrite Hwarm. cbn [ret]. rewrite unlock_lock by exact Hl.
  unfold bind. rewrite get_cache_entry_free by exact Hl.
  destruct (security_cache s !! p) as [e|]; [|reflexivity].
  apply read_cached_content_free, Hl.
Qed.

End ReadPath.

(** C5. The read path as the claim has it returns on a hit in the hot tier.
    On the sample engine, after [/tmp/repo/foo.py] has been cached (which
    puts its entry in both tiers and leaves the lock free), retrieving its
    content finds the entry in the hot tier and never returns: the content
    is read while [_db_lock] is still held, through
    [_get_db_connection], which acquires the same lock. *)
Theorem get_cached_content_blocks_on_hot_hit :
  exists e s1,
    @cache_file_enhanced sample_platform "/tmp/repo/foo.py" false sample_state
      = Ret (Some e) s1
    /\ db_lock s1 = false
    /\ LRUCache.lookup "/tmp/repo/foo.py" (memory_cache s1) = Some e
    /\ @stored_content sample_platform s1 e = Some (encode sample_source)
    /\ @get_cached_content sample_platform "/tmp/repo/foo.py" s1 = Hang.
Proof.
  destruct (@cache_file_enhanced sample_platform "/tmp/repo/foo.py" false sample_state)
    as [[e|] s1| |] eqn:Hrun; try (vm_compute in Hrun; discriminate).
  exists e, s1.
  assert (Hs : db_lock s1 = false
               /\ LRUCache.lookup "/tmp/repo/foo.py" (memory_cache s1) = Some e
               /\ @stored_content sample_platform s1 e = Some (encode sample_source)
               /\ key_resolves s1 e).
  { vm_compute in Hrun. injection Hrun as <- <-.
    repeat split; try (vm_compute; reflexivity). vm_compute. eauto. }
  destruct Hs as (Hl & Hhot & Hst & Hk).
  repeat split; try assumption.
  apply (get_cached_content_hot_hit s1 "/tmp/repo/foo.py" e Hl Hhot Hk).
Qed.

(** ** Metrics *)

Lemma bind_ret_inv {A B} (m : M A) (f : A -> M B) s b s' :
  bind m f s = Ret b s' ->
  exists a s1, m s = Ret a s1 /\ f a s1 = Ret b s'.
Proof.
  unfold bind. destruct (m s) as [a s1|e s1|]; try discriminate. eauto.
Qed.

Lemma with_db_lock_ret_inv {A} (m : M A) s a s' :
  with_db_lock m s = Ret a s' ->
  db_lock s = false
  /\ exists s1, m (set_db_lock true s) = Ret a s1 /\ s' = set_db_lock false s1.
Proof.
  unfold with_db_lock. destruct (db_lock s); [discriminate|].
  destruct (m (set_db_lock true s)) as [a1 s1|e s1|]; try discriminate.
  intros [= <- <-]. eauto.
Qed.

Section MetricsFacts.

Context `{Platform}.

Lemma partition_counts_stats ids : forall acc s r s',
  partition_counts ids acc s = Ret r s' -> stats s' = stats s.
Proof.
  induction ids as [|id ids IH]; intros acc s r s' Hrun.
  - injection Hrun as _ <-. reflexivity.
  - cbn [partition_counts] in Hrun.
    apply bind_ret_inv in Hrun as (n & s1 & Hn & Hrest).
    apply IH in Hrest. rewrite Hrest. clear Hrest IH.
    unfold _get_db_connection in Hn.
    apply bind_ret_inv in Hn as (conn & s0 & Hc & Hn).
    assert (s0 = s) as ->.
    { destruct id; [injection Hc as _ <-; reflexivity|].
      destruct (partitions s !! _); [injection Hc as _ <-; reflexivity|discriminate]. }
    apply with_db_lock_ret_inv in Hn as (_ & s2 & Hn & ->).
    destruct conn; [discriminate|].
    injection Hn as _ <-. reflexivity.
Qed.

(** What [get_performance_metrics] reports, whenever it returns: the hit
    rate is computed with one miss when nothing has counted a miss yet, while
    the miss counter next to it is reported as zero. *)
Lemma performance_metrics_hit_rate s m s' :
  get_performance_metrics s = Ret m s' ->
  let hits := default 0 (stats s !! "cache_hits") in
  let total := hits + default 1 (stats s !! "cache_misses") in
  m_cache_hits m = hits
  /\ m_cache_misses m = default 0 (stats s !! "cache_misses")
  /\ m_hit_rate_percent m = (inject_Z hits / inject_Z total * 100)%Q.
Proof.
  intros Hrun. cbv zeta.
  unfold get_performance_metrics in Hrun.
  apply bind_ret_inv in Hrun as (h1 & s1 & H1 & Hrun).
  apply bind_ret_inv in Hrun as (h2 & s2 & H2 & Hrun).
  apply bind_ret_inv in Hrun as (m1 & s3 & H3 & Hrun).
  assert (Hs1 : h1 = default 0 (stats s !! "cache_hits")
                /\ stats s1 !! "cache_hits" = Some h1
                /\ stats s1 !! "cache_misses" = stats s !! "cache_misses").
  { unfold stats_getitem in H1.
    destruct (stats s !! "cache_hits") as [v|] eqn:Hv; injection H1 as <- <-.
    - auto.
    - cbn. rewrite lookup_insert_eq, lookup_insert_ne by discriminate. auto. }
  destruct Hs1 as (-> & Hh1 & Hm1).
  unfold stats_getitem in H2. rewrite Hh1 in H2. injection H2 as <- <-.
  injection H3 as <- <-. rewrite Hm1 in Hrun.
  destruct (_ =? 0); [discriminate|].
  apply bind_ret_inv in Hrun as (ids & s4 & H4 & Hrun). injection H4 as _ <-.
  apply bind_ret_inv in Hrun as (sizes & s5 & H5 & Hrun).
  apply partition_counts_stats in H5.
  apply bind_ret_inv in Hrun as (h3 & s6 & H6 & Hrun).
  unfold stats_getitem in H6. rewrite H5, Hh1 in H6. injection H6 as <- <-.
  apply bind_ret_inv in Hrun as (m0 & s7 & H7 & Hrun). injection H7 as <- <-.
  apply bind_ret_inv in Hrun as (cf & s8 & H8 & Hrun). injection H8 as _ <-.
  apply bind_ret_inv in Hrun as (tot & s9 & H9 & Hrun). injection H9 as _ <-.
  apply bind_ret_inv in Hrun as (er & s10 & H10 & Hrun). injection H10 as _ <-.
  apply bind_ret_inv in Hrun as (hs & s11 & H11 & Hrun). injection H11 as _ <-.
  apply bind_ret_inv in Hrun as (ws & s12 & H12 & Hrun). injection H12 as _ <-.
  apply bind_ret_inv in Hrun as (u & s13 & _ & Hrun).
  injection Hrun as <- _. cbn.
  rewrite H5, Hm1. auto.
Qed.

End MetricsFacts.

(** C8. The claim gives the hit rate as [100 * hits / (hits + misses)] of
    the counters returned with it.  On the sample engine after one cached
    file and one fresh hit, [get_performance_metrics] returns one hit and
    zero misses and appends one row to the metrics log, but the hit rate it
    returns is 50, not 100: the rate is computed with
    [stats.get('cache_misses', 1)], the reported counter with
    [stats.get('cache_misses', 0)], and nothing ever counts a miss. *)
Theorem hit_rate_counts_a_miss_never_recorded :
  exists m s',
    @get_performance_metrics sample_platform sample_hit = Ret m s'
    /\ stats sample_hit !! "cache_hits" = Some 1
    /\ stats sample_hit !! "cache_misses" = None
    /\ m_cache_hits m = 1 /\ m_cache_misses m = 0
    /\ 0 < m_cache_hits m + m_cache_misses m
    /\ (m_hit_rate_percent m == 50)%Q
    /\ ~ (m_hit_rate_percent m ==
            100 * inject_Z (m_cache_hits m)
              / inject_Z (m_cache_hits m + m_cache_misses m))%Q
    /\ List.length (performance_metrics s') =
         S (List.length (performance_metrics sample_hit)).
Proof.
  destruct (@get_performance_metrics sample_platform sample_hit)
    as [m s'| |] eqn:Hrun; try (vm_compute in Hrun; discriminate).
  exists m, s'.
  destruct (@performance_metrics_hit_rate sample_platform _ _ _ Hrun)
    as (Hh & Hm & Hr).
  assert (Hhits : stats sample_hit !! "cache_hits" = Some 1)
    by (vm_compute; reflexivity).
  assert (Hmiss : stats sample_hit !! "cache_misses" = None)
    by (vm_compute; reflexivity).
  rewrite Hhits, Hmiss in *. cbn [default] in *.
  rewrite Hh, Hm, Hr.
  repeat split; try assumption; try reflexivity.
  - intros Heq. vm_compute in Heq. discriminate.
  - vm_compute in Hrun. injection Hrun as _ <-. reflexivity.
Qed.

(** ** The clear command *)

Section Clear.

Lemma init_partitions_keyed dir now n : forall i id part,
  _init_partitions_from dir now i n !! id = Some part ->
  partition_id part = id /\ id <> EmptyString.
Proof.
  induction n as [|n IH]; intros i id part; cbn [_init_partitions_from].
  - rewrite lookup_empty. discriminate.
  - destruct (decide ("partition_" ++ Str.of_nat i = id)) as [<-|Hne].
    + rewrite lookup_insert_eq. intros [= <-]. split; [reflexivity|discriminate].
    + rewrite lookup_insert_ne by exact Hne. apply IH.
Qed.

Lemma clear_partitions_run ps : forall s,
  db_lock s = false ->
  (forall part, part ∈ ps ->
     partitions s !! partition_id part = Some part
     /\ partition_id part <> EmptyString) ->
  clear_partitions ps s = Ret tt (set_partition_cache (emptied ps) s).
Proof.
  induction ps as [|part ps IH]; intros s Hl Hps.
  - cbn. f_equal. destruct s; reflexivity.
  - cbn [clear_partitions]. unfold bind at 1, _get_db_connection, bind at 1.
    destruct (Hps part) as [Hpart Hne]; [left|].
    destruct (partition_id part) as [|c id] eqn:Hid; [congruence|].
    rewrite Hpart. rewrite with_db_lock_free by exact Hl.
    cbn [on_partition modify].
    rewrite IH.
    + f_equal. same_state s Hl.
    + reflexivity.
    + intros p Hp. cbn. apply Hps. right. exact Hp.
Qed.

Lemma emptied_lookup ps : forall pc part,
  part ∈ ps -> emptied ps pc !! db_file part = Some ∅.
Proof.
  unfold emptied.
  induction ps as [|p ps IH] using rev_ind; intros pc part Hin.
  - inversion Hin.
  - rewrite fold_left_app. cbn [fold_left].
    destruct (decide (db_file p = db_file part)) as [->|Hne].
    + apply lookup_insert_eq.
    + rewrite lookup_insert_ne by exact Hne. apply IH.
      apply elem_of_app in Hin as [Hin|Hin]; [exact Hin|].
      apply list_elem_of_singleton in Hin. congruence.
Qed.

Lemma handle_clear_confirmed s :
  db_lock s = false ->
  partitions_keyed s ->
  _handle_clear true s =
    Ret [("status", "success"); ("message", "Cache cleared")]
        (set_ttl_cache TTLCache.clear
          (set_memory_cache LRUCache.clear
            (set_git_commits (fun _ => nil)
              (set_vulnerabilities_table (fun _ => nil)
                (set_security_cache (fun _ => ∅)
                  (set_partition_cache
                     (emptied (map_to_list (partitions s)).*2) s)))))).
Proof.
  intros Hl Hk.
  unfold _handle_clear. cbn [negb]. unfold try_except, bind at 1.
  cbn [gets]. unfold bind at 1.
  rewrite clear_partitions_run.
  - unfold bind at 1, _get_db_connection, bind at 1.
    rewrite with_db_lock_free by exact Hl.
    cbn. f_equal. same_state s Hl.
  - exact Hl.
  - intros part Hin.
    apply list_elem_of_fmap in Hin as ([id p] & -> & Hin).
    apply elem_of_map_to_list in Hin. cbn [snd].
    destruct (Hk id p Hin) as [-> Hne]. auto.
Qed.

End Clear.

(** C7. [clear] with [confirm=false] returns the rejection and leaves the
    whole engine state as it was; with [confirm=true], on an engine whose
    lock is free and whose partitions are filed under their identifiers, it
    returns success and leaves the blob table of every partition, the index
    entry table, the vulnerability table, the commit table and both
    in-memory tiers empty. *)
Theorem handle_clear_rejects_or_empties (s : State) :
  db_lock s = false ->
  partitions_keyed s ->
  _handle_clear false s =
    Ret [("status", "error"); ("error", "Clear requires confirmation")] s
  /\ exists s',
       _handle_clear true s =
         Ret [("status", "success"); ("message", "Cache cleared")] s'
       /\ (forall id part,
             partitions s !! id = Some part ->
             partition_table (db_file part) s' = ∅)
       /\ security_cache s' = ∅
       /\ vulnerabilities_table s' = nil
       /\ git_commits s' = nil
       /\ LRUCache.items (memory_cache s') = nil
       /\ LRUCache.len (memory_cache s') = 0%nat
       /\ TTLCache.items (ttl_cache s') = nil
       /\ TTLCache.len (monotonic s') (ttl_cache s') = 0%nat
       /\ partitions s' = partitions s.
Proof.
  intros Hl Hk. split; [reflexivity|].
  eexists. split; [apply handle_clear_confirmed; assumption|].
  repeat split.
  intros id part Hp. unfold partition_table. cbn.
  rewrite (emptied_lookup _ _ part); [reflexivity|].
  apply list_elem_of_fmap. exists (id, part). split; [reflexivity|].
  apply elem_of_map_to_list. exact Hp.
Qed.

Lemma sample_cached_partitions :
  partitions sample_cached = _init_partitions "/cache" 0 4.
Proof. vm_compute. reflexivity. Qed.

Lemma handle_clear_rejects_or_empties_witness :
  _handle_clear false sample_cached =
    Ret [("status", "error"); ("error", "Clear requires confirmation")] sample_cached
  /\ exists s',
       _handle_clear true sample_cached =
         Ret [("status", "success"); ("message", "Cache cleared")] s'
       /\ (forall id part,
             partitions sample_cached !! id = Some part ->
             partition_table (db_file part) s' = ∅)
       /\ security_cache s' = ∅
       /\ vulnerabilities_table s' = nil
       /\ git_commits s' = nil
       /\ LRUCache.items (memory_cache s') = nil
       /\ LRUCache.len (memory_cache s') = 0%nat
       /\ TTLCache.items (ttl_cache s') = nil
       /\ TTLCache.len (monotonic s') (ttl_cache s') = 0%nat
       /\ partitions s' = partitions sample_cached.
Proof.
  apply (handle_clear_rejects_or_empties sample_cached).
  - vm_compute. reflexivity.
  - intros id part. rewrite sample_cached_partitions.
    apply init_partitions_keyed.
Defined.

(** ** Ingestion *)

Section Ingestion.

Context `{Platform}.

Lemma touched_refl p s : touched p s s.
Proof. constructor; auto. Qed.

Lemma touched_same_store p s s1 s2 :
  touched p s s1 -> same_store s1 s2 -> touched p s s2.
Proof.
  intros [] (E1 & E2 & E3 & E4 & E5 & E6 & E7 & E8 & E9 & E10).
  unfold partition_table in *.
  constructor; unfold partition_table; rewrite ?E1, ?E2, ?E3, ?E4, ?E5, ?E6, ?E7, ?E8, ?E9, ?E10;
    assumption.
Qed.

Lemma get_partition_outcome s p :
  (exists pid, _get_partition_for_path p s = Ret pid s /\ pid <> EmptyString)
  \/ (exists x, _get_partition_for_path p s = Exc x s).
Proof.
  unfold _get_partition_for_path.
  destruct (int16 _); [|right; eauto].
  destruct (_ =? 0); [right; eauto|].
  left. eexists. split; [reflexivity|discriminate].
Qed.

Lemma persisted_touched s p e row pid part :
  path e = p -> partition_key e = Some pid -> pid <> EmptyString ->
  partitions s !! pid = Some part ->
  touched p s
    (set_security_cache (fun t => <[p := e]> t)
       (set_partition_cache (fun pc =>
          <[db_file part := <[p := row]> (default ∅ (pc !! db_file part))]> pc) s)).
Proof.
  intros Hp Hk Hne Hpart.
  constructor; try reflexivity; cbn.
  - intros q Hq. apply lookup_insert_ne. congruence.
  - intros file q Hq. unfold partition_table. cbn.
    destruct (decide (db_file part = file)) as [<-|Hf].
    + rewrite lookup_insert_eq. cbn. apply lookup_insert_ne. congruence.
    + rewrite lookup_insert_ne by exact Hf. reflexivity.
  - intros e'. rewrite lookup_insert_eq. intros [= <-]. right. eauto.
  - intros file row'. unfold partition_table. cbn.
    destruct (decide (db_file part = file)) as [<-|Hf].
    + intros _. right. exists e, pid, part. rewrite lookup_insert_eq. auto.
    + rewrite lookup_insert_ne by exact Hf. auto.
Qed.

Lemma ingest_cases s p :
  db_lock s = false -> ingest_post s p (ingest p s).
Proof.
  intros Hl. unfold ingest.
  unfold bind at 1. rewrite read_file_efficiently_eq.
  destruct (files s !! p) as [st|] eqn:Hf; [|reflexivity].
  destruct (st_size st >? _) eqn:Hsz; [reflexivity|].
  unfold bind at 1. cbn [gets].
  destruct (security_result (config s) p (data st)) as [score vulns] eqn:Hsec.
  unfold bind at 1.
  destruct (get_partition_outcome s p) as [(pid & Hpid & Hne)|(x & Hx)];
    [rewrite Hpid|rewrite Hx; apply touched_refl].
  destruct (compress_if_large (config s) (data st)) as [stored isc] eqn:Hcomp.
  unfold bind at 1. cbn [gets].
  unfold bind at 1. unfold path_stat. rewrite Hf.
  unfold bind at 1. cbn [time_time gets].
  set (e := build_entry _ _ _ _ _ _ _ _ _ _ _).
  assert (He : e = ingested_entry s p st pid).
  { unfold ingested_entry. rewrite Hsec, Hcomp. reflexivity. }
  unfold bind at 1.
  destruct (partitions s !! pid) as [part|] eqn:Hpart.
  2:{ destruct (store_in_partition_fails s e stored pid Hl (or_intror Hpart)) as [x ->].
      apply touched_refl. }
  rewrite (store_in_partition_free s e stored pid part Hl Hne Hpart).
  unfold bind at 1. rewrite update_index_free by exact Hl.
  change (path e) with p.
  set (row := {| b_content := stored; b_compressed := compressed e;
                 b_size := size e; b_checksum := checksum e |}).
  assert (Hrow : row = ingested_row s st e).
  { unfold ingested_row. rewrite Hcomp. reflexivity. }
  pose proof (persisted_touched s p e row pid part eq_refl eq_refl Hne Hpart) as Ht.
  set (s1 := set_security_cache _ _) in *.
  assert (Hl1 : db_lock s1 = false) by exact Hl.
  assert (Hi1 : security_cache s1 !! p = Some e) by apply lookup_insert_eq.
  assert (Hb1 : partition_table (db_file part) s1 !! p = Some row).
  { unfold partition_table. cbn. rewrite lookup_insert_eq. cbn. apply lookup_insert_eq. }
  clearbody s1.
  unfold bind at 1. rewrite with_db_lock_free by exact Hl1.
  unfold populate_tiers. cbn [memory_cache ttl_cache monotonic set_db_lock].
  destruct (LRUCache.setitem p e (memory_cache s1)) as [hot|].
  2:{ cbn. eapply touched_same_store; [exact Ht|]. unfold same_store; cbn; rewrite ?Hl1; repeat split; reflexivity. }
  destruct (TTLCache.setitem (monotonic s1) p e (ttl_cache s1)) as [warm|].
  2:{ cbn. eapply touched_same_store; [exact Ht|]. unfold same_store; cbn; rewrite ?Hl1; repeat split; reflexivity. }
  assert (Hfin : forall s2, same_store s1 s2 ->
            ingest_post s p (Ret (Some e) s2)).
  { intros s2 Hs2. split; [eapply touched_same_store; eassumption|].
    destruct Hs2 as (_ & _ & _ & _ & _ & _ & _ & _ & E9 & E10).
    exists st, pid, part. unfold partition_table in *. rewrite E9, E10, <- Hrow. auto 10. }
  destruct vulns as [|v vulns].
  - cbv [bind ret stats_incr modify]. apply Hfin.
    unfold same_store; cbn; rewrite ?Hl1; repeat split; reflexivity.
  - unfold bind at 1. rewrite store_vulnerabilities_free by reflexivity.
    cbv [bind ret stats_incr modify]. apply Hfin.
    unfold same_store; cbn; rewrite ?Hl1; repeat split; reflexivity.
Qed.
End Ingestion.

(** ** The ingestion pipeline *)

Section Pipeline.

Context `{Platform}.

Lemma validate_path_run s fp : _validate_path fp s = Ret (path_allowed s fp) s.
Proof. reflexivity. Qed.

Lemma check_fresh_run s p force :
  db_lock s = false ->
  check_fresh p force s =
    if force then Ret None s
    else
      match security_cache s !! p with
      | None => Ret None s
      | Some e =>
          match files s !! p with
          | None => Exc OSError s
          | Some st =>
              if modified_time e >=? st_mtime st
              then Ret (Some e) (after_fresh_hit s p)
              else Ret None s
          end
      end.
Proof.
  intros Hl. unfold check_fresh. destruct force; [reflexivity|].
  unfold bind at 1. rewrite get_cache_entry_free by exact Hl.
  destruct (security_cache s !! p) as [e|]; [|reflexivity].
  unfold bind at 1, path_stat.
  destruct (files s !! p) as [st|]; [|reflexivity].
  destruct (modified_time e >=? st_mtime st); [|reflexivity].
  unfold bind. rewrite update_access_stats_free by exact Hl. reflexivity.
Qed.

Lemma cache_file_enhanced_rejected s fp force :
  path_allowed s fp = false -> cache_file_enhanced fp force s = Ret None s.
Proof.
  intros Hp. unfold cache_file_enhanced, bind at 1.
  rewrite validate_path_run, Hp. reflexivity.
Qed.

Lemma cache_file_enhanced_fresh s fp e st :
  db_lock s = false ->
  path_allowed s fp = true ->
  security_cache s !! resolve fp = Some e ->
  files s !! resolve fp = Some st ->
  st_mtime st <= modified_time e ->
  cache_file_enhanced fp false s = Ret (Some e) (after_fresh_hit s (resolve fp)).
Proof.
  intros Hl Hp He Hf Hm. unfold cache_file_enhanced, bind at 1.
  rewrite validate_path_run, Hp. cbn [negb]. unfold try_except, bind at 1.
  rewrite check_fresh_run by exact Hl. rewrite He, Hf.
  destruct (modified_time e >=? st_mtime st) eqn:E; [reflexivity|].
  rewrite Z.geb_leb in E. apply Z.leb_gt in E. lia.
Qed.

(** The ingestion path: forced, or nothing fresh in the index. *)
Lemma cache_file_enhanced_ingests s fp force :
  db_lock s = false ->
  path_allowed s fp = true ->
  force = true \/ is_fresh s (resolve fp) = false ->
  match cache_file_enhanced fp force s with
  | Ret None s' => touched (resolve fp) s s'
  | Ret (Some e) s' => ingest_post s (resolve fp) (Ret (Some e) s')
  | _ => False
  end.
Proof.
  intros Hl Hp Hfr. unfold cache_file_enhanced, bind at 1.
  rewrite validate_path_run, Hp. cbn [negb]. unfold try_except, bind at 1.
  rewrite check_fresh_run by exact Hl.
  assert (Herr : forall s1, touched (resolve fp) s s1 ->
            match (let* _ := stats_incr "errors" in ret None) s1
                  return Prop with
            | Ret None s' => touched (resolve fp) s s'
            | Ret (Some e) s' => ingest_post s (resolve fp) (Ret (Some e) s')
            | _ => False
            end).
  { intros s1 Ht. cbv [bind ret stats_incr modify].
    eapply touched_same_store; [exact Ht|]. repeat split. }
  assert (Hing : match match ingest (resolve fp) s with
                       | Exc e s' => (let* _ := stats_incr "errors" in ret None) s'
                       | other => other
                       end return Prop with
                 | Ret None s' => touched (resolve fp) s s'
                 | Ret (Some e) s' => ingest_post s (resolve fp) (Ret (Some e) s')
                 | _ => False
                 end).
  { pose proof (ingest_cases s (resolve fp) Hl) as Hi.
    destruct (ingest (resolve fp) s) as [[e|] s'|x s'|].
    - exact Hi.
    - cbn in Hi. subst s'. apply touched_refl.
    - apply Herr, Hi.
    - destruct Hi. }
  destruct force; [exact Hing|].
  destruct Hfr as [|Hfr]; [discriminate|]. unfold is_fresh in Hfr.
  destruct (security_cache s !! resolve fp) as [e|]; [|exact Hing].
  destruct (files s !! resolve fp) as [st|].
  - rewrite Hfr. exact Hing.
  - apply Herr, touched_refl.
Qed.

Lemma ingest_oversize s p st :
  files s !! p = Some st ->
  st_size st > max_file_size_mb (config s) * 1024 * 1024 ->
  ingest p s = Ret None s.
Proof.
  intros Hf Hsz. unfold ingest, bind at 1.
  rewrite read_file_efficiently_eq, Hf.
  destruct (st_size st >? _) eqn:E; [reflexivity|].
  rewrite Z.gtb_ltb in E. apply Z.ltb_ge in E. lia.
Qed.

Lemma cache_file_enhanced_oversize s fp force st :
  db_lock s = false ->
  path_allowed s fp = true ->
  files s !! resolve fp = Some st ->
  st_size st > max_file_size_mb (config s) * 1024 * 1024 ->
  force = true \/ is_fresh s (resolve fp) = false ->
  cache_file_enhanced fp force s = Ret None s.
Proof.
  intros Hl Hp Hf Hsz Hfr. unfold cache_file_enhanced, bind at 1.
  rewrite validate_path_run, Hp. cbn [negb]. unfold try_except, bind at 1.
  rewrite check_fresh_run by exact Hl.
  pose proof (ingest_oversize s (resolve fp) st Hf Hsz) as Hi.
  destruct force; [rewrite Hi; reflexivity|].
  destruct Hfr as [|Hfr]; [discriminate|]. unfold is_fresh in Hfr.
  rewrite Hf in Hfr |- *.
  destruct (security_cache s !! resolve fp) as [e|]; [rewrite Hfr|];
    rewrite Hi; reflexivity.
Qed.

End Pipeline.

(** ** Fresh entries *)

Section Freshness.

Context `{Platform}.

Lemma ingested_entry_fields s p st pid :
  let e := ingested_entry s p st pid in
  path e = p /\ modified_time e = st_mtime st /\ access_count e = 1
  /\ checksum e = sha256_hexdigest (data st)
  /\ partition_key e = Some pid
  /\ compressed e = snd (compress_if_large (config s) (data st)).
Proof.
  unfold ingested_entry.
  destruct (security_result _ _ _) as [score vulns].
  destruct (compress_if_large _ _) as [stored isc]. cbn. auto 10.
Qed.

(** After a call that returned an entry, the index holds a fresh row for the
    path: the entry itself when the call ingested the file, the entry with
    its access statistics updated when the call was a fresh hit. *)
Lemma cache_file_enhanced_leaves_fresh_row s0 fp e1 s :
  db_lock s0 = false ->
  cache_file_enhanced fp false s0 = Ret (Some e1) s ->
  exists e st,
    security_cache s !! resolve fp = Some e
    /\ files s !! resolve fp = Some st
    /\ st_mtime st <= modified_time e
    /\ db_lock s = false
    /\ path_allowed s fp = true
    /\ files s = files s0
    /\ (is_fresh s0 (resolve fp) = false -> e = e1)
    /\ (is_fresh s0 (resolve fp) = true -> e = bump_access (clock s0) e1).
Proof.
  intros Hl Hrun.
  destruct (path_allowed s0 fp) eqn:Hp.
  2:{ rewrite cache_file_enhanced_rejected in Hrun by exact Hp. discriminate. }
  destruct (is_fresh s0 (resolve fp)) eqn:Hfr.
  - unfold is_fresh in Hfr.
    destruct (security_cache s0 !! resolve fp) as [e|] eqn:He; [|discriminate].
    destruct (files s0 !! resolve fp) as [st|] eqn:Hf; [|discriminate].
    rewrite Z.geb_leb in Hfr. apply Z.leb_le in Hfr.
    rewrite (cache_file_enhanced_fresh s0 fp e st Hl Hp He Hf Hfr) in Hrun.
    injection Hrun as <- <-.
    exists (bump_access (clock s0) e), st. cbn.
    rewrite lookup_alter_eq, He. repeat split; try assumption; try reflexivity.
    discriminate.
  - pose proof (cache_file_enhanced_ingests s0 fp false Hl Hp (or_intror Hfr)) as Hi.
    rewrite Hrun in Hi. destruct Hi as (Ht & st & pid & part & Hf & _ & _ & _ & _ & -> & Hrow & _).
    destruct Ht as [Tl _ Tf _ Ta _ _ _ _ _ _ _].
    destruct (ingested_entry_fields s0 (resolve fp) st pid) as (_ & Hm & _).
    exists (ingested_entry s0 (resolve fp) st pid), st.
    unfold path_allowed in *. rewrite Tf, Tl, Ta.
    repeat split; try assumption; try reflexivity.
    + lia.
    + discriminate.
Qed.

End Freshness.

(** C2, as the claim states its consequence: the entry a second call yields
    has the access count of the first call's entry plus one.  On the sample
    engine the first call ingests the file and returns access count 1; the
    second call, on the unchanged file, returns access count 1 again. *)
Lemma second_call_returns_count_unchanged :
  ~ (forall s fp e1 s1 e2 s2,
       db_lock s = false ->
       @cache_file_enhanced sample_platform fp false s = Ret (Some e1) s1 ->
       @cache_file_enhanced sample_platform fp false s1 = Ret (Some e2) s2 ->
       access_count e2 = access_count e1 + 1).
Proof.
  intros Hall.
  destruct (@cache_file_enhanced sample_platform "/tmp/repo/foo.py" false sample_state)
    as [[e1|] s1| |] eqn:H1; try (vm_compute in H1; discriminate).
  destruct (@cache_file_enhanced sample_platform "/tmp/repo/foo.py" false s1)
    as [[e2|] s2| |] eqn:H2;
    try (vm_compute in H1; injection H1 as <- <-; vm_compute in H2; discriminate).
  specialize (Hall sample_state _ _ _ _ _ eq_refl H1 H2).
  vm_compute in H1. injection H1 as <- <-.
  vm_compute in H2. injection H2 as <- <-.
  vm_compute in Hall. discriminate.
Qed.

(** C2, amended. When the index holds an entry for the path whose recorded
    modified-time is at least the file's, an unforced [cache_file_enhanced]
    returns that entry exactly as the index held it, without reading the
    file (the outcome is the same whatever bytes the file holds), and changes
    the index row alone: access count plus one, last-accessed set to the
    clock, every other field, every other row, the partition blobs, the
    vulnerability log and both tiers as they were (the hit counter goes up by
    one).  And after any unforced call that returned an entry the index holds
    such a row, so a second call on the unchanged file returns it: the first
    call's entry itself when that call ingested the file, that entry with
    access count plus one and last-accessed updated when that call was
    already a fresh hit. *)
Theorem fresh_hit_returns_stored_entry `{Platform} :
  (forall s fp e st,
     db_lock s = false ->
     path_allowed s fp = true ->
     security_cache s !! resolve fp = Some e ->
     files s !! resolve fp = Some st ->
     st_mtime st <= modified_time e ->
     let p := resolve fp in
     let s' := after_fresh_hit s p in
     let row := bump_access (clock s) e in
     cache_file_enhanced fp false s = Ret (Some e) s'
     /\ security_cache s' !! p = Some row
     /\ access_count row = access_count e + 1
     /\ last_accessed row = clock s
     /\ (path row = path e /\ checksum row = checksum e /\ size row = size e
         /\ modified_time row = modified_time e /\ cached_time row = cached_time e
         /\ compressed row = compressed e /\ content_path row = content_path e
         /\ file_type row = file_type e /\ git_sha row = git_sha e
         /\ security_score row = security_score e
         /\ vulnerabilities row = vulnerabilities e /\ metadata row = metadata e
         /\ partition_key row = partition_key e)
     /\ (forall q, q <> p -> security_cache s' !! q = security_cache s !! q)
     /\ partition_cache s' = partition_cache s
     /\ vulnerabilities_table s' = vulnerabilities_table s
     /\ memory_cache s' = memory_cache s /\ ttl_cache s' = ttl_cache s
     /\ stats s' !! "cache_hits" = Some (default 0 (stats s !! "cache_hits") + 1)
     /\ (forall d,
           let s_d := set_files (fun fs =>
                        <[p := {| st_mtime := st_mtime st; data := d |}]> fs) s in
           cache_file_enhanced fp false s_d = Ret (Some e) (after_fresh_hit s_d p)))
  /\ (forall s0 fp e1 s,
        db_lock s0 = false ->
        cache_file_enhanced fp false s0 = Ret (Some e1) s ->
        let p := resolve fp in
        exists e,
          security_cache s !! p = Some e
          /\ files s = files s0
          /\ cache_file_enhanced fp false s = Ret (Some e) (after_fresh_hit s p)
          /\ (is_fresh s0 p = false -> e = e1)
          /\ (is_fresh s0 p = true -> e = bump_access (clock s0) e1)).
Proof.
  split.
  - intros s fp e st Hl Hp He Hf Hm. cbv zeta.
    split; [apply (cache_file_enhanced_fresh s fp e st); assumption|].
    split; [cbn; rewrite lookup_alter_eq, He; reflexivity|].
    repeat match goal with |- _ /\ _ => split end; try reflexivity.
    + intros q Hq. cbn. apply lookup_alter_ne. congruence.
    + cbn. apply lookup_insert_eq.
    + intros d. cbv zeta.
      apply (cache_file_enhanced_fresh _ fp e {| st_mtime := st_mtime st; data := d |});
        try assumption.
      cbn. apply lookup_insert_eq.
  - intros s0 fp e1 s Hl Hrun. cbv zeta.
    destruct (cache_file_enhanced_leaves_fresh_row s0 fp e1 s Hl Hrun)
      as (e & st & He & Hf & Hm & Hl' & Hp & Hfs & Hn & Hy).
    exists e. repeat split; try assumption.
    apply (cache_file_enhanced_fresh s fp e st); assumption.
Qed.

Lemma fresh_hit_returns_stored_entry_witness :
  exists e st,
    security_cache sample_cached !! "/tmp/repo/foo.py" = Some e
    /\ files sample_cached !! "/tmp/repo/foo.py" = Some st
    /\ st_mtime st <= modified_time e
    /\ @cache_file_enhanced sample_platform "/tmp/repo/foo.py" false sample_cached
         = Ret (Some e) (after_fresh_hit sample_cached "/tmp/repo/foo.py")
    /\ security_cache (after_fresh_hit sample_cached "/tmp/repo/foo.py")
         !! "/tmp/repo/foo.py" = Some (bump_access (clock sample_cached) e)
    /\ (exists e',
          security_cache sample_cached !! "/tmp/repo/foo.py" = Some e'
          /\ files sample_cached = files sample_state
          /\ @cache_file_enhanced sample_platform "/tmp/repo/foo.py" false sample_cached
               = Ret (Some e') (after_fresh_hit sample_cached "/tmp/repo/foo.py")
          /\ (@is_fresh sample_state "/tmp/repo/foo.py" = false -> e' = e)
          /\ (@is_fresh sample_state "/tmp/repo/foo.py" = true ->
              e' = bump_access (clock sample_state) e)).
Proof.
  destruct (@fresh_hit_returns_stored_entry sample_platform) as [T1 T2].
  assert (Hrun : exists e, @cache_file_enhanced sample_platform "/tmp/repo/foo.py" false
                   sample_state = Ret (Some e) sample_cached).
  { unfold sample_cached.
    destruct (@cache_file_enhanced sample_platform "/tmp/repo/foo.py" false sample_state)
      as [[e|] s1|x s1|] eqn:Hr.
    - exists e. reflexivity.
    - exfalso. apply (f_equal value_of) in Hr. vm_compute in Hr. discriminate.
    - exfalso. apply (f_equal value_of) in Hr. vm_compute in Hr. discriminate.
    - exfalso. apply (f_equal value_of) in Hr. vm_compute in Hr. discriminate. }
  destruct Hrun as [e1 Hrun].
  pose proof (T2 sample_state "/tmp/repo/foo.py" e1 sample_cached eq_refl Hrun) as Hsecond.
  cbv zeta in Hsecond. destruct Hsecond as (e & He & Hfs & Hcall & Hn & Hy).
  change (@resolve sample_platform "/tmp/repo/foo.py") with "/tmp/repo/foo.py" in *.
  assert (Hfr0 : is_fresh sample_state "/tmp/repo/foo.py" = false) by (vm_compute; reflexivity).
  pose proof (Hn Hfr0) as ->.
  assert (Hf : exists st, files sample_cached !! "/tmp/repo/foo.py" = Some st /\ st_mtime st = 100).
  { rewrite Hfs. eexists. split; vm_compute; reflexivity. }
  destruct Hf as (st & Hf & Hst).
  assert (Hfr : is_fresh sample_cached "/tmp/repo/foo.py" = true) by (vm_compute; reflexivity).
  assert (Hm : st_mtime st <= modified_time e1).
  { unfold is_fresh in Hfr. rewrite He, Hf in Hfr.
    rewrite Z.geb_leb in Hfr. apply Z.leb_le in Hfr. exact Hfr. }
  assert (Hl : db_lock sample_cached = false) by (vm_compute; reflexivity).
  assert (Hp : @path_allowed sample_platform sample_cached "/tmp/repo/foo.py" = true)
    by (vm_compute; reflexivity).
  pose proof (T1 sample_cached "/tmp/repo/foo.py" e1 st Hl Hp He Hf Hm)
    as (_ & Hrow & _).
  exists e1, st.
  split; [exact He|]. split; [exact Hf|]. split; [exact Hm|].
  split; [exact Hcall|]. split; [exact Hrow|].
  exists e1. split; [exact He|]. split; [exact Hfs|]. split; [exact Hcall|].
  split; [reflexivity|]. intros Hc. rewrite Hfr0 in Hc. discriminate.
Defined.

(** ** Further properties of the pattern engine *)

Lemma penalty_pos sev : 5 <= penalty sev <= 30.
Proof.
  unfold penalty.
  repeat match goal with |- context [if ?b then _ else _] => destruct b end; lia.
Qed.

Lemma total_penalty_bounds ps :
  5 * Z.of_nat (List.length ps) <= total_penalty ps.
Proof.
  induction ps as [|p ps IH]; cbn [total_penalty fold_right List.length].
  - lia.
  - fold (total_penalty ps). pose proof (penalty_pos (severity p)). lia.
Qed.

Lemma filter_length_le {A} (f : A -> bool) (l : list A) :
  (List.length (List.filter f l) <= List.length l)%nat.
Proof.
  induction l as [|a l IH]; cbn [List.filter List.length]; [lia|].
  destruct (f a); cbn [List.length]; lia.
Qed.

Lemma table_length : List.length _load_security_patterns = 14%nat.
Proof. reflexivity. Qed.

(** X1. The score lies between 0 and 100 and is 100 exactly when nothing was
    found; every finding costs at least 5 points; there are at most fourteen
    findings, each naming the analysed path, counting at least one match and
    carrying one of the four severities. *)
Theorem analyze_content_score_range (content file_path : string) :
  let score := fst (analyze_content content file_path) in
  let findings := snd (analyze_content content file_path) in
  0 <= score <= 100
  /\ (score = 100 <-> findings = nil)
  /\ score <= Z.max 0 (100 - 5 * Z.of_nat (List.length findings))
  /\ (List.length findings <= 14)%nat
  /\ Forall (fun f => f_file f = file_path /\ 1 <= f_matches f
                      /\ In (f_severity f) ["CRITICAL"; "HIGH"; "MEDIUM"; "LOW"])
            findings.
Proof.
  unfold analyze_content. rewrite analyze_with_filter. cbn [fst snd].
  set (ms := List.filter (matched content file_path) _load_security_patterns).
  pose proof (total_penalty_bounds ms) as Hpen.
  rewrite length_map.
  assert (Hlen : (List.length ms <= 14)%nat).
  { rewrite <- table_length. apply filter_length_le. }
  split; [lia|]. split; [|split; [lia|split; [exact Hlen|]]].
  - split.
    + intros Hs. destruct ms as [|m ms']; [reflexivity|].
      cbn [List.length] in Hpen. lia.
    + intros Hf. destruct ms as [|m ms']; [reflexivity|discriminate].
  - apply List.Forall_map. apply List.Forall_forall. intros p Hp.
    apply filter_In in Hp as [Hin Hm]. cbn [f_file f_matches f_severity].
    split; [reflexivity|]. split.
    + unfold matched in Hm. apply andb_true_iff in Hm as [_ Hm].
      destruct (pattern_matches p content); [discriminate|]. cbn [List.length]. lia.
    + pose proof table_severities as Hsev.
      rewrite List.Forall_forall in Hsev. apply Hsev, Hin.
Qed.

(** X2. Five of the extensions that classify a file as source code appear in no
    rule of the table: such a file is analysed and always comes out clean. *)
Theorem analyze_content_unruled_source_extensions (content file_path : string) :
  In (Str.lower (PurePath.suffix file_path)) [".ts"; ".rb"; ".c"; ".cpp"; ".rs"] ->
  _determine_file_type file_path = SOURCE_CODE
  /\ (forall cfg, runs_security_analysis cfg file_path = security_analysis cfg)
  /\ analyze_content content file_path = (100, nil).
Proof.
  intros Hext.
  assert (Hsrc : str_in (Str.lower (PurePath.suffix file_path)) source_extensions = true).
  { repeat (destruct Hext as [<-|Hext]; [reflexivity|]). destruct Hext. }
  split; [|split].
  - unfold _determine_file_type. rewrite Hsrc. reflexivity.
  - intros cfg. rewrite runs_security_analysis_eq, Hsrc. apply andb_true_r.
  - unfold analyze_content. rewrite analyze_with_filter, filter_all_false; [reflexivity|].
    intros p Hp. unfold matched.
    repeat (destruct Hext as [<-|Hext];
      [repeat (destruct Hp as [<-|Hp]; [reflexivity|]); destruct Hp|]).
    destruct Hext.
Qed.

Lemma analyze_content_unruled_source_extensions_witness :
  _determine_file_type "/tmp/repo/app.ts" = SOURCE_CODE
  /\ (forall cfg, runs_security_analysis cfg "/tmp/repo/app.ts" = security_analysis cfg)
  /\ analyze_content sample_source "/tmp/repo/app.ts" = (100, nil).
Proof.
  apply (analyze_content_unruled_source_extensions sample_source "/tmp/repo/app.ts").
  vm_compute. tauto.
Defined.

Lemma count_char_nonneg c s : 0 <= Str.count_char c s.
Proof.
  induction s as [|d s IH]; cbn [Str.count_char]; [lia|].
  destruct (Ascii.eqb c d); lia.
Qed.

Lemma free_of_cons c d s :
  free_of c (String d s) <-> Ascii.eqb d c = false /\ free_of c s.
Proof.
  unfold free_of. cbn [Str.count_char]. pose proof (count_char_nonneg c s).
  rewrite (Ascii.eqb_sym d c).
  destruct (Ascii.eqb c d); split; intros; try lia; intuition (try discriminate; lia).
Qed.

Lemma append_cons_assoc cur c a : (cur ++ String c EmptyString) ++ a = cur ++ String c a.
Proof.
  induction cur as [|d cur IH]; [reflexivity|].
  change (String d ((cur ++ String c EmptyString) ++ a) = String d (cur ++ String c a)).
  rewrite IH. reflexivity.
Qed.

Lemma append_empty_r s : s ++ EmptyString = s.
Proof.
  induction s as [|d s IH]; [reflexivity|].
  change (String d (s ++ EmptyString) = String d s). rewrite IH. reflexivity.
Qed.

Lemma split_from_free sep a : forall cur,
  free_of sep a -> split_from sep cur a = [cur ++ a].
Proof.
  induction a as [|d a IH]; intros cur Hfree; cbn [split_from].
  - rewrite append_empty_r. reflexivity.
  - apply free_of_cons in Hfree as [Hd Hfree]. rewrite Hd.
    rewrite IH by exact Hfree. rewrite append_cons_assoc. reflexivity.
Qed.

Lemma split_from_field sep a b : forall cur,
  free_of sep a ->
  split_from sep cur (a ++ String sep b) = (cur ++ a) :: split_from sep EmptyString b.
Proof.
  induction a as [|d a IH]; intros cur Hfree.
  - change (EmptyString ++ String sep b) with (String sep b). cbn [split_from].
    rewrite Ascii.eqb_refl, append_empty_r. reflexivity.
  - change (String d a ++ String sep b) with (String d (a ++ String sep b)).
    cbn [split_from].
    apply free_of_cons in Hfree as [Hd Hfree]. rewrite Hd.
    rewrite IH by exact Hfree. rewrite append_cons_assoc. reflexivity.
Qed.

(** Splitting what [join] built gives the fields back. *)
Lemma split_join sep x l :
  Forall (free_of sep) (x :: l) ->
  split sep (join (String sep EmptyString) (x :: l)) = x :: l.
Proof.
  unfold split. revert x.
  induction l as [|y l IH]; intros x Hfree.
  - cbn [join]. inversion Hfree; subst. apply split_from_free. assumption.
  - change (join (String sep EmptyString) (x :: y :: l))
      with (x ++ String sep EmptyString ++ join (String sep EmptyString) (y :: l)).
    change (String sep EmptyString ++ join (String sep EmptyString) (y :: l))
      with (String sep (join (String sep EmptyString) (y :: l))).
    inversion Hfree as [|? ? Hx Hrest]; subst.
    rewrite split_from_field by exact Hx. cbn [String.append].
    f_equal. apply IH, Hrest.
Qed.

Lemma count_char_append c a b :
  Str.count_char c (a ++ b) = Str.count_char c a + Str.count_char c b.
Proof.
  induction a as [|d a IH]; [reflexivity|].
  change (String d a ++ b) with (String d (a ++ b)). cbn [Str.count_char].
  rewrite IH. lia.
Qed.

Lemma free_of_join c sep l :
  free_of c sep -> Forall (free_of c) l -> free_of c (join sep l).
Proof.
  intros Hsep. induction l as [|x l IH]; intros Hl; [reflexivity|].
  inversion Hl as [|? ? Hx Hrest]; subst.
  destruct l as [|y l]; [exact Hx|].
  change (join sep (x :: y :: l)) with (x ++ sep ++ join sep (y :: l)).
  unfold free_of in *. rewrite !count_char_append, Hx, Hsep, (IH Hrest). reflexivity.
Qed.

Lemma name_status_line_plain r :
  plain_record r ->
  free_of Str.newline (name_status_line r)
  /\ name_status_line r <> EmptyString
  /\ split (ascii_of_nat 9) (name_status_line r)
       = fst (fst r) :: snd (fst r) :: snd r.
Proof.
  destruct r as [[status file] more]. intros (Hs & Hf & Hm). cbn [fst snd] in *.
  unfold name_status_line. split; [|split].
  - apply free_of_join; [reflexivity|].
    constructor; [apply Hs|]. constructor; [apply Hf|].
    eapply Forall_impl; [exact Hm|]. intros x Hx. apply Hx.
  - change (join tab (status :: file :: more))
      with (status ++ tab ++ join tab (file :: more)).
    destruct status; discriminate.
  - apply split_join.
    constructor; [apply Hs|]. constructor; [apply Hf|].
    eapply Forall_impl; [exact Hm|]. intros x Hx. apply Hx.
Qed.

Lemma changes_of_plain_lines repo rs :
  Forall plain_record rs ->
  changes_of_lines repo (List.map name_status_line rs) = List.map (change_of repo) rs.
Proof.
  induction rs as [|r rs IH]; intros Hrs; [reflexivity|].
  inversion Hrs as [|? ? Hr Hrest]; subst.
  destruct (name_status_line_plain r Hr) as (_ & Hne & Hsplit).
  cbn [List.map changes_of_lines].
  destruct (name_status_line r) as [|c line] eqn:Hline; [congruence|].
  rewrite Hsplit, IH by exact Hrest. reflexivity.
Qed.

(** X3. [get_changed_files] reads back what the diff printed: one change per
    name-status line, in order, with the first path of the line joined to
    the repository path and the kind read off the first letter of the
    status; further fields of a line (the new name of a rename) are ignored,
    and an empty diff gives no change. *)
Theorem get_changed_files_reads_name_status (repo_path : string)
  (rs : list (string * string * list string)) :
  Forall plain_record rs ->
  get_changed_files repo_path (Some (join nl (List.map name_status_line rs)))
    = List.map (change_of repo_path) rs.
Proof.
  intros Hrs. unfold get_changed_files.
  destruct rs as [|r rs]; [reflexivity|].
  change nl with (String Str.newline EmptyString). cbn [List.map].
  rewrite (split_join Str.newline (name_status_line r) (List.map name_status_line rs)).
  - apply (changes_of_plain_lines repo_path (r :: rs) Hrs).
  - change (Forall (free_of Str.newline) (List.map name_status_line (r :: rs))).
    apply List.Forall_map. eapply Forall_impl; [exact Hrs|].
    intros x Hx. apply (name_status_line_plain x Hx).
Qed.

Lemma get_changed_files_reads_name_status_witness :
  get_changed_files "/tmp/repo"
    (Some (join nl (List.map name_status_line
             [("D", "foo.py", nil); ("R100", "old.py", ["new.py"]);
              ("M", "bar.py", nil)])))
  = [ {| gc_file_path := "/tmp/repo/foo.py"; change_type := "deleted" |};
      {| gc_file_path := "/tmp/repo/old.py"; change_type := "renamed" |};
      {| gc_file_path := "/tmp/repo/bar.py"; change_type := "modified" |} ].
Proof.
  apply (get_changed_files_reads_name_status "/tmp/repo"
           [("D", "foo.py", nil); ("R100", "old.py", ["new.py"]); ("M", "bar.py", nil)]).
  repeat constructor.
Defined.

(** ** Further properties of the partitions *)





(** ** Further properties of the ingestion pipeline *)

Section PipelineEdges.

Context `{Platform}.

Lemma get_partition_none s p :
  base.size (partitions s) = 0%nat ->
  _get_partition_for_path p s = Exc ZeroDivisionError s.
Proof.
  intros Hn. unfold _get_partition_for_path, MD5.hexdigest.
  destruct (digest_shape (encode p)) as [Hlen Hrange].
  destruct (MD5.digest (encode p)) as [|b0 rest]; [discriminate|].
  rewrite int16_hex_byte by (inversion Hrange; assumption).
  rewrite Hn. reflexivity.
Qed.

Lemma ingest_unpartitioned s p st :
  files s !! p = Some st ->
  st_size st <= max_file_size_mb (config s) * 1024 * 1024 ->
  base.size (partitions s) = 0%nat ->
  ingest p s = Exc ZeroDivisionError s.
Proof.
  intros Hf Hsz Hn. unfold ingest, bind at 1.
  rewrite read_file_efficiently_eq, Hf.
  destruct (st_size st >? _) eqn:E.
  { rewrite Z.gtb_ltb in E. apply Z.ltb_lt in E. lia. }
  unfold bind at 1. cbn [gets].
  destruct (security_result _ _ _) as [score vulns].
  unfold bind at 1. rewrite get_partition_none by exact Hn. reflexivity.
Qed.

Lemma ingest_missing s p : files s !! p = None -> ingest p s = Ret None s.
Proof.
  intros Hf. unfold ingest, bind at 1.
  rewrite read_file_efficiently_eq, Hf. reflexivity.
Qed.

(** Running [cache_file_enhanced] on an allowed path, with the lock free,
    in terms of the up-to-date check and the ingestion. *)
Lemma cache_file_enhanced_allowed s fp force :
  db_lock s = false ->
  path_allowed s fp = true ->
  cache_file_enhanced fp force s =
    match check_fresh (resolve fp) force s with
    | Ret (Some e) s1 => Ret (Some e) s1
    | Ret None s1 =>
        match ingest (resolve fp) s1 with
        | Exc _ s2 => Ret None (count_error s2)
        | other => other
        end
    | Exc _ s1 => Ret None (count_error s1)
    | Hang => Hang
    end.
Proof.
  intros Hl Hp. unfold cache_file_enhanced, bind at 1.
  rewrite validate_path_run, Hp. cbn [negb]. unfold try_except, bind at 1.
  destruct (check_fresh (resolve fp) force s) as [[e|] s1|x s1|]; reflexivity.
Qed.

Lemma check_fresh_stale s p force :
  db_lock s = false ->
  force = true \/ is_fresh s p = false ->
  files s !! p <> None \/ force = true \/ security_cache s !! p = None ->
  check_fresh p force s = Ret None s.
Proof.
  intros Hl Hfr Hex. rewrite check_fresh_run by exact Hl.
  destruct force; [reflexivity|].
  destruct Hfr as [|Hfr]; [discriminate|]. unfold is_fresh in Hfr.
  destruct (security_cache s !! p) as [e|]; [|reflexivity].
  destruct (files s !! p) as [st|].
  - rewrite Hfr. reflexivity.
  - destruct Hex as [Hex|[Hex|Hex]]; congruence.
Qed.

End PipelineEdges.

(** X5. With no partition configured the partition index cannot be computed:
    the division by zero is caught, the call returns no entry, one error is
    counted and nothing is persisted or cached. *)
Theorem cache_file_enhanced_without_partitions `{Platform}
  (s : State) (fp : string) (force : bool) (st : File) :
  db_lock s = false ->
  path_allowed s fp = true ->
  files s !! resolve fp = Some st ->
  st_size st <= max_file_size_mb (config s) * 1024 * 1024 ->
  force = true \/ is_fresh s (resolve fp) = false ->
  base.size (partitions s) = 0%nat ->
  _get_partition_for_path (resolve fp) s = Exc ZeroDivisionError s
  /\ cache_file_enhanced fp force s = Ret None (count_error s).
Proof.
  intros Hl Hp Hf Hsz Hfr Hn. split; [apply get_partition_none, Hn|].
  rewrite cache_file_enhanced_allowed by assumption.
  rewrite check_fresh_stale; [|exact Hl|exact Hfr|left; congruence].
  rewrite (ingest_unpartitioned s (resolve fp) st) by assumption. reflexivity.
Qed.

Lemma cache_file_enhanced_without_partitions_witness :
  _get_partition_for_path "/tmp/repo/foo.py" sample_unpartitioned
    = Exc ZeroDivisionError sample_unpartitioned
  /\ @cache_file_enhanced sample_platform "/tmp/repo/foo.py" false sample_unpartitioned
       = Ret None (count_error sample_unpartitioned).
Proof.
  apply (@cache_file_enhanced_without_partitions sample_platform sample_unpartitioned
           "/tmp/repo/foo.py" false {| st_mtime := 100; data := encode sample_source |}).
  - reflexivity.
  - vm_compute. reflexivity.
  - vm_compute. reflexivity.
  - vm_compute. discriminate.
  - right. vm_compute. reflexivity.
  - vm_compute. reflexivity.
Defined.

(** X6. A file that is not on disk is never ingested.  Forced, or with no index
    row, the call returns no entry and changes nothing; unforced with an
    index row, the up-to-date check fails on the missing file, one error is
    counted, and the row of the vanished file stays in the index. *)
Theorem cache_file_enhanced_missing_file `{Platform} (s : State) (fp : string) :
  db_lock s = false ->
  path_allowed s fp = true ->
  files s !! resolve fp = None ->
  (forall force,
     force = true \/ security_cache s !! resolve fp = None ->
     cache_file_enhanced fp force s = Ret None s)
  /\ (forall e,
        security_cache s !! resolve fp = Some e ->
        cache_file_enhanced fp false s = Ret None (count_error s)
        /\ security_cache (count_error s) !! resolve fp = Some e).
Proof.
  intros Hl Hp Hf. split.
  - intros force Hc. rewrite cache_file_enhanced_allowed by assumption.
    rewrite check_fresh_stale.
    + rewrite ingest_missing by exact Hf. reflexivity.
    + exact Hl.
    + destruct Hc as [->|Hc]; [left; reflexivity|right].
      unfold is_fresh. rewrite Hc. reflexivity.
    + right. exact Hc.
  - intros e He. split; [|exact He].
    rewrite cache_file_enhanced_allowed by assumption.
    rewrite check_fresh_run by exact Hl. rewrite He, Hf. reflexivity.
Qed.

Lemma cache_file_enhanced_missing_file_witness :
  @cache_file_enhanced sample_platform "/tmp/repo/foo.py" true sample_deleted
    = Ret None sample_deleted
  /\ exists e,
       security_cache sample_deleted !! "/tmp/repo/foo.py" = Some e
       /\ @cache_file_enhanced sample_platform "/tmp/repo/foo.py" false sample_deleted
            = Ret None (count_error sample_deleted)
       /\ security_cache (count_error sample_deleted) !! "/tmp/repo/foo.py" = Some e.
Proof.
  assert (Hl : db_lock sample_deleted = false) by (vm_compute; reflexivity).
  assert (Hp : @path_allowed sample_platform sample_deleted "/tmp/repo/foo.py" = true)
    by (vm_compute; reflexivity).
  assert (Hf : files sample_deleted !! @resolve sample_platform "/tmp/repo/foo.py" = None)
    by (vm_compute; reflexivity).
  destruct (@cache_file_enhanced_missing_file sample_platform sample_deleted
              "/tmp/repo/foo.py" Hl Hp Hf) as [T1 T2].
  change (@resolve sample_platform "/tmp/repo/foo.py") with "/tmp/repo/foo.py" in *.
  split; [exact (T1 true (or_introl eq_refl))|].
  destruct (security_cache sample_deleted !! "/tmp/repo/foo.py") as [e|] eqn:He.
  - exists e. split; [reflexivity|]. exact (T2 e eq_refl).
  - exfalso.
    apply (f_equal (fun o : option CacheEntry => match o with Some _ => true | None => false end)) in He.
    vm_compute in He. discriminate.
Defined.

(** ** Round trip and frame of an ingestion *)

Section RoundTrip.

Context `{Platform}.

Lemma compress_if_large_flag cfg content :
  snd (compress_if_large cfg content)
    = (Z.of_nat (List.length content) >? compression_threshold_kb cfg * 1024).
Proof. unfold compress_if_large. destruct (_ >? _); reflexivity. Qed.

Lemma ingested_entry_size s p st pid :
  size (ingested_entry s p st pid) = st_size st.
Proof.
  unfold ingested_entry.
  destruct (security_result _ _ _) as [score vulns].
  destruct (compress_if_large _ _) as [stored isc]. reflexivity.
Qed.

(** What [_read_cached_content] finds for a freshly ingested entry. *)
Lemma stored_content_ingested s s' p st pid part :
  (forall b, gzip_decompress (gzip_compress b) = Some b) ->
  pid <> EmptyString ->
  partitions s' !! pid = Some part ->
  partition_table (db_file part) s' !! p
    = Some (ingested_row s st (ingested_entry s p st pid)) ->
  stored_content s' (ingested_entry s p st pid) = Some (data st).
Proof.
  intros Hgz Hne Hpart Hrow.
  destruct (ingested_entry_fields s p st pid) as (Hpath & _ & _ & _ & Hkey & Hc).
  unfold stored_content. rewrite Hkey.
  destruct pid as [|c pid]; [congruence|].
  rewrite Hpart, Hpath, Hrow. unfold ingested_row. cbn [b_compressed b_content].
  rewrite Hc. unfold compress_if_large.
  destruct (_ >? _); cbn [fst snd]; [apply Hgz|reflexivity].
Qed.

Lemma after_fresh_hit_keeps s p : rows_of_others_kept p s (after_fresh_hit s p).
Proof.
  unfold rows_of_others_kept, after_fresh_hit. cbn.
  repeat match goal with |- _ /\ _ => split end; try reflexivity.
  - intros q Hq. apply lookup_alter_ne. congruence.
Qed.

Lemma touched_keeps p s s' : touched p s s' -> rows_of_others_kept p s s'.
Proof.
  intros [Tl Tp Tf Tc Ta _ _ _ Ti Tb _ _].
  unfold rows_of_others_kept. auto 10.
Qed.

End RoundTrip.

(** X7. With the lock free, [cache_file_enhanced] always returns: it neither
    raises nor blocks, whatever the path, the flag and the stores hold.  It
    leaves the lock free, and the partitions, the files, the configuration
    and every index row and blob row of any other path as they were. *)
Theorem cache_file_enhanced_returns_and_keeps_other_rows `{Platform}
  (s : State) (fp : string) (force : bool) :
  db_lock s = false ->
  exists r s',
    cache_file_enhanced fp force s = Ret r s'
    /\ db_lock s' = false
    /\ rows_of_others_kept (resolve fp) s s'.
Proof.
  intros Hl.
  assert (Hrefl : rows_of_others_kept (resolve fp) s s)
    by (apply touched_keeps, touched_refl).
  destruct (path_allowed s fp) eqn:Hp.
  2:{ exists None, s. rewrite cache_file_enhanced_rejected by exact Hp. auto. }
  destruct force.
  - pose proof (cache_file_enhanced_ingests s fp true Hl Hp (or_introl eq_refl)) as Hi.
    destruct (cache_file_enhanced fp true s) as [[e|] s'|x s'|]; try contradiction.
    + destruct Hi as [Ht _]. exists (Some e), s'.
      split; [reflexivity|]. split; [rewrite (t_lock _ _ _ Ht); exact Hl|].
      apply touched_keeps, Ht.
    + exists None, s'.
      split; [reflexivity|]. split; [rewrite (t_lock _ _ _ Hi); exact Hl|].
      apply touched_keeps, Hi.
  - destruct (is_fresh s (resolve fp)) eqn:Hfr.
    + unfold is_fresh in Hfr.
      destruct (security_cache s !! resolve fp) as [e|] eqn:He; [|discriminate].
      destruct (files s !! resolve fp) as [st|] eqn:Hf; [|discriminate].
      rewrite Z.geb_leb in Hfr. apply Z.leb_le in Hfr.
      rewrite (cache_file_enhanced_fresh s fp e st Hl Hp He Hf Hfr).
      exists (Some e), (after_fresh_hit s (resolve fp)).
      split; [reflexivity|]. split; [exact Hl|]. apply after_fresh_hit_keeps.
    + pose proof (cache_file_enhanced_ingests s fp false Hl Hp (or_intror Hfr)) as Hi.
      destruct (cache_file_enhanced fp false s) as [[e|] s'|x s'|]; try contradiction.
      * destruct Hi as [Ht _]. exists (Some e), s'.
        split; [reflexivity|]. split; [rewrite (t_lock _ _ _ Ht); exact Hl|].
        apply touched_keeps, Ht.
      * exists None, s'.
        split; [reflexivity|]. split; [rewrite (t_lock _ _ _ Hi); exact Hl|].
        apply touched_keeps, Hi.
Qed.

Lemma cache_file_enhanced_returns_and_keeps_other_rows_witness :
  exists r s',
    @cache_file_enhanced sample_platform "/tmp/repo/bar.py" true sample_cached = Ret r s'
    /\ db_lock s' = false
    /\ rows_of_others_kept "/tmp/repo/bar.py" sample_cached s'.
Proof.
  apply (@cache_file_enhanced_returns_and_keeps_other_rows sample_platform
           sample_cached "/tmp/repo/bar.py" true).
  vm_compute. reflexivity.
Defined.

(** ** Removal *)

Section Removal.

Context `{Platform}.

Lemma find_removed {A} (k : string) (l : list (string * A)) :
  List.find (fun kv => String.eqb (fst kv) k)
    (List.filter (fun kv => negb (String.eqb (fst kv) k)) l) = None.
Proof.
  induction l as [|[k' v] l IH]; [reflexivity|]. cbn.
  destruct (String.eqb k' k) eqn:E; cbn; [exact IH|]. rewrite E. exact IH.
Qed.

Lemma lru_pop_lookup p c : LRUCache.lookup p (LRUCache.pop p c) = None.
Proof.
  unfold LRUCache.lookup, LRUCache.pop, LRUCache.remove. cbn.
  rewrite find_removed. reflexivity.
Qed.

Lemma ttl_pop_lookup now p c : TTLCache.lookup now p (TTLCache.pop now p c) = None.
Proof.
  unfold TTLCache.pop. destruct (TTLCache.lookup now p c) eqn:E; [|exact E].
  unfold TTLCache.lookup, TTLCache.find, TTLCache.remove. cbn.
  rewrite find_removed. reflexivity.
Qed.

Lemma remove_from_cache_run s p e pid part :
  db_lock s = false ->
  security_cache s !! p = Some e ->
  partition_key e = Some pid -> pid <> EmptyString ->
  partitions s !! pid = Some part ->
  _remove_from_cache p s = Ret tt (removed p (db_file part) s).
Proof.
  intros Hl He Hk Hne Hpart. unfold _remove_from_cache, bind at 1.
  rewrite get_cache_entry_free by exact Hl. rewrite He, Hk.
  destruct pid as [|c pid]; [congruence|].
  unfold _get_db_connection, bind. rewrite Hpart.
  rewrite with_db_lock_free by exact Hl. cbn.
  unfold removed. f_equal. same_state s Hl.
Qed.

Lemma remove_from_cache_absent s p :
  db_lock s = false ->
  security_cache s !! p = None ->
  _remove_from_cache p s = Ret tt s.
Proof.
  intros Hl He. unfold _remove_from_cache, bind at 1.
  rewrite get_cache_entry_free by exact Hl. rewrite He. reflexivity.
Qed.

End Removal.

(** X8. Removing a path whose index row names one of the partitions removes
    every trace of it: the index row, the blob row in that partition, the
    rows of the vulnerabilities table and the entries of both tiers.  The
    call returns and leaves the lock free, rows of other paths and the
    counters stay, and reading the path afterwards is a miss. *)
Theorem remove_from_cache_removes_every_trace `{Platform}
  (s : State) (p : string) (e : CacheEntry) (pid : string) (part : CachePartition) :
  db_lock s = false ->
  security_cache s !! p = Some e ->
  partition_key e = Some pid -> pid <> EmptyString ->
  partitions s !! pid = Some part ->
  exists s',
    _remove_from_cache p s = Ret tt s'
    /\ db_lock s' = false
    /\ security_cache s' !! p = None
    /\ partition_table (db_file part) s' !! p = None
    /\ (forall r, In r (vulnerabilities_table s')
                  <-> In r (vulnerabilities_table s) /\ vr_file_path r <> p)
    /\ LRUCache.lookup p (memory_cache s') = None
    /\ TTLCache.lookup (monotonic s') p (ttl_cache s') = None
    /\ rows_of_others_kept p s s'
    /\ stats s' = stats s
    /\ get_cached_content p s' = Ret None s'.
Proof.
  intros Hl He Hk Hne Hpart.
  exists (removed p (db_file part) s).
  assert (Hidx : security_cache (removed p (db_file part) s) !! p = None)
    by apply lookup_delete_eq.
  assert (Hhot : LRUCache.lookup p (memory_cache (removed p (db_file part) s)) = None)
    by apply lru_pop_lookup.
  assert (Hwarm : TTLCache.lookup (monotonic (removed p (db_file part) s)) p
                    (ttl_cache (removed p (db_file part) s)) = None)
    by apply ttl_pop_lookup.
  repeat match goal with |- _ /\ _ => split end.
  - apply (remove_from_cache_run s p e pid part); assumption.
  - exact Hl.
  - exact Hidx.
  - unfold partition_table. cbn. rewrite lookup_insert_eq. cbn. apply lookup_delete_eq.
  - intros r. cbn. rewrite filter_In, negb_true_iff, String.eqb_neq. reflexivity.
  - exact Hhot.
  - exact Hwarm.
  - unfold rows_of_others_kept. cbn.
    repeat match goal with |- _ /\ _ => split end; try reflexivity.
    + intros q Hq. apply lookup_delete_ne. congruence.
    + intros file q Hq. unfold partition_table. cbn.
      destruct (decide (db_file part = file)) as [<-|Hf].
      * rewrite lookup_insert_eq. cbn. apply lookup_delete_ne. congruence.
      * rewrite lookup_insert_ne by exact Hf. reflexivity.
  - reflexivity.
  - rewrite get_cached_content_miss by assumption. rewrite Hidx. reflexivity.
Qed.

Lemma remove_from_cache_removes_every_trace_witness :
  exists s',
    _remove_from_cache "/tmp/repo/foo.py" sample_cached = Ret tt s'
    /\ security_cache s' !! "/tmp/repo/foo.py" = None
    /\ @get_cached_content sample_platform "/tmp/repo/foo.py" s' = Ret None s'.
Proof.
  destruct (security_cache sample_cached !! "/tmp/repo/foo.py") as [e|] eqn:He.
  2:{ exfalso.
      apply (f_equal (fun o : option CacheEntry =>
                        match o with Some _ => true | None => false end)) in He.
      vm_compute in He. discriminate. }
  destruct (partition_key e) as [pid|] eqn:Hk.
  2:{ exfalso.
      assert (Hk' : (fun e => match partition_key e with Some _ => true | None => false end)
                      <$> security_cache sample_cached !! "/tmp/repo/foo.py" = Some true)
        by (vm_compute; reflexivity).
      rewrite He in Hk'. cbn in Hk'. rewrite Hk in Hk'. discriminate. }
  assert (Hv : entry_key_valid sample_cached
                 <$> security_cache sample_cached !! "/tmp/repo/foo.py" = Some true)
    by (vm_compute; reflexivity).
  rewrite He in Hv. cbn in Hv. injection Hv as Hv.
  unfold entry_key_valid in Hv. rewrite Hk in Hv.
  destruct pid as [|c pid]; [discriminate|].
  destruct (partitions sample_cached !! String c pid) as [part|] eqn:Hpart;
    [|discriminate].
  assert (Hl : db_lock sample_cached = false) by (vm_compute; reflexivity).
  assert (Hne : String c pid <> EmptyString) by discriminate.
  destruct (@remove_from_cache_removes_every_trace sample_platform sample_cached
              "/tmp/repo/foo.py" e (String c pid) part Hl He Hk Hne Hpart)
    as (s' & Hrun & _ & Hidx & _ & _ & _ & _ & _ & _ & Hget).
  exists s'. split; [exact Hrun|]. split; [exact Hidx|exact Hget].
Defined.

(** X9. Without an index row nothing is removed: the call returns at once and
    leaves the state as it was, so a blob row or tier entries of the path
    that the index does not list stay where they are. *)
Theorem remove_from_cache_needs_an_index_row
  (s : State) (p : string) :
  db_lock s = false ->
  security_cache s !! p = None ->
  _remove_from_cache p s = Ret tt s.
Proof.
  intros Hl He. unfold _remove_from_cache, bind at 1.
  rewrite get_cache_entry_free by exact Hl. rewrite He. reflexivity.
Qed.

Lemma remove_from_cache_needs_an_index_row_witness :
  _remove_from_cache "/tmp/repo/foo.py" sample_orphaned = Ret tt sample_orphaned
  /\ LRUCache.contains "/tmp/repo/foo.py" (memory_cache sample_orphaned) = true.
Proof.
  split.
  - apply (remove_from_cache_needs_an_index_row sample_orphaned "/tmp/repo/foo.py").
    + vm_compute. reflexivity.
    + vm_compute. reflexivity.
  - vm_compute. reflexivity.
Defined.

(** ** Synchronisation with the repository *)

Section Sync.

Context `{Platform}.

Lemma index_keys_valid_spec s : index_keys_valid s = true <-> keys_resolve s.
Proof.
  unfold index_keys_valid, keys_resolve. rewrite forallb_forall. split.
  - intros Hall p e He.
    assert (Hin : In (p, e) (map_to_list (security_cache s)))
      by (apply list_elem_of_In, elem_of_map_to_list, He).
    specialize (Hall _ Hin). cbn in Hall. unfold entry_key_valid in Hall.
    destruct (partition_key e) as [[|c id]|]; try discriminate.
    destruct (partitions s !! String c id) as [part|] eqn:Hp; [|discriminate].
    exists (String c id), part.
    split; [reflexivity|split; [discriminate|exact Hp]].
  - intros Hall [p e] Hin. cbn.
    apply list_elem_of_In, elem_of_map_to_list in Hin.
    destruct (Hall p e Hin) as (pid & part & Hk & Hne & Hp).
    unfold entry_key_valid. rewrite Hk.
    destruct pid as [|c id]; [congruence|]. rewrite Hp. reflexivity.
Qed.

Lemma touched_keys_resolve p s s' :
  touched p s s' -> keys_resolve s -> keys_resolve s'.
Proof.
  intros Ht Hv q e Hq. rewrite (t_partitions _ _ _ Ht).
  destruct (decide (q = p)) as [->|Hne].
  - destruct (t_index_self _ _ _ Ht e Hq) as [Hold|Hnew]; [eapply Hv, Hold|exact Hnew].
  - rewrite (t_index_other _ _ _ Ht q Hne) in Hq. eapply Hv, Hq.
Qed.

Lemma cache_file_enhanced_forced s fp :
  db_lock s = false ->
  exists r s', cache_file_enhanced fp true s = Ret r s' /\ touched (resolve fp) s s'.
Proof.
  intros Hl.
  destruct (path_allowed s fp) eqn:Hp.
  2:{ exists None, s. rewrite cache_file_enhanced_rejected by exact Hp.
      split; [reflexivity|apply touched_refl]. }
  pose proof (cache_file_enhanced_ingests s fp true Hl Hp (or_introl eq_refl)) as Hi.
  destruct (cache_file_enhanced fp true s) as [[e|] s'|x s'|]; try contradiction.
  - destruct Hi as [Ht _]. eauto.
  - eauto.
Qed.

Lemma remove_from_cache_outcome s p :
  db_lock s = false -> keys_resolve s ->
  exists s',
    _remove_from_cache p s = Ret tt s'
    /\ db_lock s' = false /\ keys_resolve s'
    /\ security_cache s' !! p = None
    /\ (forall q, q <> p -> security_cache s' !! q = security_cache s !! q).
Proof.
  intros Hl Hv.
  destruct (security_cache s !! p) as [e|] eqn:He.
  - destruct (Hv p e He) as (pid & part & Hk & Hne & Hpart).
    exists (removed p (db_file part) s).
    split; [apply (remove_from_cache_run s p e pid part); assumption|].
    split; [exact Hl|]. split; [|split].
    + intros q e' Hq. cbn in Hq |- *.
      apply lookup_delete_Some in Hq as [_ Hq]. eapply Hv, Hq.
    + apply lookup_delete_eq.
    + intros q Hq. cbn. apply lookup_delete_ne. congruence.
  - exists s. rewrite remove_from_cache_absent by assumption. auto.
Qed.

Lemma apply_changes_sync changes :
  forall s, db_lock s = false -> keys_resolve s ->
  exists s',
    apply_changes changes s = Ret tt s'
    /\ db_lock s' = false /\ keys_resolve s'
    /\ (forall q,
          (forall c, In c changes -> ~ is_deleted c -> resolve (gc_file_path c) <> q) ->
          security_cache s !! q = None -> security_cache s' !! q = None)
    /\ (forall c, In c changes -> is_deleted c ->
          (forall c', In c' changes -> ~ is_deleted c' ->
             resolve (gc_file_path c') <> gc_file_path c) ->
          security_cache s' !! gc_file_path c = None)
    /\ (forall q,
          (forall c, In c changes ->
             q <> gc_file_path c /\ q <> resolve (gc_file_path c)) ->
          security_cache s' !! q = security_cache s !! q).
Proof.
  induction changes as [|c0 rest IH]; intros s Hl Hv.
  - exists s. cbn. repeat split; auto. intros c [].
  - cbn [apply_changes]. unfold bind at 1.
    destruct (String.eqb (change_type c0) "deleted") eqn:E.
    + apply String.eqb_eq in E.
      destruct (remove_from_cache_outcome s (gc_file_path c0) Hl Hv)
        as (s1 & Hr & Hl1 & Hv1 & Hnone & Hoth).
      rewrite Hr.
      destruct (IH s1 Hl1 Hv1) as (s' & Hrun & Hl' & Hv' & HB & HD & HA).
      exists s'. split; [exact Hrun|]. split; [exact Hl'|]. split; [exact Hv'|].
      split; [|split].
      * intros q Hq Hn. apply HB; [intros c Hin; apply Hq; right; exact Hin|].
        destruct (decide (q = gc_file_path c0)) as [->|Hne]; [exact Hnone|].
        rewrite Hoth by exact Hne. exact Hn.
      * intros c [<-|Hin] Hdel Hno.
        -- apply HB; [|exact Hnone].
           intros c' Hin' Hty. apply Hno; [right; exact Hin'|exact Hty].
        -- apply HD; [exact Hin|exact Hdel|].
           intros c' Hin'. apply Hno. right. exact Hin'.
      * intros q Hq. rewrite HA by (intros c Hin; apply Hq; right; exact Hin).
        apply Hoth. apply (Hq c0). left. reflexivity.
    + apply String.eqb_neq in E.
      destruct (cache_file_enhanced_forced s (gc_file_path c0) Hl)
        as (r & s1 & Hr & Ht).
      unfold bind at 1. rewrite Hr. cbn [ret].
      assert (Hl1 : db_lock s1 = false) by (rewrite (t_lock _ _ _ Ht); exact Hl).
      destruct (IH s1 Hl1 (touched_keys_resolve _ _ _ Ht Hv))
        as (s' & Hrun & Hl' & Hv' & HB & HD & HA).
      exists s'. split; [exact Hrun|]. split; [exact Hl'|]. split; [exact Hv'|].
      split; [|split].
      * intros q Hq Hn. apply HB; [intros c Hin; apply Hq; right; exact Hin|].
        rewrite (t_index_other _ _ _ Ht); [exact Hn|].
        intros ->. apply (Hq c0); [left; reflexivity|exact E|reflexivity].
      * intros c [<-|Hin] Hdel Hno; [contradiction|].
        apply HD; [exact Hin|exact Hdel|].
        intros c' Hin'. apply Hno. right. exact Hin'.
      * intros q Hq. rewrite HA by (intros c Hin; apply Hq; right; exact Hin).
        apply (t_index_other _ _ _ Ht). apply (Hq c0). left. reflexivity.
Qed.

End Sync.

(** X10. Synchronising with the repository keeps the index in step with the
    deletions.  With the lock free and every index row naming one of the
    partitions, [update_from_git] returns without raising, leaves the lock
    free and the index rows naming partitions; afterwards the index has no
    row for a path reported as deleted, unless a change that is not a
    deletion resolves to the same path, and the row of a path that no change
    mentions is as it was. *)
Theorem update_from_git_drops_deleted_paths `{Platform}
  (s : State) (repo base_ref target_ref : string) :
  db_lock s = false ->
  index_keys_valid s = true ->
  git_integration s = Some repo ->
  exists s',
    update_from_git base_ref target_ref s = Ret tt s'
    /\ db_lock s' = false
    /\ index_keys_valid s' = true
    /\ (forall c, In c (changes_between repo base_ref target_ref) ->
          is_deleted c ->
          (forall c', In c' (changes_between repo base_ref target_ref) ->
             ~ is_deleted c' -> resolve (gc_file_path c') <> gc_file_path c) ->
          security_cache s' !! gc_file_path c = None)
    /\ (forall q,
          (forall c, In c (changes_between repo base_ref target_ref) ->
             q <> gc_file_path c /\ q <> resolve (gc_file_path c)) ->
          security_cache s' !! q = security_cache s !! q).
Proof.
  intros Hl Hv Hgit. apply index_keys_valid_spec in Hv.
  destruct (apply_changes_sync (changes_between repo base_ref target_ref) s Hl Hv)
    as (s' & Hrun & Hl' & Hv' & _ & HD & HA).
  exists s'. unfold update_from_git, bind at 1. cbn [gets]. rewrite Hgit.
  split; [exact Hrun|]. split; [exact Hl'|].
  split; [apply index_keys_valid_spec, Hv'|]. split; [exact HD|exact HA].
Qed.

Lemma update_from_git_drops_deleted_paths_witness :
  exists s',
    @update_from_git sample_platform "HEAD~1" "HEAD" sample_cached = Ret tt s'
    /\ security_cache s' !! "/tmp/repo/foo.py" = None.
Proof.
  assert (Hl : db_lock sample_cached = false) by (vm_compute; reflexivity).
  assert (Hv : index_keys_valid sample_cached = true) by (vm_compute; reflexivity).
  assert (Hgit : git_integration sample_cached = Some "/tmp/repo")
    by (vm_compute; reflexivity).
  destruct (@update_from_git_drops_deleted_paths sample_platform sample_cached
              "/tmp/repo" "HEAD~1" "HEAD" Hl Hv Hgit)
    as (s' & Hrun & _ & _ & HD & _).
  exists s'. split; [exact Hrun|].
  assert (Hch : @changes_between sample_platform "/tmp/repo" "HEAD~1" "HEAD"
                = [ {| gc_file_path := "/tmp/repo/foo.py"; change_type := "deleted" |};
                    {| gc_file_path := "/tmp/repo/bar.py"; change_type := "modified" |} ])
    by (vm_compute; reflexivity).
  rewrite Hch in HD.
  apply (HD {| gc_file_path := "/tmp/repo/foo.py"; change_type := "deleted" |}).
  - left. reflexivity.
  - reflexivity.
  - intros c' [<-|[<-|[]]] Hty.
    + exfalso. apply Hty. reflexivity.
    + cbn. discriminate.
Defined.

(** ** A successful ingestion *)

Section Success.

Context `{Platform}.

Lemma find_app_none {A} (f : A -> bool) l1 l2 :
  List.find f l1 = None -> List.find f (l1 ++ l2)%list = List.find f l2.
Proof.
  induction l1 as [|a l1 IH]; [reflexivity|]. cbn.
  destruct (f a); [discriminate|exact IH].
Qed.

Lemma lru_setitem_lookup p e c hot :
  LRUCache.setitem p e c = Some hot -> LRUCache.lookup p hot = Some e.
Proof.
  unfold LRUCache.setitem. destruct (_ <? 1)%nat; [discriminate|].
  intros [= <-]. unfold LRUCache.lookup, LRUCache.remove. cbn [LRUCache.items].
  rewrite find_app_none by apply find_removed. cbn.
  rewrite String.eqb_refl. reflexivity.
Qed.

Lemma lru_setitem_some p e c :
  (1 <= LRUCache.maxsize c)%nat -> is_Some (LRUCache.setitem p e c).
Proof.
  intros Hm. unfold LRUCache.setitem.
  destruct (_ <? 1)%nat eqn:E; [apply Nat.ltb_lt in E; lia|eauto].
Qed.

Lemma ttl_setitem_some now p e c :
  (1 <= TTLCache.maxsize c)%nat -> is_Some (TTLCache.setitem now p e c).
Proof.
  intros Hm. unfold TTLCache.setitem.
  destruct (_ <? 1)%nat eqn:E; [apply Nat.ltb_lt in E; lia|eauto].
Qed.

Lemma ingested_entry_vulnerabilities s p st pid :
  vulnerabilities (ingested_entry s p st pid)
    = snd (security_result (config s) p (data st)).
Proof.
  unfold ingested_entry.
  destruct (security_result _ _ _) as [score vulns].
  destruct (compress_if_large _ _) as [stored isc]. reflexivity.
Qed.

Lemma populate_tiers_free s p e hot warm :
  db_lock s = false ->
  LRUCache.setitem p e (memory_cache s) = Some hot ->
  TTLCache.setitem (monotonic s) p e (ttl_cache s) = Some warm ->
  with_db_lock (populate_tiers p e) s
    = Ret tt (set_ttl_cache (fun _ => warm) (set_memory_cache (fun _ => hot) s)).
Proof.
  intros Hl Hhot Hwarm. rewrite with_db_lock_free by exact Hl.
  unfold populate_tiers. cbn [memory_cache ttl_cache monotonic set_db_lock].
  rewrite Hhot, Hwarm. f_equal. same_state s Hl.
Qed.

Lemma no_new_vulnerability_rows {A} (f : A -> VulnRow) s :
  set_vulnerabilities_table (fun t => (t ++ List.map f [])%list) s = s.
Proof.
  destruct s as [ad cf ps mc tc sts gi dl sc vt gcm pm pc fl ck mn].
  unfold set_vulnerabilities_table.
  cbn [List.map allowed_dirs config partitions memory_cache ttl_cache stats
       git_integration db_lock security_cache vulnerabilities_table git_commits
       performance_metrics partition_cache files clock monotonic].
  rewrite app_nil_r. reflexivity.
Qed.

Lemma ingest_run s p st pid part hot warm :
  let e := ingested_entry s p st pid in
  db_lock s = false ->
  files s !! p = Some st ->
  st_size st <= max_file_size_mb (config s) * 1024 * 1024 ->
  _get_partition_for_path p s = Ret pid s ->
  pid <> EmptyString ->
  partitions s !! pid = Some part ->
  LRUCache.setitem p e (memory_cache s) = Some hot ->
  TTLCache.setitem (monotonic s) p e (ttl_cache s) = Some warm ->
  ingest p s
    = Ret (Some e) (ingested_state s p e (ingested_row s st e) part hot warm).
Proof.
  intros e Hl Hf Hsz Hpid Hne Hpart Hhot Hwarm.
  pose proof (ingested_entry_vulnerabilities s p st pid) as Hvul.
  fold e in Hvul. revert Hhot Hwarm Hvul. unfold ingested_row.
  generalize (eq_refl e). unfold e at 2. generalize e. clear e.
  intros e He. unfold ingested_entry in He. intros Hhot Hwarm Hvul.
  unfold ingest, bind at 1. rewrite read_file_efficiently_eq, Hf.
  destruct (st_size st >? _) eqn:E.
  { rewrite Z.gtb_ltb in E. apply Z.ltb_lt in E. lia. }
  unfold bind at 1. cbn [gets].
  destruct (security_result (config s) p (data st)) as [score vulns].
  unfold bind at 1. rewrite Hpid.
  destruct (compress_if_large (config s) (data st)) as [stored isc].
  unfold bind at 1. cbn [gets].
  unfold bind at 1. unfold path_stat. rewrite Hf.
  unfold bind at 1. cbn [time_time gets]. rewrite <- He.
  unfold bind at 1.
  rewrite (store_in_partition_free s e stored pid part Hl Hne Hpart).
  unfold bind at 1. rewrite update_index_free by exact Hl.
  assert (Hp : path e = p) by (rewrite He; reflexivity). rewrite Hp.
  cbn [snd fst] in *. subst vulns. clear He.
  unfold ingested_state.
  set (row := {| b_content := stored; b_compressed := compressed e;
                 b_size := size e; b_checksum := checksum e |}).
  set (s1 := set_security_cache _ _).
  unfold bind at 1.
  rewrite (populate_tiers_free s1 p e hot warm Hl Hhot Hwarm).
  set (s2 := set_ttl_cache _ _).
  destruct (vulnerabilities e) as [|v vs] eqn:Hv.
  - rewrite no_new_vulnerability_rows. reflexivity.
  - unfold bind at 1.
    rewrite (store_vulnerabilities_free s2 p (v :: vs) Hl). reflexivity.
Qed.

End Success.

Section SuccessRun.

Context `{Platform}.

Lemma get_partition_init s p dir now N :
  partitions s = _init_partitions dir now N -> (0 < N)%nat ->
  exists pid part,
    _get_partition_for_path p s = Ret pid s
    /\ pid <> EmptyString /\ partitions s !! pid = Some part.
Proof.
  intros Hps HN.
  assert (Hsize : base.size (partitions s) = N)
    by (rewrite Hps; apply init_partitions_size).
  destruct (digest_shape (encode p)) as [Hlen Hrange].
  destruct (MD5.digest (encode p)) as [|b0 rest] eqn:Hd; [discriminate|].
  assert (Hb0 : 0 <= b0 < 256) by (inversion Hrange; assumption).
  assert (Hmod : 0 <= b0 mod Z.of_nat N < Z.of_nat N)
    by (apply Z.mod_pos_bound; lia).
  destruct (init_partitions_lookup dir now N 0 (Z.to_nat (b0 mod Z.of_nat N)))
    as (part & Hpart & _); [lia|].
  exists ("partition_" ++ Str.of_nat (Z.to_nat (b0 mod Z.of_nat N))), part.
  split; [|split; [discriminate|rewrite Hps; exact Hpart]].
  unfold _get_partition_for_path, MD5.hexdigest.
  rewrite Hd, int16_hex_byte by assumption. rewrite Hsize.
  destruct (Z.of_nat N =? 0) eqn:E; [apply Z.eqb_eq in E; lia|reflexivity].
Qed.

(** The run of [cache_file_enhanced] on a readable file of an allowed path,
    on an engine with its partitions in place and room in both tiers. *)
Lemma cache_file_enhanced_run s fp force st dir now N :
  db_lock s = false ->
  path_allowed s fp = true ->
  files s !! resolve fp = Some st ->
  st_size st <= max_file_size_mb (config s) * 1024 * 1024 ->
  force = true \/ is_fresh s (resolve fp) = false ->
  partitions s = _init_partitions dir now N -> (0 < N)%nat ->
  (1 <= LRUCache.maxsize (memory_cache s))%nat ->
  (1 <= TTLCache.maxsize (ttl_cache s))%nat ->
  exists pid part hot warm,
    let e := ingested_entry s (resolve fp) st pid in
    partitions s !! pid = Some part /\ pid <> EmptyString
    /\ LRUCache.setitem (resolve fp) e (memory_cache s) = Some hot
    /\ cache_file_enhanced fp force s
       = Ret (Some e)
           (ingested_state s (resolve fp) e (ingested_row s st e) part hot warm).
Proof.
  intros Hl Hp Hf Hsz Hfr Hps HN Hhot Hwarm.
  destruct (get_partition_init s (resolve fp) dir now N Hps HN)
    as (pid & part & Hpid & Hne & Hpart).
  destruct (lru_setitem_some (resolve fp) (ingested_entry s (resolve fp) st pid)
              (memory_cache s) Hhot) as [hot Hh].
  destruct (ttl_setitem_some (monotonic s) (resolve fp)
              (ingested_entry s (resolve fp) st pid) (ttl_cache s) Hwarm) as [warm Hw].
  exists pid, part, hot, warm. cbv zeta.
  split; [exact Hpart|]. split; [exact Hne|]. split; [exact Hh|].
  rewrite cache_file_enhanced_allowed by assumption.
  rewrite check_fresh_stale; [|exact Hl|exact Hfr|left; congruence].
  rewrite (ingest_run s (resolve fp) st pid part hot warm) by assumption.
  reflexivity.
Qed.

End SuccessRun.

(** X11. A readable file is cached.  On an engine whose partitions are those
    [_init_partitions] builds, at least one of them, with the lock free and
    room for one entry in each tier, a call for an allowed path whose file
    exists and is within the size limit (forced, or with no fresh index row)
    returns an entry: it carries the path, the checksum of the bytes on disk,
    the score of their analysis and an access count of one; the index holds
    it, so does the hot tier, one file more is counted and no error, and one
    vulnerability row per finding is appended to the table. *)
Theorem cache_file_enhanced_caches_readable_files `{Platform}
  (s : State) (fp : string) (force : bool) (st : File)
  (dir : string) (now : Z) (N : nat) :
  db_lock s = false ->
  path_allowed s fp = true ->
  files s !! resolve fp = Some st ->
  st_size st <= max_file_size_mb (config s) * 1024 * 1024 ->
  force = true \/ is_fresh s (resolve fp) = false ->
  partitions s = _init_partitions dir now N -> (0 < N)%nat ->
  (1 <= LRUCache.maxsize (memory_cache s))%nat ->
  (1 <= TTLCache.maxsize (ttl_cache s))%nat ->
  exists e s',
    cache_file_enhanced fp force s = Ret (Some e) s'
    /\ path e = resolve fp
    /\ checksum e = sha256_hexdigest (data st)
    /\ access_count e = 1
    /\ (security_score e, vulnerabilities e)
         = security_result (config s) (resolve fp) (data st)
    /\ security_cache s' !! resolve fp = Some e
    /\ LRUCache.lookup (resolve fp) (memory_cache s') = Some e
    /\ stats s' !! "cached_files" = Some (default 0 (stats s !! "cached_files") + 1)
    /\ stats s' !! "errors" = stats s !! "errors"
    /\ vulnerabilities_table s'
         = (vulnerabilities_table s
              ++ List.map (vuln_row (resolve fp) (clock s)) (vulnerabilities e))%list
    /\ db_lock s' = false.
Proof.
  intros Hl Hp Hf Hsz Hfr Hps HN Hhot Hwarm.
  destruct (cache_file_enhanced_run s fp force st dir now N)
    as (pid & part & hot & warm & Hpart & Hne & Hh & Hrun); try assumption.
  cbv zeta in Hrun, Hh.
  destruct (ingested_entry_fields s (resolve fp) st pid)
    as (Hpath & _ & Hacc & Hsum & _ & _).
  eexists _, _. split; [exact Hrun|].
  repeat match goal with |- _ /\ _ => split end.
  - exact Hpath.
  - exact Hsum.
  - exact Hacc.
  - unfold ingested_entry.
    destruct (security_result _ _ _) as [score vulns].
    destruct (compress_if_large _ _) as [stored isc]. reflexivity.
  - cbn. apply lookup_insert_eq.
  - cbn. eapply lru_setitem_lookup, Hh.
  - cbn. apply lookup_insert_eq.
  - cbn. apply lookup_insert_ne. discriminate.
  - reflexivity.
  - exact Hl.
Qed.

Lemma cache_file_enhanced_caches_readable_files_witness :
  exists e s',
    @cache_file_enhanced sample_platform "/tmp/repo/foo.py" false sample_state
      = Ret (Some e) s'
    /\ security_score e = 80
    /\ List.length (vulnerabilities_table s') = 1%nat
    /\ stats s' !! "cached_files" = Some 1.
Proof.
  destruct (@cache_file_enhanced_caches_readable_files sample_platform sample_state
              "/tmp/repo/foo.py" false {| st_mtime := 100; data := encode sample_source |}
              "/cache" 0 4%nat)
    as (e & s' & Hrun & _ & _ & _ & Hsec & _ & _ & Hcnt & _ & Hvul & _).
  - reflexivity.
  - vm_compute. reflexivity.
  - vm_compute. reflexivity.
  - vm_compute. discriminate.
  - right. vm_compute. reflexivity.
  - reflexivity.
  - lia.
  - vm_compute. lia.
  - vm_compute. lia.
  - exists e, s'. split; [exact Hrun|].
    assert (Hscore : security_score e
                     = fst (security_result (config sample_state) "/tmp/repo/foo.py"
                              (encode sample_source)))
      by (change (security_score e) with (fst (security_score e, vulnerabilities e));
          rewrite Hsec; reflexivity).
    assert (Hvs : vulnerabilities e
                  = snd (security_result (config sample_state) "/tmp/repo/foo.py"
                           (encode sample_source)))
      by (change (vulnerabilities e) with (snd (security_score e, vulnerabilities e));
          rewrite Hsec; reflexivity).
    split; [rewrite Hscore; vm_compute; reflexivity|]. split; [|exact Hcnt].
    rewrite Hvul, Hvs. vm_compute. reflexivity.
Defined.

(** X12. A path that has just been cached cannot be read back through
    [get_cached_content].  Under the conditions above the call that caches
    the file returns its entry and leaves it in the hot tier; the read that
    follows finds it there while holding [_db_lock], and then waits for the
    same lock to open the partition: it never returns. *)
Theorem get_cached_content_blocks_after_caching `{Platform}
  (s : State) (fp : string) (force : bool) (st : File)
  (dir : string) (now : Z) (N : nat) :
  db_lock s = false ->
  path_allowed s fp = true ->
  files s !! resolve fp = Some st ->
  st_size st <= max_file_size_mb (config s) * 1024 * 1024 ->
  force = true \/ is_fresh s (resolve fp) = false ->
  partitions s = _init_partitions dir now N -> (0 < N)%nat ->
  (1 <= LRUCache.maxsize (memory_cache s))%nat ->
  (1 <= TTLCache.maxsize (ttl_cache s))%nat ->
  exists e s',
    cache_file_enhanced fp force s = Ret (Some e) s'
    /\ db_lock s' = false
    /\ get_cached_content (resolve fp) s' = Hang.
Proof.
  intros Hl Hp Hf Hsz Hfr Hps HN Hhot Hwarm.
  destruct (cache_file_enhanced_run s fp force st dir now N)
    as (pid & part & hot & warm & Hpart & Hne & Hh & Hrun); try assumption.
  cbv zeta in Hrun, Hh.
  destruct (ingested_entry_fields s (resolve fp) st pid)
    as (_ & _ & _ & _ & Hkey & _).
  eexists _, _. split; [exact Hrun|]. split; [exact Hl|].
  apply (get_cached_content_hot_hit _ _ (ingested_entry s (resolve fp) st pid)).
  - exact Hl.
  - cbn. eapply lru_setitem_lookup, Hh.
  - unfold key_resolves. rewrite Hkey.
    destruct pid as [|c pid]; [exact I|]. cbn. rewrite Hpart. eauto.
Qed.

Lemma get_cached_content_blocks_after_caching_witness :
  exists e s',
    @cache_file_enhanced sample_platform "/tmp/repo/bar.py" true sample_state
      = Ret (Some e) s'
    /\ db_lock s' = false
    /\ @get_cached_content sample_platform "/tmp/repo/bar.py" s' = Hang.
Proof.
  apply (@get_cached_content_blocks_after_caching sample_platform sample_state
           "/tmp/repo/bar.py" true {| st_mtime := 120; data := encode ("x = 1" ++ nl) |}
           "/cache" 0 4%nat).
  - reflexivity.
  - vm_compute. reflexivity.
  - vm_compute. reflexivity.
  - vm_compute. discriminate.
  - left. reflexivity.
  - reflexivity.
  - lia.
  - vm_compute. lia.
  - vm_compute. lia.
Defined.

(** ** The clear command and the tables it leaves alone *)

(** X13. A confirmed clear empties the stores but resets no counter: the
    statistics and the metrics log are as before.  Afterwards the lock is
    free and reading any path is a miss. *)
Theorem handle_clear_keeps_counters_and_reads_miss `{Platform} (s : State) :
  db_lock s = false ->
  partitions_keyed s ->
  exists s',
    _handle_clear true s
      = Ret [("status", "success"); ("message", "Cache cleared")] s'
    /\ db_lock s' = false
    /\ stats s' = stats s
    /\ performance_metrics s' = performance_metrics s
    /\ files s' = files s
    /\ (forall p, get_cached_content p s' = Ret None s').
Proof.
  intros Hl Hk. eexists. split; [apply handle_clear_confirmed; assumption|].
  repeat match goal with |- _ /\ _ => split end; try reflexivity; try exact Hl.
  intros p. rewrite get_cached_content_miss; [|exact Hl|reflexivity|reflexivity].
  cbn. rewrite lookup_empty. reflexivity.
Qed.

Lemma handle_clear_keeps_counters_and_reads_miss_witness :
  exists s',
    _handle_clear true sample_hit
      = Ret [("status", "success"); ("message", "Cache cleared")] s'
    /\ stats s' !! "cache_hits" = Some 1
    /\ @get_cached_content sample_platform "/tmp/repo/foo.py" s' = Ret None s'.
Proof.
  destruct (@handle_clear_keeps_counters_and_reads_miss sample_platform sample_hit)
    as (s' & Hrun & _ & Hst & _ & _ & Hget).
  - vm_compute. reflexivity.
  - intros id part.
    assert (Hps : partitions sample_hit = _init_partitions "/cache" 0 4)
      by (vm_compute; reflexivity).
    rewrite Hps. apply init_partitions_keyed.
  - exists s'. split; [exact Hrun|]. split; [|apply Hget].
    rewrite Hst. vm_compute. reflexivity.
Defined.

(** ** The vulnerabilities command *)

Section Vulnerabilities.

Context `{Platform}.

Lemma handle_vulnerabilities_all s :
  db_lock s = false ->
  _handle_vulnerabilities None s
    = Ret (let rows := List.filter (fun r => negb (vr_resolved r))
                                   (vulnerabilities_table s) in
           {| v_count := Z.of_nat (List.length rows);
              v_vulnerabilities := List.firstn 100 rows |}) s.
Proof.
  intros Hl. unfold _handle_vulnerabilities, _get_db_connection, bind.
  rewrite with_db_lock_free by exact Hl. cbn.
  rewrite unlock_lock by exact Hl. reflexivity.
Qed.

Lemma filter_vuln_rows p now vs :
  List.filter (fun r => negb (vr_resolved r)) (List.map (vuln_row p now) vs)
    = List.map (vuln_row p now) vs.
Proof. induction vs as [|v vs IH]; [reflexivity|]. cbn. rewrite IH. reflexivity. Qed.

End Vulnerabilities.

(** X14. Caching a file again adds its findings again.  Each successful
    ingestion appends one unresolved row per finding to the vulnerabilities
    table and removes none, so the count the [vulnerabilities] command
    reports grows by the number of findings with every forced caching of the
    same file, while the rows it lists never exceed one hundred. *)
Theorem recaching_repeats_vulnerability_rows `{Platform}
  (s : State) (fp : string) (st : File) (dir : string) (now : Z) (N : nat) :
  db_lock s = false ->
  path_allowed s fp = true ->
  files s !! resolve fp = Some st ->
  st_size st <= max_file_size_mb (config s) * 1024 * 1024 ->
  partitions s = _init_partitions dir now N -> (0 < N)%nat ->
  (1 <= LRUCache.maxsize (memory_cache s))%nat ->
  (1 <= TTLCache.maxsize (ttl_cache s))%nat ->
  exists e s' before after,
    cache_file_enhanced fp true s = Ret (Some e) s'
    /\ _handle_vulnerabilities None s = Ret before s
    /\ _handle_vulnerabilities None s' = Ret after s'
    /\ v_count after = v_count before + Z.of_nat (List.length (vulnerabilities e))
    /\ vulnerabilities e = snd (security_result (config s) (resolve fp) (data st))
    /\ (List.length (v_vulnerabilities after) <= 100)%nat.
Proof.
  intros Hl Hp Hf Hsz Hps HN Hhot Hwarm.
  destruct (cache_file_enhanced_run s fp true st dir now N)
    as (pid & part & hot & warm & Hpart & Hne & Hh & Hrun); try assumption;
    [left; reflexivity|].
  cbv zeta in Hrun, Hh.
  eexists _, _, _, _. split; [exact Hrun|].
  split; [apply handle_vulnerabilities_all, Hl|].
  split; [apply handle_vulnerabilities_all, Hl|].
  split; [|split].
  - cbv zeta. cbn [v_count]. unfold ingested_state.
    cbn [vulnerabilities_table set_stats set_vulnerabilities_table set_ttl_cache
         set_memory_cache set_security_cache set_partition_cache].
    rewrite List.filter_app, filter_vuln_rows, List.length_app, List.length_map. lia.
  - apply ingested_entry_vulnerabilities.
  - cbv zeta. cbn [v_vulnerabilities]. rewrite List.length_firstn. lia.
Qed.

Lemma recaching_repeats_vulnerability_rows_witness :
  exists e s' before after,
    @cache_file_enhanced sample_platform "/tmp/repo/foo.py" true sample_cached
      = Ret (Some e) s'
    /\ _handle_vulnerabilities None sample_cached = Ret before sample_cached
    /\ _handle_vulnerabilities None s' = Ret after s'
    /\ v_count before = 1 /\ v_count after = 2.
Proof.
  destruct (@recaching_repeats_vulnerability_rows sample_platform sample_cached
              "/tmp/repo/foo.py" {| st_mtime := 100; data := encode sample_source |}
              "/cache" 0 4%nat)
    as (e & s' & before & after & Hrun & Hb & Ha & Hcnt & Hvs & _).
  - vm_compute. reflexivity.
  - vm_compute. reflexivity.
  - vm_compute. reflexivity.
  - vm_compute. discriminate.
  - vm_compute. reflexivity.
  - lia.
  - vm_compute. lia.
  - vm_compute. lia.
  - exists e, s', before, after.
    split; [exact Hrun|]. split; [exact Hb|]. split; [exact Ha|].
    assert (Hbefore : v_count before = 1).
    { apply (f_equal (fun o => v_count <$> value_of o)) in Hb.
      vm_compute in Hb. injection Hb as Hb. symmetry. exact Hb. }
    split; [exact Hbefore|]. rewrite Hcnt, Hbefore, Hvs. vm_compute. reflexivity.
Defined.

(** ** The metrics report *)

Section MetricsRun.

Context `{Platform}.










End MetricsRun.



(** ** Reading persisted content *)

Section Persisted.

Context `{Platform}.

Lemma stored_content_same_store s1 s2 e :
  partitions s2 = partitions s1 ->
  partition_cache s2 = partition_cache s1 ->
  stored_content s2 e = stored_content s1 e.
Proof.
  intros Ep Eb. unfold stored_content, partition_table. rewrite Ep, Eb. reflexivity.
Qed.

Lemma restarted_fields s p :
  db_lock (restarted s) = false
  /\ partitions (restarted s) = partitions s
  /\ security_cache (restarted s) = security_cache s
  /\ partition_cache (restarted s) = partition_cache s
  /\ LRUCache.lookup p (memory_cache (restarted s)) = None
  /\ TTLCache.lookup (monotonic (restarted s)) p (ttl_cache (restarted s)) = None.
Proof. destruct s. repeat split. Qed.

End Persisted.

(** X16. Content that was ingested is served from the databases once the tiers
    no longer hold the entry.  After a call that ingested a file, in any
    later state with the same index and partition tables, the lock free and
    no entry for the path in either tier (a restarted engine, for one),
    [get_cached_content] on the resolved path returns the bytes that were on
    disk when the file was cached, provided decompression undoes
    compression; the state is left as it was, so the entry is not put back
    into a tier. *)
Theorem get_cached_content_serves_persisted_bytes `{Platform}
  (s s' s2 : State) (fp : string) (force : bool) (e : CacheEntry) (st : File) :
  (forall b, gzip_decompress (gzip_compress b) = Some b) ->
  db_lock s = false ->
  force = true \/ is_fresh s (resolve fp) = false ->
  cache_file_enhanced fp force s = Ret (Some e) s' ->
  files s !! resolve fp = Some st ->
  db_lock s2 = false ->
  partitions s2 = partitions s' ->
  security_cache s2 = security_cache s' ->
  partition_cache s2 = partition_cache s' ->
  LRUCache.lookup (resolve fp) (memory_cache s2) = None ->
  TTLCache.lookup (monotonic s2) (resolve fp) (ttl_cache s2) = None ->
  get_cached_content (resolve fp) s2 = Ret (Some (data st)) s2.
Proof.
  intros Hgz Hl Hfr Hrun Hf Hl2 Ep Ei Eb Hhot Hwarm.
  destruct (path_allowed s fp) eqn:Hp.
  2:{ rewrite cache_file_enhanced_rejected in Hrun by exact Hp. discriminate. }
  pose proof (cache_file_enhanced_ingests s fp force Hl Hp Hfr) as Hi.
  rewrite Hrun in Hi.
  destruct Hi as (Ht & st' & pid & part & Hf' & _ & _ & Hne & Hpart & -> & Hrow & Hblob).
  assert (st' = st) as -> by congruence.
  rewrite get_cached_content_miss by assumption.
  rewrite Ei, Hrow. f_equal.
  rewrite (stored_content_same_store s' s2) by assumption.
  apply (stored_content_ingested s s' (resolve fp) st pid part Hgz Hne).
  - rewrite (t_partitions _ _ _ Ht). exact Hpart.
  - exact Hblob.
Qed.

Lemma get_cached_content_serves_persisted_bytes_witness :
  @get_cached_content sample_platform "/tmp/repo/foo.py" (restarted sample_cached)
    = Ret (Some (encode sample_source)) (restarted sample_cached).
Proof.
  destruct (@cache_file_enhanced sample_platform "/tmp/repo/foo.py" false sample_state)
    as [[e|] s'|x s'|] eqn:Hrun.
  2-4: exfalso; apply (f_equal value_of) in Hrun; vm_compute in Hrun; discriminate.
  assert (Hs' : s' = sample_cached).
  { unfold sample_cached. rewrite Hrun. reflexivity. }
  rewrite Hs' in Hrun. clear Hs' s'.
  destruct (restarted_fields sample_cached "/tmp/repo/foo.py")
    as (Hl2 & Ep & Ei & Eb & Hhot & Hwarm).
  assert (Hgz : forall b, @gzip_decompress sample_platform
                            (@gzip_compress sample_platform b) = Some b)
    by (intros b; reflexivity).
  assert (Hl : db_lock sample_state = false) by reflexivity.
  assert (Hfr : false = true
                \/ is_fresh sample_state (@resolve sample_platform "/tmp/repo/foo.py")
                   = false)
    by (right; vm_compute; reflexivity).
  assert (Hf : files sample_state !! @resolve sample_platform "/tmp/repo/foo.py"
               = Some {| st_mtime := 100; data := encode sample_source |})
    by (vm_compute; reflexivity).
  exact (@get_cached_content_serves_persisted_bytes sample_platform sample_state
           sample_cached (restarted sample_cached) "/tmp/repo/foo.py" false e
           {| st_mtime := 100; data := encode sample_source |}
           Hgz Hl Hfr Hrun Hf Hl2 Ep Ei Eb Hhot Hwarm).
Defined.

(** ** Checksums and stored blobs *)

(** C3. When [cache_file_enhanced] ingests a file and returns its entry, the
    recorded checksum is the SHA-256 of the bytes on disk, uncompressed.  The
    blob row written to the partition the entry names carries the same
    checksum and the same flag; the flag is set exactly when the number of
    bytes exceeds the threshold, and then the row holds the compressed bytes
    and decompressing them gives the bytes on disk again, otherwise the row
    holds the bytes themselves.  Either way [_read_cached_content] returns
    bytes whose digest is the recorded checksum, provided decompression
    undoes compression. *)
Theorem cached_blob_matches_checksum `{Platform}
  (s s' : State) (fp : string) (force : bool) (e : CacheEntry) :
  (forall b, gzip_decompress (gzip_compress b) = Some b) ->
  db_lock s = false ->
  force = true \/ is_fresh s (resolve fp) = false ->
  cache_file_enhanced fp force s = Ret (Some e) s' ->
  exists st pid part row,
    files s !! resolve fp = Some st
    /\ security_cache s' !! resolve fp = Some e
    /\ checksum e = sha256_hexdigest (data st)
    /\ compressed e
         = (Z.of_nat (List.length (data st))
              >? compression_threshold_kb (config s) * 1024)
    /\ partition_key e = Some pid
    /\ partitions s' !! pid = Some part
    /\ partition_table (db_file part) s' !! resolve fp = Some row
    /\ b_checksum row = checksum e
    /\ b_compressed row = compressed e
    /\ (compressed e = true ->
        b_content row = gzip_compress (data st)
        /\ gzip_decompress (b_content row) = Some (data st))
    /\ (compressed e = false -> b_content row = data st)
    /\ exists content,
         _read_cached_content e s' = Ret (Some content) s'
         /\ content = data st
         /\ sha256_hexdigest content = checksum e.
Proof.
  intros Hgz Hl Hfr Hrun.
  destruct (path_allowed s fp) eqn:Hp.
  2:{ rewrite cache_file_enhanced_rejected in Hrun by exact Hp. discriminate. }
  pose proof (cache_file_enhanced_ingests s fp force Hl Hp Hfr) as Hi.
  rewrite Hrun in Hi.
  destruct Hi as (Ht & st & pid & part & Hf & _ & _ & Hne & Hpart & -> & Hrow & Hblob).
  destruct (ingested_entry_fields s (resolve fp) st pid)
    as (_ & _ & _ & Hsum & Hkey & Hc).
  assert (Hpart' : partitions s' !! pid = Some part)
    by (rewrite (t_partitions _ _ _ Ht); exact Hpart).
  exists st, pid, part, (ingested_row s st (ingested_entry s (resolve fp) st pid)).
  repeat match goal with |- _ /\ _ => split end.
  - exact Hf.
  - exact Hrow.
  - exact Hsum.
  - rewrite Hc. apply compress_if_large_flag.
  - exact Hkey.
  - exact Hpart'.
  - exact Hblob.
  - reflexivity.
  - reflexivity.
  - rewrite Hc. unfold ingested_row, compress_if_large. cbn [b_content].
    destruct (_ >? _); cbn [fst snd]; [|discriminate].
    intros _. split; [reflexivity|apply Hgz].
  - rewrite Hc. unfold ingested_row, compress_if_large. cbn [b_content].
    destruct (_ >? _); cbn [fst snd]; [discriminate|]. reflexivity.
  - exists (data st). split; [|split; [reflexivity|symmetry; exact Hsum]].
    rewrite read_cached_content_free by (rewrite (t_lock _ _ _ Ht); exact Hl).
    f_equal.
    exact (stored_content_ingested s s' (resolve fp) st pid part Hgz Hne Hpart' Hblob).
Qed.

Lemma cached_blob_matches_checksum_witness :
  exists e s' row,
    @cache_file_enhanced sample_platform "/tmp/repo/foo.py" false sample_compressing
      = Ret (Some e) s'
    /\ compressed e = true
    /\ b_compressed row = true
    /\ b_checksum row = checksum e
    /\ @gzip_decompress sample_platform (b_content row) = Some (encode sample_source)
    /\ @_read_cached_content sample_platform e s' = Ret (Some (encode sample_source)) s'.
Proof.
  destruct (@cache_file_enhanced sample_platform "/tmp/repo/foo.py" false
              sample_compressing) as [[e|] s'|x s'|] eqn:Hrun.
  2-4: exfalso; apply (f_equal value_of) in Hrun; vm_compute in Hrun; discriminate.
  assert (Hgz : forall b, @gzip_decompress sample_platform
                            (@gzip_compress sample_platform b) = Some b)
    by (intros b; reflexivity).
  assert (Hl : db_lock sample_compressing = false) by reflexivity.
  assert (Hfr : false = true
                \/ is_fresh sample_compressing
                     (@resolve sample_platform "/tmp/repo/foo.py") = false)
    by (right; vm_compute; reflexivity).
  destruct (@cached_blob_matches_checksum sample_platform
              sample_compressing s' "/tmp/repo/foo.py" false e Hgz Hl Hfr Hrun)
    as (st & pid & part & row & Hf & _ & _ & Hc & _ & _ & _ & Hbs & Hbc & Hz & _
        & content & Hread & -> & _).
  assert (Hst : st = {| st_mtime := 100; data := encode sample_source |}).
  { assert (Hf' : files sample_compressing !! @resolve sample_platform "/tmp/repo/foo.py"
                  = Some {| st_mtime := 100; data := encode sample_source |})
      by (vm_compute; reflexivity).
    congruence. }
  subst st.
  assert (Hflag : compressed e = true) by (rewrite Hc; vm_compute; reflexivity).
  exists e, s', row.
  split; [reflexivity|]. split; [exact Hflag|]. split; [rewrite Hbc; exact Hflag|].
  split; [exact Hbs|]. split; [exact (proj2 (Hz Hflag))|exact Hread].
Defined.

(** ** Validation failures *)

(** C9, amended.  A path outside every allowed directory is refused:
    whatever the flag and the state, the call returns no entry, raises
    nothing and leaves the whole engine state as it was, so nothing is
    persisted.  With the lock free, a file of an allowed path that is larger
    than the configured maximum is skipped in the same way when the call is
    forced or the index holds no fresh row for the path. *)
Theorem cache_file_enhanced_validation_failures `{Platform}
  (s : State) (fp : string) (force : bool) :
  (path_allowed s fp = false -> cache_file_enhanced fp force s = Ret None s)
  /\ (forall st,
        db_lock s = false ->
        path_allowed s fp = true ->
        files s !! resolve fp = Some st ->
        st_size st > max_file_size_mb (config s) * 1024 * 1024 ->
        force = true \/ is_fresh s (resolve fp) = false ->
        cache_file_enhanced fp force s = Ret None s).
Proof.
  split.
  - apply cache_file_enhanced_rejected.
  - intros st. apply cache_file_enhanced_oversize.
Qed.

Lemma cache_file_enhanced_validation_failures_witness :
  @cache_file_enhanced sample_platform "/tmpx/repo/foo.py" true sample_cached
    = Ret None sample_cached
  /\ @cache_file_enhanced sample_platform "/tmp/big.bin" true sample_lowered
       = Ret None sample_lowered.
Proof.
  split.
  - apply (proj1 (@cache_file_enhanced_validation_failures sample_platform
                    sample_cached "/tmpx/repo/foo.py" true)).
    vm_compute. reflexivity.
  - apply (proj2 (@cache_file_enhanced_validation_failures sample_platform
                    sample_lowered "/tmp/big.bin" true)
             {| st_mtime := 90; data := List.repeat 0 64 |}).
    + vm_compute. reflexivity.
    + vm_compute. reflexivity.
    + vm_compute. reflexivity.
    + vm_compute. reflexivity.
    + left. reflexivity.
Defined.

(** C9, as the claim states its second part: every readable file over the
    size limit would come back with no entry.  On the sample engine the 64-byte file [/tmp/big.bin] was
    cached, and the engine then runs with the maximum lowered to zero: the
    file is over the limit, yet an unforced request returns its entry,
    because the row in the index is fresh and that check comes first. *)
Lemma oversize_file_served_from_fresh_row :
  ~ (forall (s : State) (fp : string) (force : bool) (st : File),
       db_lock s = false ->
       @path_allowed sample_platform s fp = true ->
       files s !! @resolve sample_platform fp = Some st ->
       st_size st > max_file_size_mb (config s) * 1024 * 1024 ->
       value_of (@cache_file_enhanced sample_platform fp force s) = Some None).
Proof.
  intros Hall.
  assert (Hl : db_lock sample_lowered = false) by (vm_compute; reflexivity).
  assert (Hp : @path_allowed sample_platform sample_lowered "/tmp/big.bin" = true)
    by (vm_compute; reflexivity).
  assert (Hf : files sample_lowered !! @resolve sample_platform "/tmp/big.bin"
               = Some {| st_mtime := 90; data := List.repeat 0 64 |})
    by (vm_compute; reflexivity).
  assert (Hsz : st_size {| st_mtime := 90; data := List.repeat 0 64 |}
                > max_file_size_mb (config sample_lowered) * 1024 * 1024)
    by (vm_compute; reflexivity).
  specialize (Hall sample_lowered "/tmp/big.bin" false _ Hl Hp Hf Hsz).
  destruct (@cache_file_enhanced sample_platform "/tmp/big.bin" false sample_lowered)
    as [[e|] s'|x s'|] eqn:Hrun.
  - discriminate Hall.
  - apply (f_equal (fun o => match value_of o with Some (Some _) => true | _ => false end))
      in Hrun.
    vm_compute in Hrun. discriminate Hrun.
  - discriminate Hall.
  - discriminate Hall.
Qed.

(** ** Deletions reported for a repository set by a relative path *)

(** C6. The claim has every deleted change remove the path from the cache.
    On the sample engine run from [/tmp], with the repository set by the
    relative path [repo], [repo/foo.py] cached and then deleted, the
    synchronisation is told that [foo.py] was deleted.  The change record names [repo/foo.py],
    the index files the entry under the resolved path [/tmp/repo/foo.py],
    so the removal finds no row and returns at once: the synchronisation
    returns and leaves the state as it was, with the index row, the blob and
    the tier entries of the deleted file in place. *)
Theorem update_from_git_misses_resolved_keys :
  @changes_between cwd_platform "repo" "HEAD~1" "HEAD"
    = [{| gc_file_path := "repo/foo.py"; change_type := "deleted" |}]
  /\ git_integration sample_relative = Some "repo"
  /\ @resolve cwd_platform "repo/foo.py" = "/tmp/repo/foo.py"
  /\ @update_from_git cwd_platform "HEAD~1" "HEAD" sample_relative
       = Ret tt sample_relative
  /\ (exists e,
        security_cache sample_relative !! "/tmp/repo/foo.py" = Some e
        /\ @stored_content cwd_platform sample_relative e = Some (encode sample_source))
  /\ LRUCache.contains "/tmp/repo/foo.py" (memory_cache sample_relative) = true.
Proof.
  assert (Hch : @changes_between cwd_platform "repo" "HEAD~1" "HEAD"
                = [{| gc_file_path := "repo/foo.py"; change_type := "deleted" |}])
    by (vm_compute; reflexivity).
  assert (Hgit : git_integration sample_relative = Some "repo")
    by (vm_compute; reflexivity).
  assert (Hl : db_lock sample_relative = false) by (vm_compute; reflexivity).
  assert (Hnone : security_cache sample_relative !! "repo/foo.py" = None)
    by (vm_compute; reflexivity).
  split; [exact Hch|]. split; [exact Hgit|]. split; [vm_compute; reflexivity|].
  split.
  { unfold update_from_git, bind at 1. cbn [gets]. rewrite Hgit.
    fold (@changes_between cwd_platform "repo" "HEAD~1" "HEAD"). rewrite Hch.
    cbn [apply_changes change_type gc_file_path]. unfold bind at 1.
    change (String.eqb "deleted" "deleted") with true. cbv iota.
    rewrite (remove_from_cache_absent sample_relative "repo/foo.py" Hl Hnone).
    reflexivity. }
  split; [|vm_compute; reflexivity].
  assert (Hrow : (fun e => @stored_content cwd_platform sample_relative e)
                   <$> security_cache sample_relative !! "/tmp/repo/foo.py"
                 = Some (Some (encode sample_source)))
    by (vm_compute; reflexivity).
  destruct (security_cache sample_relative !! "/tmp/repo/foo.py") as [e|];
    [|discriminate Hrow].
  exists e. split; [reflexivity|]. cbn in Hrow. congruence.
Qed.
